(** * Cloglog ordinal BART: the sampling driver of [CloglogOrdinalBARTModel]

    A shallow embedding of [stochtree/cloglog_ordinal_bart.py].  The Python
    class drives a C++ forest sampler and a C++ ordinal augmentation sampler
    through a shared auxiliary data store.  The driver itself (input checks,
    retention schedule, the order of the calls, the sample containers and the
    [sampled] flag) is embedded here; the collaborators that live in other
    modules are an interface ([Backend]) whose operations are total state
    transformers. *)

From Stdlib Require Import ZArith String Bool Lia Reals Lra.
From stdpp Require Import base list sorting.

(** ** Python and NumPy primitives used by the driver *)

Module Py.

(** The class of the exception object a call raises ([type(e)]), for the
    exceptions the two methods can raise. *)
Inductive exn : Type :=
| ValueError (msg : string)
| NotSampledError (msg : string)
| IndexError (msg : string)
| AttributeError (msg : string)
| ZeroDivisionError (msg : string).

(** NumPy element types, as far as [sample] tells them apart. *)
Inductive dtype : Type := np_int32 | np_int64 | np_float64 | np_object.

Definition is_int_dtype (d : dtype) : bool :=
  match d with np_int32 | np_int64 => true | _ => false end.

Definition dtype_bits (d : dtype) : Z :=
  match d with np_int32 => 32 | _ => 64 end.

Definition dtype_max (d : dtype) : Z := 2 ^ (dtype_bits d - 1) - 1.

(** Two's complement wrap-around of a [bits]-wide signed integer. *)
Definition wrap_signed (bits x : Z) : Z :=
  (x + 2 ^ (bits - 1)) mod 2 ^ bits - 2 ^ (bits - 1).

(** [s + 1] for a NumPy integer scalar [s] of type [d]: the sum stays in
    [d] and wraps (a warning, not an exception). *)
Definition scalar_succ (d : dtype) (s : Z) : Z :=
  wrap_signed (dtype_bits d) (s + 1).

(** [range(n)]. *)
Definition range (n : Z) : list Z := seqZ 0 n.

(** [ceil(a / b)] on integers, [b <> 0]. *)
Definition ceil_div (a b : Z) : Z := - ((- a) / b).

(** [np.arange(start, stop, step)] on integers. *)
Definition arange (start stop step : Z) : exn + list Z :=
  if (step =? 0)%Z then inl (ZeroDivisionError "division by zero")
  else
    let len := Z.max 0 (ceil_div (stop - start) step) in
    inr ((fun j => start + j * step)%Z <$> seqZ 0 len).

(** [i in a] for an integer array [a]. *)
Definition contains (a : list Z) (i : Z) : bool :=
  existsb (Z.eqb i) a.

(** [t[k]] on a shape tuple. *)
Definition shape_at (s : list nat) (k : nat) : exn + nat :=
  match s !! k with
  | Some n => inr n
  | None => inl (IndexError "tuple index out of range")
  end.

(** [np.expand_dims(a, 1)] applied when [a.ndim == 1]. *)
Definition expand_if_1d (s : list nat) : list nat :=
  match s with
  | [n] => [n; 1%nat]
  | _ => s
  end.

(** [np.max] of the elements of an integer array. *)
Definition np_max (data : list Z) : exn + Z :=
  match data with
  | [] => inl (ValueError
            "zero-size array to reduction operation maximum which has no identity")
  | x :: rest => inr (foldr Z.max x rest)
  end.

End Py.
Export Py.

(** ** Arguments of [sample] *)

(** A covariate argument: a pandas data frame, a NumPy array of some shape,
    or any other Python object.  [xdata] stands for the cell contents, which
    only the preprocessor reads. *)
Inductive covariates (xdata : Type) : Type :=
| XFrame (nrows ncols : nat) (cells : xdata)
| XArray (shape : list nat) (cells : xdata)
| XOther.
Arguments XFrame {xdata}.
Arguments XArray {xdata}.
Arguments XOther {xdata}.

(** The outcome argument: a NumPy array with its element type, shape and
    (for the integer types) elements in row-major order, or any other
    object. *)
Inductive outcome : Type :=
| YArray (dt : dtype) (shape : list nat) (data : list Z)
| YOther.

Definition cov_shape {xdata} (x : covariates xdata) : list nat :=
  match x with
  | XFrame r c _ => [r; c]
  | XArray s _ => expand_if_1d s
  | XOther => []
  end.

(** ** The collaborators *)

(** The auxiliary data store of a [Dataset]: series 0 holds the latent
    variables, series 1 the forest predictions, series 2 the log-scale
    cutpoints, series 3 the cumulative exponentiated cutpoints. *)
Abbreviation aux val := (list (list val)).

Inductive which_data : Type := TrainSet | TestSet.

(** What the modules imported by the driver provide ([.preprocessing],
    [.data], [.forest], [.sampler], [stochtree_cpp]).  [val] is float64.

    The operations are functions: what makes a collaborator raise (a
    configuration it rejects, a degenerate draw, covariates it cannot
    transform) is not modelled.  Statements about a call that returns are
    therefore made under the hypothesis that it returns, and statements
    about a call that raises are about the exceptions of the driver's own
    checks. *)
Record Backend (val : Type) : Type := {
  xdata : Type;
  preprocessor : Type;         (* a fitted CovariatePreprocessor *)
  processed : Type;            (* a transformed covariate table *)
  forest_container : Type;     (* ForestContainer: the retained forests *)
  sampler : Type;              (* active forest, tracker, Residual, C++ RNG *)
  zero : val;                  (* 0.0 *)
  recip : nat -> val;          (* 1.0 / p *)
  is_negative : val -> bool;   (* v < 0 *)
  fit : covariates xdata -> preprocessor;
  transform : preprocessor -> covariates xdata -> processed;
  nrows_of : processed -> nat;
  ncols_of : processed -> nat;
  adjust_weights : preprocessor -> list val -> list val;
  new_container : Z -> forest_container;
  new_sampler : processed -> option processed -> list Z -> Z -> list val ->
                option Z -> sampler;
  sample_one_iteration : forest_container -> sampler -> aux val ->
                         bool -> bool -> Z -> forest_container * sampler;
  forest_predict : sampler -> which_data -> nat -> val;
  container_predict : forest_container -> processed -> list (list val);
  latent_step : aux val -> sampler -> (nat -> val) * sampler;
  gamma_step : val -> val -> val -> aux val -> sampler ->
               (nat -> val) * sampler;
  cum_exp_sum : aux val -> nat -> val;
}.

Arguments xdata {val}.
Arguments preprocessor {val}.
Arguments processed {val}.
Arguments forest_container {val}.
Arguments sampler {val}.
Arguments zero {val}.
Arguments recip {val}.
Arguments is_negative {val}.
Arguments fit {val}.
Arguments transform {val}.
Arguments nrows_of {val}.
Arguments ncols_of {val}.
Arguments adjust_weights {val}.
Arguments new_container {val}.
Arguments new_sampler {val}.
Arguments sample_one_iteration {val}.
Arguments forest_predict {val}.
Arguments container_predict {val}.
Arguments latent_step {val}.
Arguments gamma_step {val}.
Arguments cum_exp_sum {val}.

(** ** The model object and the ghost trace *)

(** A sample container created by [np.empty((nrows, n_keep))]: one entry
    per column, [None] while the column has not been assigned. *)
Record matrix (val : Type) : Type := Matrix {
  nrows : Z;
  columns : list (option (list val));
}.
Arguments Matrix {val}.
Arguments nrows {val}.
Arguments columns {val}.

Definition np_empty {val} (rows : Z) (ncols : nat) : matrix val :=
  Matrix rows (replicate ncols None).

(** [m[:, j] = v]; a negative [j] counts from the last column. *)
Definition assign_column {val} (m : matrix val) (j : Z) (v : list val)
  : exn + matrix val :=
  let n := Z.of_nat (length (columns m)) in
  if ((0 <=? j) && (j <? n))%Z then
    inr (Matrix (nrows m) (<[Z.to_nat j := Some v]> (columns m)))
  else if ((- n <=? j) && (j <? 0))%Z then
    inr (Matrix (nrows m) (<[Z.to_nat (n + j) := Some v]> (columns m)))
  else inl (IndexError "index is out of bounds for axis 1").

(** The four sample containers (lines 194-198). *)
Record Draws (val : Type) : Type := mkDraws {
  forest_pred_train : matrix val;
  forest_pred_test : option (matrix val);
  gamma_samples : matrix val;
  latent_samples : matrix val;
}.
Arguments mkDraws {val}.
Arguments forest_pred_train {val}.
Arguments forest_pred_test {val}.
Arguments gamma_samples {val}.
Arguments latent_samples {val}.

(** The data dimensions unpacked at lines 159-164. *)
Record Dims : Type := mkDims {
  has_test : bool;
  n_train : nat;
  n_test : nat;
  num_covariates : nat;
}.

Inductive container_id : Type :=
| ForestPredTrain | ForestPredTest | GammaSamples | LatentSamples.

(** Calls the driver makes on its collaborators and assignments to the
    sample containers, in program order.  [EPredict] carries the array the
    forest returned and [EUpdateLatentVariables] the forest-prediction
    series the store held when the C++ step was entered. *)
Inductive event (val : Type) : Type :=
| EAddAuxiliaryDimension (size : Z)
| ESetAuxiliaryDataValue (dim : nat) (idx : Z) (v : val)
| EGetAuxiliaryDataArray (dim : nat)
| ESampleOneIteration (keep_forest gfr : bool) (num_threads : Z)
| EPredict (d : which_data) (result : list val)
| EUpdateLatentVariables (lambda_hat : option (list val))
| EUpdateGammaParams
| EUpdateCumulativeExpSums
| EColumnAssign (c : container_id) (col : Z).
Arguments EAddAuxiliaryDimension {val}.
Arguments ESetAuxiliaryDataValue {val}.
Arguments EGetAuxiliaryDataArray {val}.
Arguments ESampleOneIteration {val}.
Arguments EPredict {val}.
Arguments EUpdateLatentVariables {val}.
Arguments EUpdateGammaParams {val}.
Arguments EUpdateCumulativeExpSums {val}.
Arguments EColumnAssign {val}.

(** ** The driver *)

Section Driver.
Context {val : Type} (B : Backend val).

(** Keyword arguments of [sample] ([feature_types] is overwritten at
    line 141 before it is read and is left out). *)
Record sample_args : Type := mkArgs {
  X_train : covariates (xdata B);
  y_train : outcome;
  X_test : option (covariates (xdata B));
  n_trees : Z;
  num_gfr : Z;
  num_burnin : Z;
  num_mcmc : Z;
  n_thin : Z;
  alpha_gamma : val;
  beta_gamma : val;
  variable_weights : option (list val);
  seed : option Z;
  num_threads : Z;
}.

(** Attributes of a [CloglogOrdinalBARTModel]; [None] is an attribute
    that has not been assigned yet. *)
Record Model : Type := mkModel {
  sampled : bool;
  _covariate_preprocessor : option (preprocessor B);
  dims : option Dims;
  n_levels : option Z;
  counts : option (Z * Z * Z);      (* num_gfr, num_burnin, num_mcmc *)
  draws : option (Draws val);
  rng : option (option Z);
  forest_samples : option (forest_container B);
}.

(** [__init__]. *)
Definition new_model : Model :=
  mkModel false None None None None None None None.

Definition set_sampled (b : bool) (m : Model) : Model :=
  mkModel b (_covariate_preprocessor m) (dims m) (n_levels m) (counts m)
          (draws m) (rng m) (forest_samples m).
Definition set_preprocessor (p : preprocessor B) (m : Model) : Model :=
  mkModel (sampled m) (Some p) (dims m) (n_levels m) (counts m)
          (draws m) (rng m) (forest_samples m).
Definition set_dims (d : Dims) (m : Model) : Model :=
  mkModel (sampled m) (_covariate_preprocessor m) (Some d) (n_levels m)
          (counts m) (draws m) (rng m) (forest_samples m).
Definition set_n_levels (k : Z) (m : Model) : Model :=
  mkModel (sampled m) (_covariate_preprocessor m) (dims m) (Some k)
          (counts m) (draws m) (rng m) (forest_samples m).
Definition set_counts (c : Z * Z * Z) (m : Model) : Model :=
  mkModel (sampled m) (_covariate_preprocessor m) (dims m) (n_levels m)
          (Some c) (draws m) (rng m) (forest_samples m).
Definition set_draws (d : Draws val) (m : Model) : Model :=
  mkModel (sampled m) (_covariate_preprocessor m) (dims m) (n_levels m)
          (counts m) (Some d) (rng m) (forest_samples m).
Definition set_rng (r : option Z) (m : Model) : Model :=
  mkModel (sampled m) (_covariate_preprocessor m) (dims m) (n_levels m)
          (counts m) (draws m) (Some r) (forest_samples m).
Definition set_forest_samples (f : forest_container B) (m : Model) : Model :=
  mkModel (sampled m) (_covariate_preprocessor m) (dims m) (n_levels m)
          (counts m) (draws m) (rng m) (Some f).

(** The model object together with the trace of calls made so far. *)
Record world : Type := mkWorld {
  self : Model;
  trace : list (event val);
}.

(** Computations that mutate the world and may raise: the world survives
    an exception, as the attributes of [self] do in Python. *)
Definition M (A : Type) : Type := world -> world * (exn + A).

Definition ret {A} (x : A) : M A := fun w => (w, inr x).

Definition bind {A C} (m : M A) (k : A -> M C) : M C :=
  fun w => match m w with
           | (w', inr x) => k x w'
           | (w', inl e) => (w', inl e)
           end.

Definition raise {A} (e : exn) : M A := fun w => (w, inl e).

Definition lift {A} (r : exn + A) : M A := fun w => (w, r).

Definition emit (e : event val) : M unit :=
  fun w => (mkWorld (self w) (trace w ++ [e]), inr tt).

Definition update_self (f : Model -> Model) : M unit :=
  fun w => (mkWorld (f (self w)) (trace w), inr tt).

Definition get_self : M Model := fun w => (w, inr (self w)).

Definition when (b : bool) (e : exn) : M unit :=
  if b then raise e else ret tt.

Fixpoint for_each {A S} (l : list A) (body : A -> S -> M S) (s : S) : M S :=
  match l with
  | [] => ret s
  | x :: l' => bind (body x s) (for_each l' body)
  end.

End Driver.

Arguments ret {val B A}.
Arguments bind {val B A C}.
Arguments raise {val B A}.
Arguments lift {val B A}.
Arguments for_each {val B A S}.
Arguments emit {val B}.
Arguments update_self {val B}.
Arguments get_self {val B}.
Arguments when {val B}.
Arguments mkArgs {val B}.
Arguments X_train {val B}.
Arguments y_train {val B}.
Arguments X_test {val B}.
Arguments n_trees {val B}.
Arguments num_gfr {val B}.
Arguments num_burnin {val B}.
Arguments num_mcmc {val B}.
Arguments n_thin {val B}.
Arguments alpha_gamma {val B}.
Arguments beta_gamma {val B}.
Arguments variable_weights {val B}.
Arguments seed {val B}.
Arguments num_threads {val B}.
Arguments mkModel {val B}.
Arguments mkWorld {val B}.
Arguments new_model {val B}.
Arguments set_sampled {val B}.
Arguments set_preprocessor {val B}.
Arguments set_dims {val B}.
Arguments set_n_levels {val B}.
Arguments set_counts {val B}.
Arguments set_draws {val B}.
Arguments set_rng {val B}.
Arguments set_forest_samples {val B}.

Declare Scope py_scope.
Delimit Scope py_scope with py.
Notation "x <- c1 ;; c2" := (bind c1 (fun x => c2))
  (at level 100, c1 at next level, right associativity) : py_scope.
Notation "c1 ;; c2" := (bind c1 (fun _ => c2))
  (at level 100, right associativity) : py_scope.

Arguments sampled {val B}.
Arguments _covariate_preprocessor {val B}.
Arguments dims {val B}.
Arguments n_levels {val B}.
Arguments counts {val B}.
Arguments draws {val B}.
Arguments rng {val B}.
Arguments forest_samples {val B}.
Arguments self {val B}.
Arguments trace {val B}.

(** The exception raised by the category check of line 171. *)
Definition too_few_categories : exn :=
  ValueError "y_train must have at least 2 outcome categories".

Section Sample.
Context {val : Type} (B : Backend val).
Local Open Scope py_scope.

Abbreviation M := (M B).
Abbreviation sample_args := (sample_args B).

(** What the set-up part of [sample] (lines 88-198) hands to the rest. *)
Record Setup : Type := mkSetup {
  s_n_train : nat;
  s_n_test : nat;
  s_n_levels : Z;
  s_keep_idx : list Z;
  s_train : processed B;
  s_test : option (processed B);
  s_weights : list val;
  s_y : list Z;
  s_draws : Draws val;
}.

(** Lines 166-171: the number of outcome categories and the check that
    there are at least two. *)
Definition determine_n_levels (dt : dtype) (ydata : list Z) : M Z :=
  m <- lift (np_max ydata) ;;
  let K := scalar_succ dt m in
  update_self (set_n_levels K) ;;
  when (K <? 2)%Z too_few_categories ;;
  ret K.

(** Lines 88-198: input checks, preprocessing, data dimensions, number of
    outcome categories, retention schedule, sample containers. *)
Definition setup (a : sample_args) : M Setup :=
  (* Check data inputs *)
  match X_train a with
  | XOther => raise (ValueError "X_train must be a pandas dataframe or numpy array")
  | _ => ret tt
  end ;;
  match X_test a with
  | Some XOther => raise (ValueError "X_test must be a pandas dataframe or numpy array")
  | _ => ret tt
  end ;;
  match y_train a with
  | YOther => raise (ValueError "y_train must be a numpy array")
  | YArray dt yshape0 ydata =>
    when (negb (is_int_dtype dt))
         (ValueError "y_train must be an integer-valued numpy array") ;;
    when (existsb (fun v => v <? 0)%Z ydata)
         (ValueError "y_train must be non-negative integer-valued") ;;
    (* Convert everything to standard shape (2-dimensional) *)
    let xshape := cov_shape (X_train a) in
    let yshape := expand_if_1d yshape0 in
    (* Data checks *)
    match X_test a with
    | Some xt =>
        ct <- lift (shape_at (cov_shape xt) 1) ;;
        c <- lift (shape_at xshape 1) ;;
        when (negb (ct =? c)%nat)
             (ValueError "X_train and X_test must have the same number of columns")
    | None => ret tt
    end ;;
    ny <- lift (shape_at yshape 0) ;;
    nx <- lift (shape_at xshape 0) ;;
    when (negb (ny =? nx)%nat)
         (ValueError "X_train and y_train must have the same number of rows") ;;
    (* Variable weight preprocessing *)
    p <- lift (shape_at xshape 1) ;;
    w <- match variable_weights a with
         | None =>
             if (1 <? length xshape)%nat then
               if (p =? 0)%nat
               then raise (ZeroDivisionError "float division by zero")
               else ret (replicate p (recip B p))
             else ret (replicate 1 (recip B 1))
         | Some w => ret w
         end ;;
    when (existsb (is_negative B) w)
         (ValueError "variable_weights cannot have any negative weights") ;;
    (* Covariate preprocessing *)
    let pp := fit B (X_train a) in
    update_self (set_preprocessor pp) ;;
    let xtr := transform B pp (X_train a) in
    let xte := transform B pp <$> X_test a in
    let w := if negb (ncols_of B xtr =? p)%nat
             then adjust_weights B pp w else w in
    (* Determine whether a test set is provided; unpack data dimensions *)
    let ht := match X_test a with Some _ => true | None => false end in
    let nt := match xte with Some t => nrows_of B t | None => 0%nat end in
    update_self (set_dims (mkDims ht ny nt (ncols_of B xtr))) ;;
    K <- determine_n_levels dt ydata ;;
    (* Indices of MCMC samples to keep after GFR, burn-in, and thinning *)
    keep_idx <- lift (arange (num_gfr a + num_burnin a)
                             (num_gfr a + num_burnin a + num_mcmc a)
                             (n_thin a)) ;;
    let n_keep := length keep_idx in
    (* Container of parameter samples / model draws *)
    update_self (set_counts (num_gfr a, num_burnin a, num_mcmc a)) ;;
    let d := mkDraws (np_empty (Z.of_nat ny) n_keep)
                     (if ht then Some (np_empty (Z.of_nat nt) n_keep) else None)
                     (np_empty (K - 1) n_keep)
                     (np_empty (Z.of_nat ny) n_keep) in
    update_self (set_draws d) ;;
    ret (mkSetup ny nt K keep_idx xtr xte w ydata d)
  end.

(** *** The auxiliary data store *)

(** Modelled from the spec: [Dataset.set_auxiliary_data_value] (module
    [.data], a wrapper of the C++ [ForestDataset]) is not among the
    sources.  The store is a set of parallel arrays addressed by a series
    number and a slot index, and a write goes to one slot.  The
    specification gives no meaning to a write whose index lies outside the
    series, and the C++ store does not check the index: such a write lands
    outside every series.  The model keeps the slots of all series as they
    are and shows the call in the trace; what the write does to the rest
    of the process is outside the model. *)
Definition write_aux (dim : nat) (idx : Z) (v : val) (a : aux val) : aux val :=
  match a !! dim with
  | Some s =>
      if ((0 <=? idx) && (idx <? Z.of_nat (length s)))%Z
      then <[dim := <[Z.to_nat idx := v]> s]> a
      else a
  | None => a
  end.

(** The array held by series [dim] (empty when there is none). *)
Definition series (dim : nat) (a : aux val) : list val :=
  default [] (a !! dim).

(** Modelled from the spec: [Dataset.add_auxiliary_dimension] appends a
    series of the given size, every slot of which holds 0 (the store
    zero-initialises its slots). *)
Definition add_auxiliary_dimension (size : Z) (a : aux val) : M (aux val) :=
  emit (EAddAuxiliaryDimension size) ;;
  ret (a ++ [replicate (Z.to_nat size) (zero B)]).

(** The call as the driver makes it: logged, then performed. *)
Definition set_auxiliary_data_value (dim : nat) (idx : Z) (v : val)
           (a : aux val) : M (aux val) :=
  emit (ESetAuxiliaryDataValue dim idx v) ;;
  ret (write_aux dim idx v a).

(** Modelled from the spec: [Dataset.get_auxiliary_data_array] returns
    the whole series. *)
Definition get_auxiliary_data_array (dim : nat) (a : aux val) : M (list val) :=
  emit (EGetAuxiliaryDataArray dim) ;;
  ret (series dim a).

(** *** The ordinal augmentation sampler *)

(** Modelled from the spec: [OrdinalSamplerCpp] (extension module
    [stochtree_cpp]) is not among the sources.  Each of its three steps
    rewrites one series of the store in place, slot by slot: the latent
    update series 0, the cutpoint update series 2, the cumulative refresh
    series 3.  The values written come from the backend. *)
Definition rewrite_series (dim : nat) (f : nat -> val) (a : aux val) : aux val :=
  match a !! dim with
  | Some s => <[dim := f <$> seq 0 (length s)]> a
  | None => a
  end.

(** Modelled from the spec: the latent update reads the forest
    predictions of series 1 (logged with the call) and rewrites series 0. *)
Definition UpdateLatentVariables (a : aux val) (smp : sampler B)
  : M (aux val * sampler B) :=
  emit (EUpdateLatentVariables (a !! 1%nat)) ;;
  let r := latent_step B a smp in
  ret (rewrite_series 0 r.1 a, r.2).

(** Modelled from the spec: the cutpoint update rewrites series 2. *)
Definition UpdateGammaParams (alpha beta gamma_0 : val) (a : aux val)
           (smp : sampler B) : M (aux val * sampler B) :=
  emit EUpdateGammaParams ;;
  let r := gamma_step B alpha beta gamma_0 a smp in
  ret (rewrite_series 2 r.1 a, r.2).

(** Modelled from the spec: the cumulative refresh rewrites series 3. *)
Definition UpdateCumulativeExpSums (a : aux val) : M (aux val) :=
  emit EUpdateCumulativeExpSums ;;
  ret (rewrite_series 3 (cum_exp_sum B a) a).

(** [active_forest.predict(dataset)]: one prediction per row. *)
Definition predict_rows (smp : sampler B) (d : which_data) (n : nat) : list val :=
  forest_predict B smp d <$> seq 0 n.

(** *** Objects local to one call of [sample] *)

Record locals : Type := mkLocals {
  l_aux : aux val;                    (* forest_dataset_train's store *)
  l_smp : sampler B;                  (* active_forest, forest_sampler, cpp_rng *)
  l_fc : forest_container B;          (* the object self.forest_samples names *)
  l_draws : Draws val;                (* the arrays the containers name *)
  sample_counter : Z;
}.

(** Lines 200-267: samplers, data structures, the four auxiliary series
    and their initial values.  The constructors of lines 200-237 are one
    backend function, [new_sampler], which returns: a configuration that
    [ForestModelConfig] or [ForestSampler] rejects is not modelled. *)
Definition init_samplers (a : sample_args) (s : Setup) : M locals :=
  update_self (set_rng (seed a)) ;;
  let smp := new_sampler B (s_train s) (s_test s) (s_y s) (n_trees a)
                         (s_weights s) (seed a) in
  let fc := new_container B (n_trees a) in
  update_self (set_forest_samples fc) ;;
  d <- add_auxiliary_dimension (Z.of_nat (s_n_train s)) [] ;;
  d <- add_auxiliary_dimension (Z.of_nat (s_n_train s)) d ;;
  d <- add_auxiliary_dimension (s_n_levels s - 1) d ;;
  d <- add_auxiliary_dimension (s_n_levels s) d ;;
  (* Initialize gamma parameters to zero *)
  d <- for_each (range (s_n_levels s - 1))
         (fun i d => set_auxiliary_data_value 2 (i - 1) (zero B) d) d ;;
  d <- UpdateCumulativeExpSums d ;;
  (* Initialize forest predictions to zero (slot 1) *)
  d <- for_each (range (Z.of_nat (s_n_train s)))
         (fun i d => set_auxiliary_data_value 1 i (zero B) d) d ;;
  (* Initialize latent variables to zero (slot 0) *)
  d <- for_each (range (Z.of_nat (s_n_train s)))
         (fun i d => set_auxiliary_data_value 0 i (zero B) d) d ;;
  ret (mkLocals d smp fc (s_draws s) (-1)).

(** [container[:, col] = v] on one of the arrays named by [self]. *)
Definition store_column (c : container_id) (col : Z) (v : list val)
           (d : Draws val) : M (Draws val) :=
  emit (EColumnAssign c col) ;;
  d' <- match c with
        | ForestPredTrain =>
            m <- lift (assign_column (forest_pred_train d) col v) ;;
            ret (mkDraws m (forest_pred_test d) (gamma_samples d) (latent_samples d))
        | ForestPredTest =>
            match forest_pred_test d with
            | Some t =>
                m <- lift (assign_column t col v) ;;
                ret (mkDraws (forest_pred_train d) (Some m) (gamma_samples d)
                             (latent_samples d))
            | None => raise (AttributeError "forest_pred_test")
            end
        | GammaSamples =>
            m <- lift (assign_column (gamma_samples d) col v) ;;
            ret (mkDraws (forest_pred_train d) (forest_pred_test d) m (latent_samples d))
        | LatentSamples =>
            m <- lift (assign_column (latent_samples d) col v) ;;
            ret (mkDraws (forest_pred_train d) (forest_pred_test d) (gamma_samples d) m)
        end ;;
  update_self (set_draws d') ;;
  ret d'.

(** Lines 334-345: copy the current state into column [col]. *)
Definition retain (s : Setup) (col : Z) (a : aux val) (smp : sampler B)
           (d : Draws val) : M (Draws val) :=
  let p := predict_rows smp TrainSet (s_n_train s) in
  emit (EPredict TrainSet p) ;;
  d <- store_column ForestPredTrain col p d ;;
  d <- match s_test s with
       | Some _ =>
           let q := predict_rows smp TestSet (s_n_test s) in
           emit (EPredict TestSet q) ;;
           store_column ForestPredTest col q d
       | None => ret d
       end ;;
  gamma_current <- get_auxiliary_data_array 2 a ;;
  d <- store_column GammaSamples col gamma_current d ;;
  latent_current <- get_auxiliary_data_array 0 a ;;
  store_column LatentSamples col latent_current d.

(** Lines 272-345: the body of the main loop for iteration [i].  The
    calls on the forest sampler and on the ordinal sampler return; the
    only exception the body can raise in the model is that of a column
    assignment. *)
Definition iteration (a : sample_args) (s : Setup) (i : Z) (l : locals)
  : M locals :=
  let keep_sample := contains (s_keep_idx s) i in
  let counter := if keep_sample then (sample_counter l + 1)%Z
                 else sample_counter l in
  (* 1. Sample forest using MCMC *)
  let flag := if (i >? num_gfr a - 1)%Z then true else false in
  emit (ESampleOneIteration keep_sample flag (num_threads a)) ;;
  let updated := sample_one_iteration B (l_fc l) (l_smp l) (l_aux l)
                   keep_sample flag (num_threads a) in
  let fc := updated.1 in
  let smp := updated.2 in
  update_self (set_forest_samples fc) ;;
  (* Set auxiliary data slot 1 to current forest predictions *)
  let forest_pred_current := predict_rows smp TrainSet (s_n_train s) in
  emit (EPredict TrainSet forest_pred_current) ;;
  d <- for_each (range (Z.of_nat (s_n_train s)))
         (fun j d => set_auxiliary_data_value 1 j
                       (forest_predict B smp TrainSet (Z.to_nat j)) d)
         (l_aux l) ;;
  (* 2. Sample latent z_i's using truncated exponential *)
  r <- UpdateLatentVariables d smp ;;
  (* 3. Sample gamma cutpoints *)
  r <- UpdateGammaParams (alpha_gamma a) (beta_gamma a) (zero B) (fst r) (snd r) ;;
  (* 4. Update cumulative sum of exp(gamma) values *)
  d <- UpdateCumulativeExpSums (fst r) ;;
  dr <- (if keep_sample then retain s counter d (snd r) (l_draws l)
         else ret (l_draws l)) ;;
  ret (mkLocals d (snd r) fc dr counter).

(** Lines 269-345. *)
Definition main_loop (a : sample_args) (s : Setup) (l : locals) : M locals :=
  for_each (range (num_gfr a + num_burnin a + num_mcmc a)) (iteration a s) l.

(** [CloglogOrdinalBARTModel.sample]. *)
Definition sample (a : sample_args) : M unit :=
  s <- setup a ;;
  l <- init_samplers a s ;;
  main_loop a s l ;;
  (* Mark the model as sampled *)
  update_self (set_sampled true).

(** [CloglogOrdinalBARTModel.is_sampled]. *)
Definition is_sampled : M bool :=
  m <- get_self ;; ret (sampled m).

(** [CloglogOrdinalBARTModel.predict].  The preprocessor of a sampled
    model has been fitted by [sample], so the branch for an unfitted
    preprocessor (lines 383-399) is left out; [transform] returns, so the
    covariates it would reject are not told apart. *)
Definition predict (X : covariates (xdata B)) : M (list (list val)) :=
  fitted <- is_sampled ;;
  when (negb fitted)
       (NotSampledError "This CloglogOrdinalBARTModel instance is not fitted yet. Call 'fit' with appropriate arguments before using this model.") ;;
  match X with
  | XOther => raise (ValueError "X must be a pandas dataframe or numpy array")
  | _ =>
      m <- get_self ;;
      match _covariate_preprocessor m, forest_samples m with
      | Some pp, Some fc => ret (container_predict B fc (transform B pp X))
      | None, _ => raise (AttributeError "_covariate_preprocessor")
      | _, None => raise (AttributeError "forest_samples")
      end
  end.

End Sample.

Arguments mkSetup {val B}.
Arguments s_n_train {val B}.
Arguments s_n_test {val B}.
Arguments s_n_levels {val B}.
Arguments s_keep_idx {val B}.
Arguments s_train {val B}.
Arguments s_test {val B}.
Arguments s_weights {val B}.
Arguments s_y {val B}.
Arguments s_draws {val B}.
Arguments mkLocals {val B}.
Arguments l_aux {val B}.
Arguments l_smp {val B}.
Arguments l_fc {val B}.
Arguments l_draws {val B}.
Arguments sample_counter {val B}.

(** ** A small executable backend

    Integers stand for float64.  The forest is a counter of the updates made
    so far, the retained forests are the list of counters kept, and a fresh
    auxiliary series holds 0, as the store's slots do when they are added. *)
Definition toy_shape (x : covariates unit) : nat * nat :=
  (default 0%nat (cov_shape x !! 0%nat), default 0%nat (cov_shape x !! 1%nat)).

Definition toy : Backend Z := {|
  xdata := unit;
  preprocessor := unit;
  processed := nat * nat;
  forest_container := list Z;
  sampler := Z;
  zero := 0%Z;
  recip := fun _ => 1%Z;
  is_negative := fun v => (v <? 0)%Z;
  fit := fun _ => tt;
  transform := fun _ x => toy_shape x;
  nrows_of := fst;
  ncols_of := snd;
  adjust_weights := fun _ w => w;
  new_container := fun _ => [];
  new_sampler := fun _ _ _ _ _ _ => 0%Z;
  sample_one_iteration := fun fc s _ keep _ _ =>
                            (if keep then fc ++ [(s + 1)%Z] else fc, (s + 1)%Z);
  forest_predict := fun s _ i => (10 * s + Z.of_nat i)%Z;
  container_predict := fun fc t => (fun s => replicate (fst t) s) <$> fc;
  latent_step := fun a s => (fun i => (100 * s + Z.of_nat i + 1)%Z, s);
  gamma_step := fun _ _ _ a s => (fun i => (1000 * s + Z.of_nat i)%Z, s);
  cum_exp_sum := fun a i => Z.of_nat i;
|}.

(** A call in the style of the three-category demo script, scaled down:
    four observations, two covariates, outcomes in [{0, 1, 2}]. *)
Definition demo_args (g b m thin : Z) : sample_args toy :=
  @mkArgs Z toy (XArray [4; 2]%nat tt) (YArray np_int64 [4%nat] [0; 2; 1; 2]%Z)
         (Some (XArray [3; 2]%nat tt)) 50%Z g b m thin 2%Z 2%Z None (Some 2025%Z) 1%Z.

Definition fresh : world toy := mkWorld new_model [].

(** ** Statements about driver computations *)

(** [wp m Q w]: running [m] from [w] ends in a world and an outcome
    (raised exception or returned value) that satisfy [Q]. *)
Definition wp {val} {B : Backend val} {A} (m : M B A)
           (Q : world B -> exn + A -> Prop) (w : world B) : Prop :=
  Q (m w).1 (m w).2.

Section Statements.
Context {val : Type} {B : Backend val}.

(** The part of the model object that holds sampling results: the
    [sampled] flag, the iteration counts, the sample containers, the
    generator and the retained forests. *)
Definition sampling_state (m : Model B) :=
  (sampled m, counts m, draws m, rng m, forest_samples m).

(** The attributes the main loop leaves alone. *)
Definition fixed_attrs (m : Model B) :=
  (sampled m, rng m, counts m, n_levels m, dims m, _covariate_preprocessor m).


(** The covariate arguments are two-dimensional tables with at least one
    column, the outcome array has at least one axis and the thinning
    interval is not zero, so that no shape look-up and no division in the
    set-up can fail. *)
Definition tabular (a : sample_args B) : Prop :=
  (exists r c, cov_shape (X_train a) = [r; S c]) /\
  (forall xt, X_test a = Some xt -> xt = XOther \/ exists r c, cov_shape xt = [r; c]) /\
  (forall dt s d, y_train a = YArray dt s d -> s <> []) /\
  n_thin a <> 0%Z.

(** What a normal return of the set-up tells about the arguments, the
    values handed on and the model object. *)
Definition setup_ok (a : sample_args B) (w w' : world B) (s : Setup B) : Prop :=
  exists dt sh d m,
    y_train a = YArray dt sh d /\ is_int_dtype dt = true /\
    Forall (fun v => 0 <= v)%Z d /\
    np_max d = inr m /\ s_n_levels s = scalar_succ dt m /\
    (2 <= s_n_levels s)%Z /\ s_y s = d /\
    expand_if_1d sh !! 0%nat = Some (s_n_train s) /\
    cov_shape (X_train a) !! 0%nat = Some (s_n_train s) /\
    (forall xt, X_test a = Some xt ->
                cov_shape xt !! 1%nat = cov_shape (X_train a) !! 1%nat /\
                is_Some (cov_shape xt !! 1%nat)) /\
    arange (num_gfr a + num_burnin a)
           (num_gfr a + num_burnin a + num_mcmc a) (n_thin a)
      = inr (s_keep_idx s) /\
    (is_Some (s_test s) <-> is_Some (X_test a)) /\
    s_draws s =
      mkDraws (np_empty (Z.of_nat (s_n_train s)) (length (s_keep_idx s)))
              (match X_test a with
               | Some _ => Some (np_empty (Z.of_nat (s_n_test s)) (length (s_keep_idx s)))
               | None => None
               end)
              (np_empty (s_n_levels s - 1) (length (s_keep_idx s)))
              (np_empty (Z.of_nat (s_n_train s)) (length (s_keep_idx s))) /\
    trace w' = trace w /\
    sampled (self w') = sampled (self w) /\
    rng (self w') = rng (self w) /\
    forest_samples (self w') = forest_samples (self w) /\
    n_levels (self w') = Some (s_n_levels s) /\
    counts (self w') = Some (num_gfr a, num_burnin a, num_mcmc a) /\
    draws (self w') = Some (s_draws s).

(** Method calls on a model object. *)
Inductive call : Type :=
| CallSample (a : sample_args B)
| CallPredict (X : covariates (xdata B)).

Definition returned {A} (r : exn + A) : bool :=
  match r with inr _ => true | inl _ => false end.

(** Run one call; the flag tells whether it was a [sample] call that
    returned normally. *)
Definition run_call (c : call) (w : world B) : world B * bool :=
  match c with
  | CallSample a => ((sample B a w).1, returned (sample B a w).2)
  | CallPredict X => ((predict B X w).1, false)
  end.

(** Run a history of calls; the flag tells whether some [sample] call in
    it returned normally. *)
Fixpoint run_calls (cs : list call) (w : world B) : world B * bool :=
  match cs with
  | [] => (w, false)
  | c :: cs' =>
      let '(w1, done1) := run_call c w in
      let '(w2, done2) := run_calls cs' w1 in
      (w2, done1 || done2)
  end.

End Statements.

(** ** The store and the trace of a run, step by step

    The driver never reads the world it writes to (only [predict] does),
    so what each step leaves in the store and appends to the trace can be
    written down as functions of the step's inputs. *)

Section Steps.
Context {val : Type} (B : Backend val).

(** The store after the writes [dim[f i] = g i] for [i] in [l]. *)
Definition write_all (dim : nat) (f : Z -> Z) (g : Z -> val) (l : list Z)
           (d : aux val) : aux val :=
  foldl (fun d i => write_aux dim (f i) (g i) d) d l.

Definition set_events (dim : nat) (f : Z -> Z) (g : Z -> val) (l : list Z)
  : list (event val) :=
  (fun i => ESetAuxiliaryDataValue dim (f i) (g i)) <$> l.

(** Lines 239-267. *)
Definition init_events (s : Setup B) : list (event val) :=
  [EAddAuxiliaryDimension (Z.of_nat (s_n_train s));
   EAddAuxiliaryDimension (Z.of_nat (s_n_train s));
   EAddAuxiliaryDimension (s_n_levels s - 1);
   EAddAuxiliaryDimension (s_n_levels s)] ++
  set_events 2 (fun i => i - 1)%Z (fun _ => zero B) (range (s_n_levels s - 1)) ++
  [EUpdateCumulativeExpSums] ++
  set_events 1 (fun i => i) (fun _ => zero B) (range (Z.of_nat (s_n_train s))) ++
  set_events 0 (fun i => i) (fun _ => zero B) (range (Z.of_nat (s_n_train s))).

Definition fresh_aux (s : Setup B) : aux val :=
  [replicate (s_n_train s) (zero B);
   replicate (s_n_train s) (zero B);
   replicate (Z.to_nat (s_n_levels s - 1)) (zero B);
   replicate (Z.to_nat (s_n_levels s)) (zero B)].

Definition gamma_initialised (s : Setup B) : aux val :=
  write_all 2 (fun i => i - 1)%Z (fun _ => zero B) (range (s_n_levels s - 1))
            (fresh_aux s).

Definition init_aux (s : Setup B) : aux val :=
  let d1 := gamma_initialised s in
  let d2 := rewrite_series 3 (cum_exp_sum B d1) d1 in
  let d3 := write_all 1 (fun i => i) (fun _ => zero B)
                      (range (Z.of_nat (s_n_train s))) d2 in
  write_all 0 (fun i => i) (fun _ => zero B) (range (Z.of_nat (s_n_train s))) d3.

Definition init_locals (a : sample_args B) (s : Setup B) : locals B :=
  mkLocals (init_aux s)
           (new_sampler B (s_train s) (s_test s) (s_y s) (n_trees a)
                        (s_weights s) (seed a))
           (new_container B (n_trees a)) (s_draws s) (-1).

(** Whether iteration [i] is retained, and the flag it passes on. *)
Definition keep_sample (s : Setup B) (i : Z) : bool := contains (s_keep_idx s) i.

Definition gfr_flag (a : sample_args B) (i : Z) : bool :=
  if (i >? num_gfr a - 1)%Z then true else false.

(** Forest container and sampler after the forest update of iteration [i]. *)
Definition forest_update (a : sample_args B) (s : Setup B) (i : Z) (l : locals B)
  : forest_container B * sampler B :=
  sample_one_iteration B (l_fc l) (l_smp l) (l_aux l)
                       (keep_sample s i) (gfr_flag a i) (num_threads a).

(** The store once the forest predictions of [smp] are written to series 1. *)
Definition aux_with_pred (s : Setup B) (smp : sampler B) (d : aux val) : aux val :=
  write_all 1 (fun j => j) (fun j => forest_predict B smp TrainSet (Z.to_nat j))
            (range (Z.of_nat (s_n_train s))) d.

(** Store and sampler after latent update, cutpoint update and cumulative
    refresh. *)
Definition augment (a : sample_args B) (d : aux val) (smp : sampler B)
  : aux val * sampler B :=
  let r1 := latent_step B d smp in
  let d1 := rewrite_series 0 r1.1 d in
  let r2 := gamma_step B (alpha_gamma a) (beta_gamma a) (zero B) d1 r1.2 in
  let d2 := rewrite_series 2 r2.1 d1 in
  (rewrite_series 3 (cum_exp_sum B d2) d2, r2.2).

(** The sampler and the store at the end of iteration [i]. *)
Definition smp_after_forest a s i l : sampler B := (forest_update a s i l).2.
Definition aux_before_latent a s i l : aux val :=
  aux_with_pred s (smp_after_forest a s i l) (l_aux l).
Definition aux_after a s i l : aux val :=
  (augment a (aux_before_latent a s i l) (smp_after_forest a s i l)).1.
Definition smp_after a s i l : sampler B :=
  (augment a (aux_before_latent a s i l) (smp_after_forest a s i l)).2.

(** Calls of one iteration up to and including the cumulative refresh. *)
Definition update_events (a : sample_args B) (s : Setup B) (i : Z) (l : locals B)
  : list (event val) :=
  [ESampleOneIteration (keep_sample s i) (gfr_flag a i) (num_threads a);
   EPredict TrainSet (predict_rows B (smp_after_forest a s i l) TrainSet (s_n_train s))] ++
  set_events 1 (fun j => j)
    (fun j => forest_predict B (smp_after_forest a s i l) TrainSet (Z.to_nat j))
    (range (Z.of_nat (s_n_train s))) ++
  [EUpdateLatentVariables (aux_before_latent a s i l !! 1%nat);
   EUpdateGammaParams; EUpdateCumulativeExpSums].

(** Calls and assignments that copy the current state into column [col]. *)
Definition retain_events (s : Setup B) (col : Z) (smp : sampler B)
  : list (event val) :=
  [EPredict TrainSet (predict_rows B smp TrainSet (s_n_train s));
   EColumnAssign ForestPredTrain col] ++
  match s_test s with
  | Some _ => [EPredict TestSet (predict_rows B smp TestSet (s_n_test s));
               EColumnAssign ForestPredTest col]
  | None => []
  end ++
  [EGetAuxiliaryDataArray 2; EColumnAssign GammaSamples col;
   EGetAuxiliaryDataArray 0; EColumnAssign LatentSamples col].

(** [m[:, col] = v] for a column inside the array. *)
Definition store_pure (m : matrix val) (col : nat) (v : list val) : matrix val :=
  Matrix (nrows m) (<[col := Some v]> (columns m)).

(** The containers once the state given is copied into column [col]. *)
Definition retain_pure (s : Setup B) (col : nat) (d : aux val) (smp : sampler B)
           (dr : Draws val) : Draws val :=
  mkDraws
    (store_pure (forest_pred_train dr) col (predict_rows B smp TrainSet (s_n_train s)))
    (match s_test s with
     | Some _ =>
         (fun m => store_pure m col (predict_rows B smp TestSet (s_n_test s)))
           <$> forest_pred_test dr
     | None => forest_pred_test dr
     end)
    (store_pure (gamma_samples dr) col (series 2 d))
    (store_pure (latent_samples dr) col (series 0 d)).

(** Every sample container has one column per retained iteration. *)
Definition cols_ok (s : Setup B) (dr : Draws val) : Prop :=
  length (columns (forest_pred_train dr)) = length (s_keep_idx s) /\
  length (columns (gamma_samples dr)) = length (s_keep_idx s) /\
  length (columns (latent_samples dr)) = length (s_keep_idx s) /\
  match s_test s with
  | Some _ => exists m, forest_pred_test dr = Some m /\
                        length (columns m) = length (s_keep_idx s)
  | None => True
  end.

(** The local objects at the end of iteration [i], when it returns. *)
Definition next (a : sample_args B) (s : Setup B) (i : Z) (l : locals B) : locals B :=
  if keep_sample s i then
    mkLocals (aux_after a s i l) (smp_after a s i l) (forest_update a s i l).1
             (retain_pure s (Z.to_nat (sample_counter l + 1)) (aux_after a s i l)
                          (smp_after a s i l) (l_draws l))
             (sample_counter l + 1)
  else
    mkLocals (aux_after a s i l) (smp_after a s i l) (forest_update a s i l).1
             (l_draws l) (sample_counter l).

(** The calls and assignments of iteration [i]. *)
Definition iteration_events (a : sample_args B) (s : Setup B) (i : Z) (l : locals B)
  : list (event val) :=
  update_events a s i l ++
  (if keep_sample s i
   then retain_events s (sample_counter l + 1) (smp_after a s i l)
   else []).

(** The local objects after the iterations in [done], starting from [l]. *)
Definition locals_after (a : sample_args B) (s : Setup B) (done : list Z)
           (l : locals B) : locals B :=
  foldl (fun l j => next a s j l) l done.

(** The events of the iterations in [todo], starting from [l]. *)
Fixpoint loop_events (a : sample_args B) (s : Setup B) (todo : list Z)
         (l : locals B) : list (event val) :=
  match todo with
  | [] => []
  | i :: rest => iteration_events a s i l ++ loop_events a s rest (next a s i l)
  end.

End Steps.

(** ** Reading a trace *)

#[global] Instance container_id_eq_dec : EqDecision container_id.
Proof. solve_decision. Defined.

Section TraceViews.
Context {val : Type}.

(** The writes to series [dim]: slot index and value, in trace order. *)
Definition writes_to (dim : nat) (t : list (event val)) : list (Z * val) :=
  omap (fun e => match e with
                 | ESetAuxiliaryDataValue dm idx v =>
                     if decide (dm = dim) then Some (idx, v) else None
                 | _ => None
                 end) t.

(** The forest sampler invocations: the [keep_forest] argument, the ninth
    positional argument (declared as [gfr], grow-from-root, by
    [ForestSampler.sample_one_iteration]) and the thread count. *)
Definition forest_updates (t : list (event val)) : list (bool * bool * Z) :=
  omap (fun e => match e with
                 | ESampleOneIteration k g th => Some (k, g, th)
                 | _ => None
                 end) t.

(** The columns assigned in container [c], in trace order. *)
Definition column_writes (c : container_id) (t : list (event val)) : list Z :=
  omap (fun e => match e with
                 | EColumnAssign c' col => if decide (c' = c) then Some col else None
                 | _ => None
                 end) t.

End TraceViews.

(** ** What the sample containers hold *)

Section Snapshots.
Context {val : Type} (B : Backend val).

(** The local objects at the end of iteration [k] of a run. *)
Definition state_after (a : sample_args B) (s : Setup B) (k : Z) : locals B :=
  locals_after B a s (range (k + 1)) (init_locals B a s).

(** What a retained iteration copies into container [c]. *)
Definition snapshot (c : container_id) (s : Setup B) (l : locals B) : list val :=
  match c with
  | ForestPredTrain => predict_rows B (l_smp l) TrainSet (s_n_train s)
  | ForestPredTest => predict_rows B (l_smp l) TestSet (s_n_test s)
  | GammaSamples => series 2 (l_aux l)
  | LatentSamples => series 0 (l_aux l)
  end.

(** The columns of container [c], when the container exists. *)
Definition container (c : container_id) (dr : Draws val)
  : option (list (option (list val))) :=
  match c with
  | ForestPredTrain => Some (columns (forest_pred_train dr))
  | ForestPredTest => columns <$> forest_pred_test dr
  | GammaSamples => Some (columns (gamma_samples dr))
  | LatentSamples => Some (columns (latent_samples dr))
  end.

End Snapshots.

(** ** The shape of one iteration in the trace *)

Section Blocks.
Context {val : Type}.

(** Events of the set-up of the store: they come before the first
    iteration. *)
Definition setup_event (e : event val) : Prop :=
  match e with
  | EAddAuxiliaryDimension _ | ESetAuxiliaryDataValue _ _ _
  | EUpdateCumulativeExpSums => True
  | _ => False
  end.

(** Copying into the sample containers: forest predictions on the training
    set, on the test set when there is one, cutpoints, latent variables, all
    into the same column. *)
Definition copy_block (has_test : bool) (copy : list (event val)) : Prop :=
  exists col p q,
    copy = [EPredict TrainSet p; EColumnAssign ForestPredTrain col] ++
           (if has_test
            then [EPredict TestSet q; EColumnAssign ForestPredTest col]
            else []) ++
           [EGetAuxiliaryDataArray 2; EColumnAssign GammaSamples col;
            EGetAuxiliaryDataArray 0; EColumnAssign LatentSamples col].

End Blocks.

(** ** The ordinal augmentation steps over the reals *)

Section OrdinalSpec.

(** Modelled from the spec: the latent update of [OrdinalSamplerCpp] (C++,
    not among the sources).  For an observation with outcome category [k]
    and forest prediction [lambda], the latent variable is drawn from the
    unit-rate exponential distribution truncated to
    [(c_k * exp lambda, c_{k+1} * exp lambda]], with [c_K] standing for
    infinity; the draw is exact, the inverse distribution function applied
    to a uniform number [u] of the open unit interval.  Real numbers stand
    for float64, and the error conditions of the step are left out. *)
Definition truncated_exponential (lo : R) (hi : option R) (u : R) : R :=
  let top := exp (- lo) in
  let bottom := match hi with Some h => exp (- h) | None => 0%R end in
  (- ln (top - u * (top - bottom)))%R.

Definition latent_draw (d : aux R) (k i : nat) (u : R) : R :=
  let c := series 3 d in
  let lambda := nth i (series 1 d) 0%R in
  truncated_exponential (nth k c 0 * exp lambda)%R
                        ((fun h => h * exp lambda)%R <$> (c !! S k)) u.

(** Modelled from the spec: the cumulative refresh of [OrdinalSamplerCpp].
    Entry [i] of the cumulative series is the sum of [exp gamma_j] over
    [j < i]. *)
Definition sum_list (l : list R) : R := foldr Rplus 0%R l.

Definition cumulative_exp_sum (d : aux R) (i : nat) : R :=
  sum_list (exp <$> take i (series 2 d)).

(** A backend whose ordinal augmentation steps are the ones above: each
    latent value is such a draw for some category and some uniform number,
    and the cumulative series is refreshed as described. *)
Definition follows_spec (B : Backend R) : Prop :=
  (forall d smp i, exists k u,
      (0 < u < 1)%R /\ (latent_step B d smp).1 i = latent_draw d k i u) /\
  (forall d i, cum_exp_sum B d i = cumulative_exp_sum d i).

(** A series that starts non-negative and increases strictly. *)
Definition increasing_from_zero (c : list R) : Prop :=
  Forall (fun x => 0 <= x)%R c /\
  forall k x y, c !! k = Some x -> c !! S k = Some y -> (x < y)%R.

(** The state in which an iteration starts: the series have the lengths
    they were created with and the cumulative series is a refreshed one. *)
Definition chain_ready (B : Backend R) (s : Setup B) (d : aux R) : Prop :=
  length <$> d = length <$> fresh_aux B s /\
  increasing_from_zero (series 3 d).

(** An executable-in-outline backend over the reals: the forest predicts 0,
    every outcome is in category 0, every uniform number is 1/2 and every
    cutpoint draw is 0. *)
Definition real_toy : Backend R := {|
  xdata := unit;
  preprocessor := unit;
  processed := nat * nat;
  forest_container := list Z;
  sampler := Z;
  zero := 0%R;
  recip := fun p => (/ INR p)%R;
  is_negative := fun v => if Rlt_dec v 0 then true else false;
  fit := fun _ => tt;
  transform := fun _ x => toy_shape x;
  nrows_of := fst;
  ncols_of := snd;
  adjust_weights := fun _ w => w;
  new_container := fun _ => [];
  new_sampler := fun _ _ _ _ _ _ => 0%Z;
  sample_one_iteration := fun fc s _ keep _ _ =>
                            (if keep then fc ++ [(s + 1)%Z] else fc, (s + 1)%Z);
  forest_predict := fun _ _ _ => 0%R;
  container_predict := fun fc t => (fun _ => replicate (fst t) 0%R) <$> fc;
  latent_step := fun d s => (fun i => latent_draw d 0 i (1 / 2)%R, s);
  gamma_step := fun _ _ _ _ s => (fun _ => 0%R, s);
  cum_exp_sum := cumulative_exp_sum;
|}.

(** Twelve observations in three categories, two covariates, default
    weights; no warm-start, one burn-in and two retained iterations. *)
Definition real_data : list Z := [0; 1; 2; 0; 1; 2; 0; 1; 2; 0; 1; 2]%Z.

Definition real_args : sample_args real_toy :=
  @mkArgs R real_toy (XArray [12; 2]%nat tt) (YArray np_int64 [12%nat] real_data)
          None 50%Z 0%Z 1%Z 2%Z 1%Z 2%R 2%R None (Some 2025%Z) 1%Z.

End OrdinalSpec.

(** ** Concrete calls, for the worked examples *)

(** Outcomes that are all 0: a single category. *)
Definition single_class_args : sample_args toy :=
  @mkArgs Z toy (XArray [4; 2]%nat tt) (YArray np_int64 [4%nat] [0; 0; 0; 0]%Z)
          None 50%Z 0%Z 10%Z 5%Z 1%Z 2%Z 2%Z None (Some 2025%Z) 1%Z.

(** One observation whose outcome is the largest int64. *)
Definition huge_class_args : sample_args toy :=
  @mkArgs Z toy (XArray [1; 2]%nat tt)
          (YArray np_int64 [1%nat] [9223372036854775807]%Z)
          None 50%Z 0%Z 10%Z 5%Z 1%Z 2%Z 2%Z None (Some 2025%Z) 1%Z.

(** Two categories, no test set: what the set-up hands on for
    [num_gfr = 0], [num_burnin = 2], [num_mcmc = 0]. *)
Definition binary_args : sample_args toy :=
  @mkArgs Z toy (XArray [3; 2]%nat tt) (YArray np_int64 [3%nat] [0; 1; 1]%Z)
          None 50%Z 0%Z 2%Z 0%Z 1%Z 2%Z 2%Z None (Some 2025%Z) 1%Z.

Definition binary_setup : Setup toy :=
  @mkSetup Z toy 3%nat 0%nat 2%Z [] (3, 2)%nat None [1; 1]%Z [0; 1; 1]%Z
          (mkDraws (np_empty 3 0) None (np_empty 1 0) (np_empty 3 0)).

(** A history in which [sample] is called once and raises. *)
Definition failed_history : list (@call Z toy) :=
  [@CallPredict Z toy (XArray [4; 2]%nat tt); CallSample single_class_args;
   @CallPredict Z toy (XArray [4; 2]%nat tt)].

(** ** Statements about whole calls

    Conditions on the arguments of [sample] and views of its trace, used
    to state how a call ends for a given kind of input. *)

Section CallStatements.
Context {val : Type} (B : Backend val).

(** Data that pass the type and shape checks of lines 88-123: covariates
    that are a table of [n] rows and [p] columns (a one-dimensional array
    counts as a single column), test covariates with [p] columns when they
    are given, and an outcome array of a 32- or 64-bit integer type whose
    first axis has length [n] and whose elements [d] are not negative. *)
Definition data_ok (a : sample_args B) (n p : nat) (dt : dtype) (d : list Z)
  : Prop :=
  cov_shape (X_train a) = [n; p] /\
  (forall xt, X_test a = Some xt -> exists m, cov_shape xt = [m; p]) /\
  (exists sh, y_train a = YArray dt sh d /\ expand_if_1d sh !! 0%nat = Some n) /\
  is_int_dtype dt = true /\
  Forall (fun v => 0 <= v)%Z d.

(** The variable weights before any adjustment by the preprocessor
    (lines 126-131): the ones given, or [p] copies of [1.0 / p]. *)
Definition initial_weights (a : sample_args B) (p : nat) : list val :=
  match variable_weights a with
  | Some ws => ws
  | None => replicate p (recip B p)
  end.

(** Weights that pass lines 126-133: default weights need a column to
    divide by, and no weight is negative. *)
Definition weights_ok (a : sample_args B) (p : nat) : Prop :=
  (variable_weights a = None -> p <> 0%nat) /\
  existsb (is_negative B) (initial_weights a p) = false.

(** Outcome values with a positive one among them and none equal to the
    largest value of their type. *)
Definition several_categories (dt : dtype) (d : list Z) : Prop :=
  Exists (fun v => 0 < v)%Z d /\ Forall (fun v => v < dtype_max dt)%Z d.

(** The exceptions raised after the preprocessor has been assigned: by
    [np.max] on an empty outcome array, by the category check and by
    [np.arange] for a zero thinning interval. *)
Definition late_failure (e : exn) : Prop :=
  e = ValueError
        "zero-size array to reduction operation maximum which has no identity" \/
  e = too_few_categories \/
  e = ZeroDivisionError "division by zero".

(** [X_test is not None]. *)
Definition test_given (a : sample_args B) : bool :=
  match X_test a with Some _ => true | None => false end.

(** The number of slots of auxiliary series [dim] in a run set up as [s]. *)
Definition slot_count (s : Setup B) (dim : nat) : Z :=
  match dim with
  | 0%nat | 1%nat => Z.of_nat (s_n_train s)
  | 2%nat => s_n_levels s - 1
  | 3%nat => s_n_levels s
  | _ => 0
  end.

(** A store write is in range, or is the write to slot -1 of the cutpoint
    series; any other event passes. *)
Definition write_in_range_or_minus_one (s : Setup B) (e : event val) : Prop :=
  match e with
  | ESetAuxiliaryDataValue dim idx _ =>
      (0 <= idx < slot_count s dim)%Z \/ (dim = 2%nat /\ idx = (-1)%Z)
  | _ => True
  end.

(** The iterations of a run that are retained, in order. *)
Definition retained_iterations (a : sample_args B) (keep_idx : list Z) : list Z :=
  filter (fun i => i ∈ keep_idx) (range (num_gfr a + num_burnin a + num_mcmc a)).

(** The matrix behind container [c], when the container exists. *)
Definition container_matrix (c : container_id) (dr : Draws val)
  : option (matrix val) :=
  match c with
  | ForestPredTrain => Some (forest_pred_train dr)
  | ForestPredTest => forest_pred_test dr
  | GammaSamples => Some (gamma_samples dr)
  | LatentSamples => Some (latent_samples dr)
  end.

(** The number of rows container [c] is created with (lines 194-198). *)
Definition container_rows (c : container_id) (s : Setup B) : Z :=
  match c with
  | ForestPredTrain | LatentSamples => Z.of_nat (s_n_train s)
  | ForestPredTest => Z.of_nat (s_n_test s)
  | GammaSamples => s_n_levels s - 1
  end.

End CallStatements.

Section PredictionCalls.
Context {val : Type}.

(** The arrays returned by [active_forest.predict] on data set [d], in
    trace order. *)
Definition predictions (d : which_data) (t : list (event val)) : list (list val) :=
  omap (fun e => match e with
                 | EPredict d' r =>
                     match d, d' with
                     | TrainSet, TrainSet | TestSet, TestSet => Some r
                     | _, _ => None
                     end
                 | _ => None
                 end) t.

End PredictionCalls.

Section Outcomes.
Context {val : Type} {B : Backend val}.

(** The outcome of a computation (the exception raised or the value
    returned) is the same in whatever world it is run. *)
Definition same_outcome {A} (m : M B A) : Prop :=
  forall w1 w2 : world B, (m w1).2 = (m w2).2.

End Outcomes.

(** ** More concrete calls, for the worked examples *)

(** The demo data with a negative variable weight. *)
Definition negative_weight_args : sample_args toy :=
  @mkArgs Z toy (XArray [4; 2]%nat tt) (YArray np_int64 [4%nat] [0; 2; 1; 2]%Z)
          None 50%Z 0%Z 10%Z 5%Z 1%Z 2%Z 2%Z (Some [1; -1]%Z) (Some 2025%Z) 1%Z.

(** Three observations and a covariate array of shape [(3, 0)]. *)
Definition no_column_args : sample_args toy :=
  @mkArgs Z toy (XArray [3; 0]%nat tt) (YArray np_int64 [3%nat] [0; 1; 1]%Z)
          None 50%Z 0%Z 10%Z 5%Z 1%Z 2%Z 2%Z None (Some 2025%Z) 1%Z.

(** A zero-dimensional outcome array, [np.array(1)]. *)
Definition scalar_outcome_args : sample_args toy :=
  @mkArgs Z toy (XArray [4; 2]%nat tt) (YArray np_int64 [] [1]%Z)
          None 50%Z 0%Z 10%Z 5%Z 1%Z 2%Z 2%Z None (Some 2025%Z) 1%Z.

(** A model object after a fit: one warm-start, one burn-in and three
    retained iterations thinned by two. *)
Definition fitted : world toy := (sample toy (demo_args 1 1 3 2) fresh).1.

(** ** One iteration, as the specification orders it

    Written from the specification's words, for comparison with the
    driver: from the state [l] at the start of iteration [i], the steps
    below, each on the result of the one before, give the events [b] and
    the state [l'] at the end of the iteration. *)

Section ClaimedOrder.
Context {val : Type} (B : Backend val).

Definition claimed_iteration (a : sample_args B) (s : Setup B) (i : Z)
           (l : locals B) (b : list (event val)) (l' : locals B) : Prop :=
  let n := s_n_train s in
  let keep := contains (s_keep_idx s) i in
  exists flag copy,
    (* the ensemble update *)
    let updated :=
      sample_one_iteration B (l_fc l) (l_smp l) (l_aux l) keep flag
                           (num_threads a) in
    (* the predictions of the updated forest for the n_train observations,
       which replace series 1 *)
    let pred := (fun j => forest_predict B updated.2 TrainSet j) <$> seq 0 n in
    let d1 := <[1%nat := pred]> (l_aux l) in
    (* the latent update, on the store that holds these predictions *)
    let latent := latent_step B d1 updated.2 in
    let d2 := <[0%nat := latent.1 <$> seq 0 n]> d1 in
    (* the cutpoint update *)
    let gamma := gamma_step B (alpha_gamma a) (beta_gamma a) (zero B) d2 latent.2 in
    let d3 := <[2%nat := gamma.1 <$> seq 0 (Z.to_nat (s_n_levels s - 1))]> d2 in
    (* the cumulative refresh *)
    let d4 := <[3%nat := cum_exp_sum B d3 <$> seq 0 (Z.to_nat (s_n_levels s))]> d3 in
    b = [ESampleOneIteration keep flag (num_threads a); EPredict TrainSet pred] ++
        imap (fun j v => ESetAuxiliaryDataValue 1 (Z.of_nat j) v) pred ++
        [EUpdateLatentVariables (Some pred); EUpdateGammaParams;
         EUpdateCumulativeExpSums] ++
        copy /\
    (* the copy into the sample containers, in a retained iteration only *)
    (if keep
     then copy_block (match s_test s with Some _ => true | None => false end) copy
     else copy = []) /\
    l_fc l' = updated.1 /\ l_smp l' = gamma.2 /\ l_aux l' = d4.

End ClaimedOrder.

(** ** Reasoning about driver computations *)

Section Wp.
Context {val : Type} {B : Backend val}.

Lemma wp_run {A} (m : M B A) Q w w' r : wp m Q w -> m w = (w', r) -> Q w' r.
Proof. unfold wp. intros H E. rewrite E in H. exact H. Qed.

Lemma wp_intro {A} (m : M B A) Q w :
  (forall w' r, m w = (w', r) -> Q w' r) -> wp m Q w.
Proof. unfold wp. intros H. apply H. destruct (m w); reflexivity. Qed.

Lemma wp_mono {A} (m : M B A) (Q Q' : world B -> exn + A -> Prop) w :
  wp m Q w -> (forall w' r, Q w' r -> Q' w' r) -> wp m Q' w.
Proof. unfold wp. auto. Qed.

Lemma wp_ret {A} (x : A) Q (w : world B) : Q w (inr x) -> wp (ret x) Q w.
Proof. intros H. exact H. Qed.

Lemma wp_raise {A} e (Q : world B -> exn + A -> Prop) w :
  Q w (inl e) -> wp (raise e) Q w.
Proof. intros H. exact H. Qed.

Lemma wp_lift {A} (r : exn + A) Q (w : world B) : Q w r -> wp (lift r) Q w.
Proof. intros H. exact H. Qed.

Lemma wp_emit e Q (w : world B) :
  Q (mkWorld (self w) (trace w ++ [e])) (inr tt) -> wp (emit e) Q w.
Proof. intros H. exact H. Qed.

Lemma wp_update_self f Q (w : world B) :
  Q (mkWorld (f (self w)) (trace w)) (inr tt) -> wp (update_self f) Q w.
Proof. intros H. exact H. Qed.

Lemma wp_get_self Q (w : world B) : Q w (inr (self w)) -> wp get_self Q w.
Proof. intros H. exact H. Qed.

Lemma wp_when b e Q (w : world B) :
  (b = true -> Q w (inl e)) -> (b = false -> Q w (inr tt)) -> wp (when b e) Q w.
Proof. destruct b; intros H1 H2; [apply H1 | apply H2]; reflexivity. Qed.

Lemma wp_bind {A C} (m : M B A) (k : A -> M B C) Q w :
  wp m (fun w' r => match r with
                    | inr x => wp (k x) Q w'
                    | inl e => Q w' (inl e)
                    end) w ->
  wp (bind m k) Q w.
Proof.
  unfold wp, bind. destruct (m w) as [w' [e | x]]; simpl; auto.
Qed.

(** Loops: [I rest s w] holds when [rest] is still to be visited. *)
Lemma wp_for_each {A S} (body : A -> S -> M B S)
      (I : list A -> S -> world B -> Prop) Q :
  (forall x rest s w, I (x :: rest) s w ->
     wp (body x s) (fun w' r => match r with
                                | inr s' => I rest s' w'
                                | inl e => Q w' (inl e)
                                end) w) ->
  (forall s w, I [] s w -> Q w (inr s)) ->
  forall l s w, I l s w -> wp (for_each l body s) Q w.
Proof.
  intros Hbody Hend. induction l as [| x rest IH]; intros s w HI.
  - apply wp_ret, Hend, HI.
  - simpl. apply wp_bind. eapply wp_mono; [apply Hbody, HI |].
    intros w' [e | s']; simpl; auto.
Qed.

End Wp.

Section ForEachSet.
Context {val : Type} (B : Backend val).

Lemma for_each_set dim f g l d (w : world B) :
  for_each l (fun i d => set_auxiliary_data_value B dim (f i) (g i) d) d w =
  (mkWorld (self w) (trace w ++ set_events dim f g l),
   inr (write_all dim f g l d)).
Proof.
  revert d w. induction l as [| x l IH]; intros d w.
  - simpl. unfold ret. destruct w. simpl. rewrite app_nil_r. reflexivity.
  - simpl. unfold bind at 1. unfold set_auxiliary_data_value at 1.
    unfold bind at 1. simpl. rewrite IH. simpl. rewrite <- app_assoc. reflexivity.
Qed.

Lemma wp_for_each_set dim f g l d Q (w : world B) :
  Q (mkWorld (self w) (trace w ++ set_events dim f g l))
    (inr (write_all dim f g l d)) ->
  wp (for_each l (fun i d => set_auxiliary_data_value B dim (f i) (g i) d) d) Q w.
Proof. unfold wp. rewrite for_each_set. intros H. exact H. Qed.
End ForEachSet.

(** One step of symbolic execution of a driver computation; [wp_step]
    also splits on the tests the computation branches on. *)
Ltac wp_step_basic :=
  lazymatch goal with
  | |- wp (bind _ _) _ _ => apply wp_bind
  | |- wp (ret _) _ _ => apply wp_ret
  | |- wp (raise _) _ _ => apply wp_raise
  | |- wp (lift ?r) _ _ => apply wp_lift
  | |- wp (emit _) _ _ => apply wp_emit
  | |- wp (update_self _) _ _ => apply wp_update_self
  | |- wp get_self _ _ => apply wp_get_self
  | |- wp (let _ := _ in _) _ _ => cbv zeta
  | |- wp (for_each _ (fun i d => set_auxiliary_data_value _ _ _ _ d) _) _ _ =>
      apply wp_for_each_set
  end; cbn beta iota; cbn [self trace].

Ltac wp_step :=
  first
    [ wp_step_basic
    | lazymatch goal with
      | |- wp (when _ _) _ _ => apply wp_when; intros ?
      | |- wp (match ?x with _ => _ end) _ _ => destruct x eqn:?
      | |- wp (let '(_, _) := ?p in _) _ _ => destruct p eqn:?
      | |- match ?r with inl _ => _ | inr _ => _ end => destruct r eqn:?
      end; cbn beta iota; cbn [self trace] ].

(** ** The set-up part: input checks *)

Section SetupFacts.
Context {val : Type} (B : Backend val).


Lemma shape_at_inr s k n : shape_at s k = inr n -> s !! k = Some n.
Proof. unfold shape_at. destruct (s !! k); congruence. Qed.

Lemma shape_at_inl s k e : shape_at s k = inl e -> s !! k = None.
Proof. unfold shape_at. destruct (s !! k); congruence. Qed.

Lemma existsb_neg_false (d : list Z) :
  existsb (fun v => (v <? 0)%Z) d = false -> Forall (fun v => 0 <= v)%Z d.
Proof.
  induction d as [| x l IH]; simpl; [constructor |].
  intros [H1 H2]%orb_false_iff. constructor; [lia | auto].
Qed.

(** A normal return of the set-up: every check passed. *)
Lemma setup_returns a (w : world B) :
  wp (setup B a)
     (fun w' r => match r with inr s => setup_ok a w w' s | inl _ => True end) w.
Proof.
  unfold setup, determine_n_levels.
  repeat wp_step; try exact I.
  all: repeat match goal with
         | H : negb _ = false |- _ => apply negb_false_iff in H
         | H : shape_at _ _ = inr _ |- _ => apply shape_at_inr in H
         | H : (_ =? _)%nat = true |- _ => apply Nat.eqb_eq in H
         | H : (_ <? _)%Z = false |- _ => apply Z.ltb_ge in H
         | H : existsb (fun v => (v <? 0)%Z) _ = false |- _ =>
             apply existsb_neg_false in H
         end.
  all: subst.
  all: do 4 eexists;
    cbn [s_n_levels s_y s_n_train s_keep_idx s_test s_draws s_n_test trace self
         sampled rng forest_samples n_levels counts draws set_draws set_counts
         set_n_levels set_dims set_preprocessor].
  all: repeat match goal with
              | H : X_train _ = _ |- _ => rewrite !H
              | H : X_test _ = _ |- _ => rewrite !H
              end.
  all: repeat match goal with |- _ /\ _ => split end;
    try first [eassumption | reflexivity | apply fmap_is_Some].
  all: try (intros xt [= <-]; split; [congruence | eauto]).
  all: intros xt [=].
Qed.

Lemma setup_ok_arange a (w w' : world B) s :
  setup_ok a w w' s ->
  arange (num_gfr a + num_burnin a)
         (num_gfr a + num_burnin a + num_mcmc a) (n_thin a) = inr (s_keep_idx s).
Proof. intros (? & ? & ? & ? & H). apply H. Qed.

Lemma setup_ok_levels a (w w' : world B) s :
  setup_ok a w w' s -> (2 <= s_n_levels s)%Z.
Proof. intros (? & ? & ? & ? & H). apply H. Qed.

Lemma setup_ok_test a (w w' : world B) s :
  setup_ok a w w' s -> (is_Some (s_test s) <-> is_Some (X_test a)).
Proof. intros (? & ? & ? & ? & H). apply H. Qed.

Lemma setup_ok_draws a (w w' : world B) s :
  setup_ok a w w' s ->
  s_draws s =
    mkDraws (np_empty (Z.of_nat (s_n_train s)) (length (s_keep_idx s)))
            (match X_test a with
             | Some _ => Some (np_empty (Z.of_nat (s_n_test s)) (length (s_keep_idx s)))
             | None => None
             end)
            (np_empty (s_n_levels s - 1) (length (s_keep_idx s)))
            (np_empty (Z.of_nat (s_n_train s)) (length (s_keep_idx s))).
Proof. intros (? & ? & ? & ? & H). apply H. Qed.

(** An exception raised by the set-up leaves the trace and the sampling
    state as they were; for tabular arguments it is a [ValueError]. *)
Lemma setup_raises a (w : world B) :
  wp (setup B a)
     (fun w' r => forall e, r = inl e ->
        trace w' = trace w /\
        sampling_state (self w') = sampling_state (self w) /\
        (tabular a -> exists msg, e = ValueError msg)) w.
Proof.
  unfold setup, determine_n_levels.
  repeat wp_step.
  all: intros e' [= <-] || (intros e' [=]).
  all: split; [reflexivity | split; [reflexivity |]].
  all: try (intros _; eexists; reflexivity).
  all: try (intros _;
            match goal with
            | H : np_max ?d = inl _ |- _ =>
                destruct d; [injection H as <- | discriminate]
            end; eexists; reflexivity).
  all: intros ((rr & cc & Hx) & Ht & Hy & Hthin); exfalso.
  all: repeat match goal with
         | H : X_train _ = _ |- _ => rewrite H in *; clear H
         | H : X_test _ = Some _ |- _ => destruct (Ht _ H) as [? | (? & ? & ?)]; clear H
         | H : y_train _ = _ |- _ => specialize (Hy _ _ _ H); clear H
         | H : shape_at _ _ = inr _ |- _ => apply shape_at_inr in H
         | H : shape_at _ _ = inl _ |- _ => apply shape_at_inl in H
         end.
  all: try discriminate.
  all: try match goal with
         | H : arange _ _ _ = inl _ |- _ =>
             unfold arange in H;
             destruct (Z.eqb_spec (n_thin a) 0); [contradiction | discriminate]
         end.
  all: try match goal with
         | H : expand_if_1d ?s !! _ = None |- _ =>
             destruct s as [| ? [| ? ?]]; [contradiction | discriminate ..]
         end.
  all: repeat match goal with
         | H : cov_shape _ = _ |- _ => rewrite H in *; clear H
         end.
  all: try discriminate.
  all: simplify_eq/=.
Qed.


(** If the set-up raises, so does [sample], in the same world. *)
Lemma sample_setup_raises a (w w1 : world B) e :
  setup B a w = (w1, inl e) -> sample B a w = (w1, inl e).
Proof. intros E. unfold sample, bind. rewrite E. reflexivity. Qed.

End SetupFacts.

(** ** The steps of a run *)

Section StepFacts.
Context {val : Type} (B : Backend val).

Lemma init_samplers_eq a s (w : world B) :
  init_samplers B a s w =
  (mkWorld (set_forest_samples (new_container B (n_trees a))
                               (set_rng (seed a) (self w)))
           (trace w ++ init_events B s),
   inr (init_locals B a s)).
Proof.
  unfold init_samplers, bind, add_auxiliary_dimension, UpdateCumulativeExpSums,
    bind, emit, ret, update_self. simpl.
  rewrite for_each_set. simpl. rewrite for_each_set. simpl. rewrite for_each_set.
  simpl. unfold init_events, init_locals, init_aux, gamma_initialised, fresh_aux.
  rewrite !Nat2Z.id. repeat rewrite <- app_assoc. reflexivity.
Qed.

Lemma assign_column_inr (m m' : matrix val) j v :
  assign_column m j v = inr m' -> (0 <= j)%Z ->
  (Z.to_nat j < length (columns m))%nat /\ m' = store_pure m (Z.to_nat j) v.
Proof.
  unfold assign_column. intros H Hj.
  destruct ((0 <=? j)%Z && (j <? Z.of_nat (length (columns m)))%Z) eqn:E.
  - injection H as <-. apply andb_true_iff in E as [_ E%Z.ltb_lt].
    split; [lia | reflexivity].
  - destruct ((- Z.of_nat (length (columns m)) <=? j)%Z && (j <? 0)%Z) eqn:E';
      [| discriminate].
    apply andb_true_iff in E' as [_ E'%Z.ltb_lt]. lia.
Qed.

Lemma assign_column_inl (m : matrix val) j v e :
  assign_column m j v = inl e ->
  ~ (0 <= j < Z.of_nat (length (columns m)))%Z.
Proof.
  unfold assign_column. intros H Hj.
  destruct (Z.leb_spec 0 j); [| lia].
  destruct (Z.ltb_spec j (Z.of_nat (length (columns m)))); [| lia].
  discriminate.
Qed.

(** Copying the state into column [col]. *)
Lemma retain_spec s col d smp dr (w : world B) :
  wp (retain B s col d smp dr)
     (fun w' r =>
        fixed_attrs (self w') = fixed_attrs (self w) /\
        forest_samples (self w') = forest_samples (self w) /\
        match r with
        | inr dr' =>
            trace w' = trace w ++ retain_events B s col smp /\
            draws (self w') = Some dr' /\
            ((0 <= col)%Z ->
             dr' = retain_pure B s (Z.to_nat col) d smp dr /\
             (Z.to_nat col < length (columns (forest_pred_train dr)))%nat)
        | inl _ =>
            ~ (cols_ok B s dr /\ (0 <= col < Z.of_nat (length (s_keep_idx s)))%Z)
        end) w.
Proof.
  unfold retain, store_column, get_auxiliary_data_array, retain_events.
  repeat wp_step.
  all: repeat match goal with
              | |- _ /\ _ => split
              | |- True => exact I
              end; try reflexivity.
  all: try (cbn [trace]; rewrite <- ?app_assoc; reflexivity).
  all: try (intros ((Hc1 & Hc2 & Hc3 & Hc4) & Hcol);
            repeat match goal with
                   | H : assign_column _ _ _ = inr _ |- _ =>
                       apply assign_column_inr in H as (? & ->); [| lia]
                   | H : assign_column _ _ _ = inl _ |- _ =>
                       apply assign_column_inl in H
                   | H : s_test _ = _ |- _ => rewrite H in Hc4
                   end;
            cbn [forest_pred_train forest_pred_test gamma_samples latent_samples
                 store_pure columns] in *;
            try destruct Hc4 as (? & ? & ?); simplify_eq;
            repeat match goal with
                   | H : ~ _ |- _ => apply H; lia
                   end; fail).
  all: intros Hcol; unfold retain_pure;
    repeat match goal with
           | H : assign_column _ _ _ = inr _ |- _ =>
               apply assign_column_inr in H as (? & ?); [| assumption]
           end;
    cbn [forest_pred_train forest_pred_test gamma_samples latent_samples] in *;
    subst.
  all: repeat match goal with
              | H : s_test _ = _ |- _ => rewrite H
              | H : forest_pred_test _ = Some _ |- _ => rewrite H
              end.
  all: split; [reflexivity | assumption].
Qed.

(** One iteration of the main loop: it can only raise while retaining,
    and when it returns it has done what [next] and [iteration_events]
    say. *)
Lemma iteration_spec a s i l (w : world B) :
  wp (iteration B a s i l)
     (fun w' r =>
        fixed_attrs (self w') = fixed_attrs (self w) /\
        match r with
        | inr l' =>
            trace w' = trace w ++ iteration_events B a s i l /\
            forest_samples (self w') = Some (l_fc l') /\
            (if keep_sample B s i then draws (self w') = Some (l_draws l')
             else draws (self w') = draws (self w)) /\
            ((-1 <= sample_counter l)%Z ->
             l' = next B a s i l /\
             (keep_sample B s i = true ->
              (Z.to_nat (sample_counter l + 1)
               < length (columns (forest_pred_train (l_draws l))))%nat))
        | inl _ =>
            keep_sample B s i = true /\
            ~ (cols_ok B s (l_draws l) /\
               (0 <= sample_counter l + 1 < Z.of_nat (length (s_keep_idx s)))%Z)
        end) w.
Proof.
  unfold iteration, UpdateLatentVariables, UpdateGammaParams,
    UpdateCumulativeExpSums.
  fold (keep_sample B s i). fold (gfr_flag B a i).
  repeat wp_step_basic.
  change (sample_one_iteration B (l_fc l) (l_smp l) (l_aux l) (keep_sample B s i)
            (gfr_flag B a i) (num_threads a)) with (forest_update B a s i l).
  match goal with
  | |- wp (if _ then retain _ _ _ ?d ?smp _ else _) _ (mkWorld _ ?tr) =>
      change d with (aux_after B a s i l);
      change smp with (smp_after B a s i l);
      replace tr with (trace w ++ update_events B a s i l)
        by (unfold update_events; rewrite <- !app_assoc; reflexivity)
  end.
  unfold next, iteration_events.
  destruct (keep_sample B s i) eqn:Ekeep.
  - eapply wp_mono; [apply retain_spec |].
    intros w' [e | dr'] (Hs & Hf & Hr); cbn [self trace] in *.
    + split; [exact Hs | split; [reflexivity | exact Hr]].
    + wp_step. destruct Hr as (Ht & Hd & Hret).
      cbn [l_aux l_smp l_fc l_draws sample_counter].
      repeat split; try first [assumption | reflexivity].
      * rewrite Ht, <- app_assoc. reflexivity.
      * destruct Hret as [-> _]; [lia | reflexivity].
      * intros _. apply Hret. lia.
  - repeat wp_step. rewrite app_nil_r. repeat split. discriminate.
Qed.

Lemma keep_sample_spec s i : keep_sample B s i = true <-> i ∈ s_keep_idx s.
Proof.
  unfold keep_sample, contains. rewrite existsb_exists. split.
  - intros (x & Hin & Hx%Z.eqb_eq). subst. apply list_elem_of_In, Hin.
  - intros Hin. exists i. split; [apply list_elem_of_In, Hin | apply Z.eqb_refl].
Qed.

Lemma keep_sample_false s i : keep_sample B s i = false <-> i ∉ s_keep_idx s.
Proof.
  rewrite <- keep_sample_spec. destruct (keep_sample B s i); split; congruence.
Qed.

(** The number of retained iterations among [done]. *)
Lemma kept_bound (s : Setup B) (done : list Z) :
  NoDup done ->
  (length (filter (fun i => i ∈ s_keep_idx s) done) <= length (s_keep_idx s))%nat.
Proof.
  intros Hnd. apply submseteq_length, NoDup_submseteq.
  - apply NoDup_filter, Hnd.
  - intros x Hx. apply list_elem_of_filter in Hx. apply Hx.
Qed.

Lemma store_pure_length (m : matrix val) col v :
  length (columns (store_pure m col v)) = length (columns m).
Proof. unfold store_pure. simpl. apply length_insert. Qed.

Lemma retain_pure_cols_ok s col d smp dr :
  cols_ok B s dr -> cols_ok B s (retain_pure B s col d smp dr).
Proof.
  unfold cols_ok, retain_pure. intros (H1 & H2 & H3 & H4).
  cbn [forest_pred_train forest_pred_test gamma_samples latent_samples].
  rewrite !store_pure_length. repeat split; try assumption.
  destruct (s_test s); [| exact I]. destruct H4 as (m & -> & Hm).
  eexists. split; [reflexivity |]. rewrite store_pure_length. exact Hm.
Qed.

Lemma next_cols_ok a s i l :
  cols_ok B s (l_draws l) -> cols_ok B s (l_draws (next B a s i l)).
Proof.
  intros H. unfold next. destruct (keep_sample B s i); simpl; [| exact H].
  apply retain_pure_cols_ok, H.
Qed.

Lemma next_counter a s i l :
  sample_counter (next B a s i l) =
  (sample_counter l + if keep_sample B s i then 1 else 0)%Z.
Proof. unfold next. destruct (keep_sample B s i); simpl; lia. Qed.

Lemma filter_snoc_kept s (done : list Z) i :
  length (filter (fun i => i ∈ s_keep_idx s) (done ++ [i])) =
  (length (filter (fun i => i ∈ s_keep_idx s) done)
   + if keep_sample B s i then 1 else 0)%nat.
Proof.
  rewrite filter_app, length_app. f_equal.
  destruct (keep_sample B s i) eqn:E.
  - apply keep_sample_spec in E. rewrite filter_cons_True by exact E. reflexivity.
  - apply keep_sample_false in E. rewrite filter_cons_False by exact E. reflexivity.
Qed.

(** The main loop over the iterations in [todo], those in [done] being
    behind it: it returns, having done what [locals_after] and
    [loop_events] say. *)
Lemma loop_spec a s todo : forall done l (w : world B),
  NoDup (done ++ todo) ->
  sample_counter l =
    (Z.of_nat (length (filter (fun i => i ∈ s_keep_idx s) done)) - 1)%Z ->
  cols_ok B s (l_draws l) ->
  forest_samples (self w) = Some (l_fc l) ->
  draws (self w) = Some (l_draws l) ->
  wp (for_each todo (iteration B a s) l)
     (fun w' r =>
        fixed_attrs (self w') = fixed_attrs (self w) /\
        r = inr (locals_after B a s todo l) /\
        trace w' = trace w ++ loop_events B a s todo l /\
        forest_samples (self w') = Some (l_fc (locals_after B a s todo l)) /\
        draws (self w') = Some (l_draws (locals_after B a s todo l))) w.
Proof.
  induction todo as [| i rest IH]; intros done l w Hnd Hc Hok Hf Hd.
  - simpl. apply wp_ret. rewrite app_nil_r. repeat split; assumption.
  - simpl. apply wp_bind. eapply wp_mono; [apply iteration_spec |].
    assert (NoDup (done ++ [i])) as Hnd1.
    { rewrite (assoc_L (++) done [i] rest : (done ++ [i]) ++ rest = done ++ i :: rest)
        in Hnd || (replace (done ++ i :: rest) with ((done ++ [i]) ++ rest) in Hnd
                     by (rewrite <- app_assoc; reflexivity)).
      apply NoDup_app in Hnd. apply Hnd. }
    pose proof (kept_bound s (done ++ [i]) Hnd1) as Hbound.
    rewrite filter_snoc_kept in Hbound.
    intros w1 [e | l1] (Hs & H).
    + exfalso. destruct H as (Hk & Hno). apply Hno. split; [exact Hok |].
      rewrite Hk in Hbound. lia.
    + destruct H as (Ht & Hf1 & Hd1 & Hn).
      destruct Hn as [-> _]; [lia |].
      eapply wp_mono.
      * apply (IH (done ++ [i])).
        -- rewrite <- app_assoc. exact Hnd.
        -- rewrite next_counter, filter_snoc_kept, Hc.
           destruct (keep_sample B s i); lia.
        -- apply next_cols_ok, Hok.
        -- exact Hf1.
        -- unfold next in *. destruct (keep_sample B s i); simpl in *; congruence.
      * intros w2 r2 (Hs2 & -> & Ht2 & Hf2 & Hd2).
        repeat split; try first [congruence | assumption].
        rewrite Ht2, Ht, <- app_assoc. reflexivity.
Qed.

Lemma np_empty_length (rows : Z) (n : nat) :
  length (columns (@np_empty val rows n)) = n.
Proof. apply length_replicate. Qed.

Lemma setup_ok_cols a (w w1 : world B) s :
  setup_ok a w w1 s -> cols_ok B s (s_draws s).
Proof.
  intros Hok. pose proof (setup_ok_test B a w w1 s Hok) as Htest.
  rewrite (setup_ok_draws B a w w1 s Hok).
  unfold cols_ok. cbn [forest_pred_train forest_pred_test gamma_samples
                       latent_samples].
  rewrite !np_empty_length. repeat split.
  destruct (s_test s) as [t |] eqn:Et; [| exact I].
  destruct (X_test a) as [xt |].
  - eexists. split; [reflexivity | apply np_empty_length].
  - destruct Htest as [Htest _]. destruct Htest as [? [=]]. eauto.
Qed.

(** The whole of [sample]: it raises only in the set-up, and otherwise
    runs every iteration and returns. *)
Lemma sample_spec a (w : world B) :
  wp (sample B a)
     (fun w' r =>
        match r with
        | inr _ =>
            exists w1 s,
              setup B a w = (w1, inr s) /\ setup_ok a w w1 s /\
              let T := (num_gfr a + num_burnin a + num_mcmc a)%Z in
              let l := locals_after B a s (range T) (init_locals B a s) in
              trace w' = trace w ++ init_events B s ++
                           loop_events B a s (range T) (init_locals B a s) /\
              sampled (self w') = true /\
              draws (self w') = Some (l_draws l) /\
              forest_samples (self w') = Some (l_fc l) /\
              rng (self w') = Some (seed a) /\
              counts (self w') = Some (num_gfr a, num_burnin a, num_mcmc a) /\
              n_levels (self w') = Some (s_n_levels s)
        | inl e => setup B a w = (w', inl e)
        end) w.
Proof.
  unfold sample. apply wp_bind. apply wp_intro. intros w1 [e | s] Es.
  - exact Es.
  - pose proof (wp_run _ _ _ _ _ (setup_returns B a w) Es) as Hret.
    cbn beta iota in Hret.
    apply wp_bind. unfold wp at 1. rewrite init_samplers_eq. cbn [fst snd].
    apply wp_bind. unfold main_loop.
    eapply wp_mono.
    { apply (loop_spec a s _ []).
      - simpl. apply NoDup_seqZ.
      - reflexivity.
      - apply (setup_ok_cols a w w1 s Hret).
      - reflexivity.
      - cbn [self draws set_forest_samples set_rng init_locals l_draws].
        destruct Hret as (? & ? & ? & ? & H). apply H. }
    intros w2 r2 (Hs & -> & Ht & Hf & Hd). unfold fixed_attrs in Hs.
    cbn [self trace sampled rng counts n_levels dims _covariate_preprocessor
         set_forest_samples set_rng] in *.
    apply wp_update_self.
    exists w1, s. split; [exact Es | split; [exact Hret |]].
    cbn [self trace sampled draws forest_samples rng counts n_levels set_sampled].
    cbn zeta.
    destruct Hret as (? & ? & ? & ? & Hh).
    repeat split; try first [assumption | congruence].
    * rewrite Ht, <- app_assoc.
      replace (trace w1) with (trace w) by (symmetry; apply Hh). reflexivity.
    * replace (counts (self w2)) with (counts (self w1)) by congruence. apply Hh.
    * replace (n_levels (self w2)) with (n_levels (self w1)) by congruence.
      apply Hh.
Qed.
End StepFacts.

(** ** Input validation (lines 88-123 and 166-171) *)

Section Validation.
Context {val : Type} (B : Backend val).


End Validation.

(** ** [predict] before [sample] (lines 366-375 and 690-698) *)

Section NotSampled.
Context {val : Type} (B : Backend val).

Lemma predict_world X (w : world B) : (predict B X w).1 = w.
Proof.
  unfold predict, is_sampled, bind, get_self, when, ret, raise.
  destruct (sampled (self w)); simpl; [| reflexivity].
  destruct X; simpl; try reflexivity;
    destruct (_covariate_preprocessor (self w)), (forest_samples (self w));
    reflexivity.
Qed.

Lemma predict_unsampled X (w : world B) :
  sampled (self w) = false ->
  exists msg, (predict B X w).2 = inl (NotSampledError msg).
Proof.
  intros H. unfold predict, is_sampled, bind, get_self, when, ret, raise.
  rewrite H. simpl. eexists. reflexivity.
Qed.

Lemma run_call_unsampled c (w : world B) :
  sampled (self w) = false -> (run_call c w).2 = false ->
  sampled (self (run_call c w).1) = false.
Proof.
  intros Hs Hdone. destruct c as [a | X]; simpl in *.
  - pose proof (sample_spec B a w) as H. unfold wp in H.
    destruct (sample B a w) as [w' [e | []]]; simpl in *; [| discriminate].
    destruct (wp_run _ _ _ _ _ (setup_raises B a w) H e eq_refl) as (_ & Hss & _).
    unfold sampling_state in Hss. congruence.
  - rewrite predict_world. exact Hs.
Qed.

Lemma run_calls_unsampled cs : forall (w : world B),
  sampled (self w) = false -> (run_calls cs w).2 = false ->
  sampled (self (run_calls cs w).1) = false.
Proof.
  induction cs as [| c cs IH]; intros w Hs Hdone; simpl in *; [exact Hs |].
  pose proof (run_call_unsampled c w Hs) as Hc.
  destruct (run_call c w) as [w1 d1]. simpl in *.
  specialize (IH w1). destruct (run_calls cs w1) as [w2 d2]. simpl in *.
  apply orb_false_iff in Hdone as [-> ->]. auto.
Qed.

(** C9.  Take a model object fresh from [__init__] and any history of
    [sample] and [predict] calls on it in which no [sample] call returned
    normally.  Then [predict] raises [NotSampledError], which is not the
    [ValueError] that input validation raises. *)
Theorem predict_before_sample_is_not_sampled_error cs tr X :
  (run_calls cs (mkWorld (@new_model val B) tr)).2 = false ->
  exists msg,
    (predict B X (run_calls cs (mkWorld new_model tr)).1).2
      = inl (NotSampledError msg) /\
    forall msg', NotSampledError msg <> ValueError msg'.
Proof.
  intros Hdone.
  destruct (predict_unsampled X (run_calls cs (mkWorld new_model tr)).1) as [msg Hm].
  - apply run_calls_unsampled; [reflexivity | exact Hdone].
  - exists msg. split; [exact Hm | discriminate].
Qed.

End NotSampled.

(** ** The number of outcome categories (lines 166-171) *)

Section Categories.
Context {val : Type} (B : Backend val).

Lemma wrap_signed_small bits x :
  (0 < bits)%Z -> (- 2 ^ (bits - 1) <= x < 2 ^ (bits - 1))%Z ->
  wrap_signed bits x = x.
Proof.
  intros Hb Hx. unfold wrap_signed.
  assert (2 ^ bits = 2 * 2 ^ (bits - 1))%Z as Hp.
  { replace bits with (Z.succ (bits - 1)) at 1 by lia.
    rewrite Z.pow_succ_r by lia. reflexivity. }
  rewrite Z.mod_small by lia. lia.
Qed.

Lemma scalar_succ_small dt m :
  (0 <= m < dtype_max dt)%Z -> scalar_succ dt m = (m + 1)%Z.
Proof.
  intros Hm. unfold scalar_succ. apply wrap_signed_small.
  - destruct dt; reflexivity.
  - unfold dtype_max in Hm. lia.
Qed.

Lemma scalar_succ_max dt : (scalar_succ dt (dtype_max dt) < 0)%Z.
Proof. destruct dt; vm_compute; reflexivity. Qed.

Lemma np_max_spec d m :
  np_max d = inr m -> m ∈ d /\ Forall (fun v => v <= m)%Z d.
Proof.
  destruct d as [| x rest]; [discriminate |]. simpl. intros [= <-].
  induction rest as [| y l IH]; simpl.
  - split; [left | repeat constructor; lia].
  - destruct IH as [Hin Hall].
    apply Forall_cons in Hall as [Hx Hl]. split.
    + destruct (Z.max_spec y (foldr Z.max x l)) as [[_ ->] | [_ ->]].
      * apply elem_of_cons in Hin as [-> | Hin]; [left | right; right; exact Hin].
      * right. left.
    + constructor; [lia |]. constructor; [lia |].
      eapply Forall_impl; [exact Hl |]. simpl. intros. lia.
Qed.

Lemma np_max_nonempty d : d <> [] -> exists m, np_max d = inr m.
Proof. destruct d; [contradiction | eexists; reflexivity]. Qed.

(** C10, as amended.  The number of categories is not an argument: it is
    the largest outcome value plus one, computed in the integer type of
    the outcome array.  For a vector of non-negative values of that type:
    when the category check accepts it, [K = max + 1], [K >= 2], [K] is
    stored as [n_levels] and every value lies in [0, K - 1] (so a category
    with no observation below the largest one still counts); and when the
    vector is not empty and its largest value is below the largest value
    of the type, the fewer-than-two-categories error is raised exactly
    when every outcome value is 0. *)
Theorem n_levels_is_max_plus_one dt d (w : world B) :
  Forall (fun v => 0 <= v <= dtype_max dt)%Z d ->
  (forall K, (determine_n_levels B dt d w).2 = inr K ->
     np_max d = inr (K - 1)%Z /\ (2 <= K)%Z /\
     n_levels (self (determine_n_levels B dt d w).1) = Some K /\
     Forall (fun v => 0 <= v <= K - 1)%Z d) /\
  (d <> [] -> Forall (fun v => v < dtype_max dt)%Z d ->
     ((determine_n_levels B dt d w).2 = inl too_few_categories <->
      Forall (eq 0%Z) d)).
Proof.
  intros Hwf. unfold determine_n_levels, bind, lift, update_self, when, ret, raise.
  split.
  - intros K. destruct (np_max d) as [e | m] eqn:Em; simpl; [discriminate |].
    destruct (Z.ltb_spec (scalar_succ dt m) 2) as [Hlt | Hge]; simpl;
      [discriminate |].
    intros [= <-]. destruct (np_max_spec d m Em) as [Hin Hle].
    rewrite Forall_forall in Hwf. pose proof (Hwf m Hin) as Hm.
    assert (m < dtype_max dt)%Z as Hm'.
    { destruct (Z.eq_dec m (dtype_max dt)) as [-> | Hne]; [| lia].
      pose proof (scalar_succ_max dt). lia. }
    rewrite scalar_succ_small in * by lia.
    replace (m + 1 - 1)%Z with m by lia.
    repeat split; [lia |].
    rewrite Forall_forall in Hle. apply Forall_forall. intros v Hv.
    specialize (Hwf v Hv). specialize (Hle v Hv). lia.
  - intros Hne Hlt. destruct (np_max_nonempty d Hne) as [m Em]. rewrite Em. simpl.
    destruct (np_max_spec d m Em) as [Hin Hle].
    rewrite Forall_forall in Hwf, Hlt.
    rewrite scalar_succ_small by (split; [apply Hwf | apply Hlt]; exact Hin).
    destruct (Z.ltb_spec (m + 1) 2) as [Hsmall | Hbig]; simpl.
    + split; [intros _ | reflexivity].
      apply Forall_forall. intros v Hv. rewrite Forall_forall in Hle.
      specialize (Hwf v Hv). specialize (Hle v Hv). lia.
    + split; [discriminate |]. intros Hz. rewrite Forall_forall in Hz.
      specialize (Hz m Hin). lia.
Qed.

End Categories.

(** ** The auxiliary store under the driver's writes *)

Section Store.
Context {val : Type}.
Implicit Types (d : aux val) (v : val).

Lemma write_aux_shape dim idx v d :
  length <$> write_aux dim idx v d = length <$> d.
Proof.
  unfold write_aux. destruct (d !! dim) as [s |] eqn:E; [| reflexivity].
  destruct ((0 <=? idx)%Z && (idx <? Z.of_nat (length s))%Z); [| reflexivity].
  rewrite list_fmap_insert, length_insert.
  apply list_insert_id. rewrite list_lookup_fmap, E. reflexivity.
Qed.

Lemma write_all_shape dim f g l d :
  length <$> write_all dim f g l d = length <$> d.
Proof.
  unfold write_all. revert d.
  induction l as [| x l IH]; intros d; simpl; [reflexivity |].
  rewrite IH. apply write_aux_shape.
Qed.

Lemma rewrite_series_shape dim (f : nat -> val) d :
  length <$> rewrite_series dim f d = length <$> d.
Proof.
  unfold rewrite_series. destruct (d !! dim) as [s |] eqn:E; [| reflexivity].
  rewrite list_fmap_insert, length_fmap, length_seq.
  apply list_insert_id. rewrite list_lookup_fmap, E. reflexivity.
Qed.

Lemma write_aux_other dim dim' idx v d :
  dim <> dim' -> write_aux dim idx v d !! dim' = d !! dim'.
Proof.
  intros Hne. unfold write_aux. destruct (d !! dim) as [s |]; [| reflexivity].
  destruct ((0 <=? idx)%Z && (idx <? Z.of_nat (length s))%Z); [| reflexivity].
  apply list_lookup_insert_ne. exact Hne.
Qed.

Lemma write_all_other dim dim' f g l d :
  dim <> dim' -> write_all dim f g l d !! dim' = d !! dim'.
Proof.
  intros Hne. unfold write_all. revert d.
  induction l as [| x l IH]; intros d; simpl; [reflexivity |].
  rewrite IH. apply write_aux_other, Hne.
Qed.

Lemma rewrite_series_other dim dim' (f : nat -> val) d :
  dim <> dim' -> rewrite_series dim f d !! dim' = d !! dim'.
Proof.
  intros Hne. unfold rewrite_series. destruct (d !! dim); [| reflexivity].
  apply list_lookup_insert_ne. exact Hne.
Qed.

Lemma rewrite_series_same dim (f : nat -> val) d s :
  d !! dim = Some s ->
  rewrite_series dim f d !! dim = Some (f <$> seq 0 (length s)).
Proof.
  intros E. unfold rewrite_series. rewrite E.
  apply list_lookup_insert_eq. apply lookup_lt_Some in E. exact E.
Qed.

(** Writing the slots [0 .. length l - 1] of a series, in this order. *)
Lemma write_all_seq dim f g l : forall d s0,
  f <$> l = seqZ 0 (Z.of_nat (length l)) ->
  d !! dim = Some s0 ->
  (length l <= length s0)%nat ->
  write_all dim f g l d = <[dim := (g <$> l) ++ drop (length l) s0]> d.
Proof.
  induction l as [| x l IH] using rev_ind; intros d s0 Hf Hd Hlen.
  - simpl. rewrite drop_0. symmetry. apply list_insert_id, Hd.
  - rewrite length_app in *. simpl in *.
    replace (length l + 1)%nat with (S (length l)) in * by lia.
    rewrite seqZ_S, fmap_app in Hf. simpl in Hf.
    apply app_inj_2 in Hf as [Hf [= Hx]]; [| reflexivity].
    unfold write_all in *. rewrite foldl_snoc, (IH d s0 Hf Hd) by lia.
    unfold write_aux.
    assert (dim < length d)%nat as Hdim by (eapply lookup_lt_Some; exact Hd).
    rewrite list_lookup_insert_eq by exact Hdim.
    rewrite Hx, length_app, length_fmap, length_drop.
    destruct (Z.leb_spec 0 (0 + Z.of_nat (length l))); [| lia].
    destruct (Z.ltb_spec (0 + Z.of_nat (length l))
                         (Z.of_nat (length l + (length s0 - length l)))); [| lia].
    simpl. rewrite list_insert_insert_eq. f_equal.
    replace (Z.to_nat (0 + Z.of_nat (length l))) with (length l) by lia.
    rewrite insert_app_r_alt by (rewrite length_fmap; lia).
    rewrite length_fmap, Nat.sub_diag, fmap_app, <- app_assoc. f_equal.
    destruct (lookup_lt_is_Some_2 s0 (length l)) as [y Hy]; [lia |].
    rewrite (drop_S _ _ _ Hy). reflexivity.
Qed.

Lemma set_events_imap (g : Z -> val) (n : nat) :
  set_events 1 (fun j => j) g (range (Z.of_nat n)) =
  imap (fun j v => ESetAuxiliaryDataValue 1 (Z.of_nat j) v)
       ((fun j => g (Z.of_nat j)) <$> seq 0 n).
Proof.
  unfold set_events, range. apply list_eq. intros k.
  rewrite list_lookup_fmap, list_lookup_imap, list_lookup_fmap.
  destruct (decide (k < n)%nat) as [Hlt | Hge].
  - rewrite lookup_seqZ_lt by lia. rewrite lookup_seq_lt by lia. simpl.
    reflexivity.
  - rewrite lookup_seqZ_ge by lia. rewrite lookup_seq_ge by lia. reflexivity.
Qed.

Lemma fmap_seqZ_seq {A} (g : Z -> A) (n : nat) :
  g <$> seqZ 0 (Z.of_nat n) = (fun j => g (Z.of_nat j)) <$> seq 0 n.
Proof.
  apply list_eq. intros k. rewrite !list_lookup_fmap.
  destruct (decide (k < n)%nat) as [Hlt | Hge].
  - rewrite lookup_seqZ_lt by lia. rewrite lookup_seq_lt by lia. reflexivity.
  - rewrite lookup_seqZ_ge by lia. rewrite lookup_seq_ge by lia. reflexivity.
Qed.

(** Writing a whole series of length [n], slot by slot. *)
Lemma write_all_whole dim (g : Z -> val) (n : nat) d s0 :
  d !! dim = Some s0 -> length s0 = n ->
  write_all dim (fun j => j) g (range (Z.of_nat n)) d
  = <[dim := (fun j => g (Z.of_nat j)) <$> seq 0 n]> d.
Proof.
  intros Hd Hn. unfold range.
  rewrite (write_all_seq dim (fun j => j) g _ d s0); try assumption.
  - rewrite length_seqZ, Nat2Z.id, <- Hn, drop_all, app_nil_r, Hn.
    rewrite fmap_seqZ_seq. reflexivity.
  - rewrite list_fmap_id, length_seqZ, Nat2Z.id. reflexivity.
  - rewrite length_seqZ. lia.
Qed.

End Store.

(** ** Initial values of the auxiliary series (lines 239-267) *)

Section Initialisation.
Context {val : Type} (B : Backend val).

Lemma writes_to_set_events dim dim' (f : Z -> Z) (g : Z -> val) l :
  writes_to dim (set_events dim' f g l) =
  if decide (dim' = dim) then (fun i => (f i, g i)) <$> l else [].
Proof.
  unfold writes_to, set_events.
  destruct (decide (dim' = dim)) as [-> | Hne].
  - induction l as [| x l IH]; csimpl; [reflexivity |].
    rewrite decide_True by reflexivity. rewrite IH. reflexivity.
  - induction l as [| x l IH]; csimpl; [reflexivity |].
    rewrite decide_False by exact Hne. exact IH.
Qed.

Lemma writes_to_app dim (t1 t2 : list (event val)) :
  writes_to dim (t1 ++ t2) = writes_to dim t1 ++ writes_to dim t2.
Proof. apply omap_app. Qed.

Lemma shift_seqZ (n : Z) : (fun i => i - 1)%Z <$> seqZ 1 n = seqZ 0 n.
Proof.
  apply list_eq. intros k. rewrite list_lookup_fmap.
  destruct (decide (Z.of_nat k < n)%Z) as [Hlt | Hge].
  - rewrite !lookup_seqZ_lt by lia. simpl. f_equal. lia.
  - rewrite !lookup_seqZ_ge by lia. reflexivity.
Qed.

Lemma const_fmap_replicate {A} (y : val) (l : list A) :
  (fun _ => y) <$> l = replicate (length l) y.
Proof. apply const_fmap. reflexivity. Qed.

(** The cutpoint series once the loop of lines 254-255 has run: the write
    to slot -1 changes no slot, slots 0 to K - 3 are written with 0 and
    slot K - 2 holds the 0 it was added with. *)
Lemma gamma_initialised_series s :
  (2 <= s_n_levels s)%Z ->
  gamma_initialised B s !! 2%nat =
  Some (replicate (Z.to_nat (s_n_levels s - 1)) (zero B)).
Proof.
  intros HK. unfold gamma_initialised, range.
  rewrite seqZ_cons by lia. unfold write_all. simpl foldl.
  replace (write_aux 2 (0 - 1) (zero B) (fresh_aux B s)) with (fresh_aux B s)
    by reflexivity.
  fold (write_all 2 (fun i => i - 1)%Z (fun _ => zero B)
                  (seqZ (Z.succ 0) (Z.pred (s_n_levels s - 1))) (fresh_aux B s)).
  erewrite write_all_seq; [| | reflexivity |].
  - simpl. f_equal. rewrite const_fmap_replicate, length_seqZ, drop_replicate.
    rewrite <- replicate_add. f_equal. lia.
  - change (Z.succ 0) with 1%Z. rewrite shift_seqZ, length_seqZ.
    rewrite Z2Nat.id by lia. reflexivity.
  - rewrite length_seqZ, length_replicate. lia.
Qed.

Lemma fresh_aux_lookup s k n :
  length <$> fresh_aux B s !! k = Some n ->
  fresh_aux B s !! k = Some (replicate n (zero B)).
Proof.
  unfold fresh_aux. destruct k as [| [| [| [| k]]]]; simpl; intros [= <-];
    rewrite length_replicate; reflexivity.
Qed.

(** The store that the initialisation code of lines 239-267 hands to the
    first iteration. *)
Lemma init_aux_series s :
  (2 <= s_n_levels s)%Z ->
  series 0 (init_aux B s) = replicate (s_n_train s) (zero B) /\
  series 1 (init_aux B s) = replicate (s_n_train s) (zero B) /\
  series 2 (init_aux B s) = replicate (Z.to_nat (s_n_levels s - 1)) (zero B).
Proof.
  intros HK. unfold init_aux, series.
  set (d1 := gamma_initialised B s).
  set (d2 := rewrite_series 3 (cum_exp_sum B d1) d1).
  assert (length <$> d2 = length <$> fresh_aux B s) as Hshape.
  { unfold d2, d1, gamma_initialised.
    rewrite rewrite_series_shape, write_all_shape. reflexivity. }
  assert (d2 !! 1%nat = Some (replicate (s_n_train s) (zero B))) as H1.
  { unfold d2, d1, gamma_initialised.
    rewrite rewrite_series_other, write_all_other by lia. reflexivity. }
  assert (d2 !! 0%nat = Some (replicate (s_n_train s) (zero B))) as H0.
  { unfold d2, d1, gamma_initialised.
    rewrite rewrite_series_other, write_all_other by lia. reflexivity. }
  rewrite (write_all_whole 1 _ _ d2 _ H1) by apply length_replicate.
  rewrite (write_all_whole 0 _ (s_n_train s) _ (replicate (s_n_train s) (zero B)))
    by (try apply length_replicate; rewrite list_lookup_insert_ne by lia; exact H0).
  repeat split.
  - rewrite list_lookup_insert_eq.
    + simpl. rewrite const_fmap_replicate, length_seq. reflexivity.
    + rewrite length_insert. apply lookup_lt_Some in H0. exact H0.
  - rewrite list_lookup_insert_ne by lia. rewrite list_lookup_insert_eq.
    + simpl. rewrite const_fmap_replicate, length_seq. reflexivity.
    + apply lookup_lt_Some in H1. exact H1.
  - rewrite !list_lookup_insert_ne by lia.
    unfold d2. rewrite rewrite_series_other by lia.
    unfold d1. rewrite gamma_initialised_series by exact HK. reflexivity.
Qed.

(** C2.  After the initialisation code of lines 239-267, before the first
    iteration, every latent slot, every forest-prediction slot and every
    one of the K - 1 cutpoint slots (indices 0 to K - 2) holds 0.  The
    series are added zero-filled; the loops for the latent variables and
    the forest predictions write 0 to every slot; the cutpoint loop writes
    0 to the indices [i - 1] for [i] in [range(K - 1)], that is to -1 (a
    write outside the series, which changes no slot) and to 0 .. K - 3, so
    that slot K - 2 holds the 0 it was added with. *)
Theorem auxiliary_slots_start_at_zero a s (w : world B) :
  (2 <= s_n_levels s)%Z ->
  exists l t,
    (init_samplers B a s w).2 = inr l /\
    trace (init_samplers B a s w).1 = trace w ++ t /\
    series 0 (l_aux l) = replicate (s_n_train s) (zero B) /\
    series 1 (l_aux l) = replicate (s_n_train s) (zero B) /\
    series 2 (l_aux l) = replicate (Z.to_nat (s_n_levels s - 1)) (zero B) /\
    (forall j, (0 <= j <= s_n_levels s - 2)%Z ->
               series 2 (l_aux l) !! Z.to_nat j = Some (zero B)) /\
    writes_to 2 t = (fun i => (i - 1, zero B)%Z) <$> range (s_n_levels s - 1).
Proof.
  intros HK. rewrite init_samplers_eq. cbn [fst snd trace].
  exists (init_locals B a s), (init_events B s).
  split; [reflexivity | split; [reflexivity |]].
  cbn [init_locals l_aux].
  destruct (init_aux_series s HK) as (H0 & H1 & H2).
  split; [exact H0 |]. split; [exact H1 |]. split; [exact H2 |]. split.
  - intros j Hj. rewrite H2. apply lookup_replicate_2. lia.
  - unfold init_events. rewrite !writes_to_app, !writes_to_set_events. simpl.
    rewrite app_nil_r. reflexivity.
Qed.

End Initialisation.

(** ** The forest sampler invocations of a run (lines 270-302) *)

Section ForestUpdates.
Context {val : Type} (B : Backend val).

Lemma forest_updates_app (t1 t2 : list (event val)) :
  forest_updates (t1 ++ t2) = forest_updates t1 ++ forest_updates t2.
Proof. apply omap_app. Qed.

Lemma forest_updates_set_events dim f (g : Z -> val) l :
  forest_updates (set_events dim f g l) = [].
Proof. unfold forest_updates, set_events. induction l; csimpl; auto. Qed.

Lemma forest_updates_init s : forest_updates (init_events B s) = [].
Proof.
  unfold init_events. rewrite !forest_updates_app, !forest_updates_set_events.
  reflexivity.
Qed.

Lemma forest_updates_iteration a s i l :
  forest_updates (iteration_events B a s i l) =
  [(keep_sample B s i, gfr_flag B a i, num_threads a)].
Proof.
  unfold iteration_events, update_events, retain_events.
  rewrite !forest_updates_app, forest_updates_set_events.
  destruct (keep_sample B s i), (s_test s); reflexivity.
Qed.

Lemma forest_updates_loop a s todo : forall l,
  forest_updates (loop_events B a s todo l) =
  (fun i => (keep_sample B s i, gfr_flag B a i, num_threads a)) <$> todo.
Proof.
  induction todo as [| i rest IH]; intros l; [reflexivity |].
  cbn [loop_events]. rewrite forest_updates_app, forest_updates_iteration, IH.
  reflexivity.
Qed.

Lemma gfr_flag_spec a i : gfr_flag B a i = bool_decide (num_gfr a <= i)%Z.
Proof.
  unfold gfr_flag. destruct (Z.gtb_spec i (num_gfr a - 1)).
  - rewrite bool_decide_eq_true_2 by lia. reflexivity.
  - rewrite bool_decide_eq_false_2 by lia. reflexivity.
Qed.

(** When the set-up returns, so does [sample]. *)
Lemma sample_returns a (w w1 : world B) s :
  setup B a w = (w1, inr s) -> exists w', sample B a w = (w', inr tt).
Proof.
  intros Es. pose proof (sample_spec B a w) as H. unfold wp in H.
  destruct (sample B a w) as [w' [e | []]] eqn:E; cbn [fst snd] in H.
  - congruence.
  - exists w'. reflexivity.
Qed.

Lemma sample_inr a (w w' : world B) :
  sample B a w = (w', inr tt) ->
  exists w1 s,
    setup B a w = (w1, inr s) /\ setup_ok a w w1 s /\
    let T := (num_gfr a + num_burnin a + num_mcmc a)%Z in
    let l := locals_after B a s (range T) (init_locals B a s) in
    trace w' = trace w ++ init_events B s ++
                 loop_events B a s (range T) (init_locals B a s) /\
    sampled (self w') = true /\
    draws (self w') = Some (l_draws l) /\
    forest_samples (self w') = Some (l_fc l) /\
    rng (self w') = Some (seed a) /\
    counts (self w') = Some (num_gfr a, num_burnin a, num_mcmc a) /\
    n_levels (self w') = Some (s_n_levels s).
Proof. intros E. exact (wp_run _ _ _ _ _ (sample_spec B a w) E). Qed.

(** C4 (the code departs from the claim in the mode flag).  A call of
    [sample] that returns has run [num_gfr + num_burnin + num_mcmc]
    iterations and invoked the forest sampler exactly once in each, in
    iteration order, with [keep_forest] equal to whether the iteration is
    in [keep_idx].  The ninth argument, which the sampler takes as its
    grow-from-root flag, is [True] exactly for the iterations
    [i >= num_gfr], not for the warm-start iterations [i < num_gfr]. *)
Theorem forest_update_once_per_iteration a (w w' : world B) :
  sample B a w = (w', inr tt) ->
  exists keep_idx,
    arange (num_gfr a + num_burnin a)
           (num_gfr a + num_burnin a + num_mcmc a) (n_thin a) = inr keep_idx /\
    forest_updates (trace w') =
    forest_updates (trace w) ++
    ((fun i => (contains keep_idx i, bool_decide (num_gfr a <= i)%Z, num_threads a))
       <$> range (num_gfr a + num_burnin a + num_mcmc a)).
Proof.
  intros E. destruct (sample_inr a w w' E) as (w1 & s & _ & Hok & Ht & _).
  pose proof (setup_ok_arange B a w w1 s Hok) as Har.
  exists (s_keep_idx s). split; [exact Har |].
  rewrite Ht, !forest_updates_app, forest_updates_init, forest_updates_loop.
  simpl. f_equal. apply list_fmap_ext. intros k i _.
  rewrite gfr_flag_spec. reflexivity.
Qed.



End ForestUpdates.

(** ** The order of the steps within an iteration (lines 276-345) *)

Section StepOrder.
Context {val : Type} (B : Backend val).

Lemma init_aux_shape s : length <$> init_aux B s = length <$> fresh_aux B s.
Proof.
  unfold init_aux, gamma_initialised.
  rewrite !write_all_shape, rewrite_series_shape, write_all_shape. reflexivity.
Qed.

Lemma next_aux a s i l : l_aux (next B a s i l) = aux_after B a s i l.
Proof. unfold next. destruct (keep_sample B s i); reflexivity. Qed.

Lemma aux_after_shape a s i l :
  length <$> aux_after B a s i l = length <$> l_aux l.
Proof.
  unfold aux_after, augment, aux_before_latent, aux_with_pred. cbn [fst].
  rewrite !rewrite_series_shape, write_all_shape. reflexivity.
Qed.

Lemma series_1_ready s (d : aux val) :
  length <$> d = length <$> fresh_aux B s ->
  exists s1, d !! 1%nat = Some s1 /\ length s1 = s_n_train s.
Proof.
  intros H. assert ((length <$> d) !! 1%nat = Some (s_n_train s)) as H1.
  { rewrite H. simpl. rewrite length_replicate. reflexivity. }
  rewrite list_lookup_fmap in H1. destruct (d !! 1%nat) as [s1 |]; [| discriminate].
  exists s1. split; [reflexivity |]. simpl in H1. congruence.
Qed.

Lemma predict_rows_nat smp dset n :
  (fun j => forest_predict B smp dset (Z.to_nat (Z.of_nat j))) <$> seq 0 n
  = predict_rows B smp dset n.
Proof.
  unfold predict_rows. apply list_fmap_ext. intros k j _.
  rewrite Nat2Z.id. reflexivity.
Qed.

(** The latent update finds the fresh forest prediction in series 1. *)
Lemma aux_before_latent_pred a s i l :
  length <$> l_aux l = length <$> fresh_aux B s ->
  aux_before_latent B a s i l !! 1%nat
  = Some (predict_rows B (smp_after_forest B a s i l) TrainSet (s_n_train s)).
Proof.
  intros H. destruct (series_1_ready s _ H) as (s1 & Hs1 & Hlen).
  unfold aux_before_latent, aux_with_pred.
  rewrite (write_all_whole 1 _ _ _ s1 Hs1 Hlen).
  rewrite list_lookup_insert_eq by (eapply lookup_lt_Some; exact Hs1).
  rewrite predict_rows_nat. reflexivity.
Qed.

Lemma init_events_setup s : Forall setup_event (init_events B s).
Proof.
  unfold init_events, set_events. rewrite !Forall_app.
  repeat split; try (repeat constructor; fail).
  all: apply Forall_fmap, Forall_forall; intros; exact I.
Qed.

End StepOrder.

(** ** The retention schedule (lines 184-188) *)

Section Schedule.

Lemma arange_progression x y t l :
  arange x y t = inr l ->
  l = (fun j => x + j * t)%Z <$> seqZ 0 (Z.of_nat (length l)).
Proof.
  unfold arange. destruct (t =? 0)%Z; [discriminate |]. intros [= <-].
  rewrite length_fmap, length_seqZ, Z2Nat.id by lia. reflexivity.
Qed.

Lemma ceil_div_pos_lt d t j :
  (0 < t)%Z -> (j < ceil_div d t)%Z -> (j * t < d)%Z.
Proof.
  unfold ceil_div. intros Ht Hj.
  pose proof (Z.mul_succ_div_gt (- d) t Ht). nia.
Qed.

Lemma ceil_div_pos_ge d t : (0 < t)%Z -> (d <= ceil_div d t * t)%Z.
Proof.
  unfold ceil_div. intros Ht. pose proof (Z.mul_div_le (- d) t Ht). nia.
Qed.

Lemma ceil_div_neg d t : (0 <= d)%Z -> (t < 0)%Z -> (ceil_div d t <= 0)%Z.
Proof.
  unfold ceil_div. intros Hd Ht.
  replace t with (- - t)%Z by lia. rewrite Z.div_opp_opp by lia.
  pose proof (Z.div_pos d (- t)). lia.
Qed.

Lemma arange_bounded x y t l :
  arange x y t = inr l -> (x <= y)%Z -> Forall (fun k => x <= k < y)%Z l.
Proof.
  unfold arange. destruct (Z.eqb_spec t 0) as [| Hne]; [discriminate |].
  intros [= <-] Hxy. apply Forall_fmap, Forall_seqZ. intros j Hj. simpl.
  destruct (Z.lt_trichotomy t 0) as [Hneg | [| Hpos]]; [| contradiction |].
  - pose proof (ceil_div_neg (y - x) t). lia.
  - assert (j < ceil_div (y - x) t)%Z as Hjc by lia.
    pose proof (ceil_div_pos_lt (y - x) t j Hpos Hjc). nia.
Qed.

Lemma arange_maximal x y t l :
  arange x y t = inr l -> (0 < t)%Z -> (y <= x + Z.of_nat (length l) * t)%Z.
Proof.
  unfold arange. destruct (t =? 0)%Z; [discriminate |]. intros [= <-] Ht.
  rewrite length_fmap, length_seqZ, Z2Nat.id by lia.
  pose proof (ceil_div_pos_ge (y - x) t Ht). nia.
Qed.

Lemma seqZ_sorted lo n : StronglySorted Z.lt (seqZ lo n).
Proof.
  destruct (Z.le_gt_cases n 0) as [Hn | Hn].
  - rewrite seqZ_nil by lia. constructor.
  - rewrite <- (Z2Nat.id n) by lia. generalize (Z.to_nat n). clear. intros k.
    revert lo. induction k as [| k IH]; intros lo.
    + constructor.
    + rewrite seqZ_cons by lia. constructor.
      * replace (Z.pred (Z.of_nat (S k))) with (Z.of_nat k) by lia. apply IH.
      * apply Forall_seqZ. intros. lia.
Qed.

Lemma arange_sorted x y t l :
  arange x y t = inr l -> (0 < t)%Z -> StronglySorted Z.lt l.
Proof.
  unfold arange. destruct (t =? 0)%Z; [discriminate |]. intros [= <-] Ht.
  apply (StronglySorted_fmap _ Z.lt); [| apply seqZ_sorted].
  intros i j Hij. nia.
Qed.

Lemma arange_nonpos_step x y t l :
  arange x y t = inr l -> (x <= y)%Z -> (t < 0)%Z -> l = [].
Proof.
  unfold arange. destruct (t =? 0)%Z; [discriminate |]. intros [= <-] Hxy Ht.
  pose proof (ceil_div_neg (y - x) t). rewrite seqZ_nil by lia. reflexivity.
Qed.

Lemma filter_elem_of_nil (l : list Z) : filter (fun i => i ∈ @nil Z) l = [].
Proof.
  induction l as [| x l IH]; [reflexivity |].
  rewrite filter_cons_False by apply not_elem_of_nil. exact IH.
Qed.

Lemma filter_elem_of_skip (k : Z) (K l : list Z) :
  k ∉ l -> filter (fun i => i ∈ k :: K) l = filter (fun i => i ∈ K) l.
Proof.
  induction l as [| x l IH]; intros Hk; [reflexivity |].
  apply not_elem_of_cons in Hk as [Hne Hk]. rewrite !filter_cons.
  destruct (decide (x ∈ k :: K)) as [Hin | Hout], (decide (x ∈ K)) as [Hin' | Hout'].
  - f_equal. apply IH, Hk.
  - apply elem_of_cons in Hin as [-> | Hin]; contradiction.
  - exfalso. apply Hout. right. exact Hin'.
  - apply IH, Hk.
Qed.

(** The iterations of an increasing schedule, picked out of the loop's
    range, are the schedule itself. *)
Lemma filter_schedule (n : nat) : forall lo (K : list Z),
  StronglySorted Z.lt K ->
  Forall (fun k => lo <= k < lo + Z.of_nat n)%Z K ->
  filter (fun i => i ∈ K) (seqZ lo (Z.of_nat n)) = K.
Proof.
  induction n as [| n IH]; intros lo K Hs Hb.
  - destruct K as [| k K]; [reflexivity |].
    apply Forall_cons in Hb as [Hk _]. lia.
  - rewrite seqZ_cons by lia.
    replace (Z.pred (Z.of_nat (S n))) with (Z.of_nat n) by lia.
    destruct K as [| k K]; [apply filter_elem_of_nil |].
    apply StronglySorted_cons in Hs as [Hk Hs].
    apply Forall_cons in Hb as [Hkb Hb].
    destruct (decide (k = lo)) as [-> | Hne].
    + rewrite filter_cons_True by left. f_equal.
      rewrite filter_elem_of_skip by (rewrite elem_of_seqZ; lia).
      apply IH; [exact Hs |].
      rewrite Forall_forall in Hk, Hb. apply Forall_forall. intros j Hj.
      specialize (Hk j Hj). specialize (Hb j Hj). lia.
    + rewrite filter_cons_False.
      * apply IH; [constructor; assumption |].
        constructor; [lia |].
        rewrite Forall_forall in Hk, Hb. apply Forall_forall. intros j Hj.
        specialize (Hk j Hj). specialize (Hb j Hj). lia.
      * intros Hin. apply elem_of_cons in Hin as [Heq | Hin]; [lia |].
        rewrite Forall_forall in Hk. specialize (Hk lo Hin). lia.
Qed.

Lemma kept_iterations g b m t (K : list Z) :
  arange (g + b) (g + b + m) t = inr K ->
  (0 <= g)%Z -> (0 <= b)%Z -> (0 <= m)%Z ->
  filter (fun i => i ∈ K) (range (g + b + m)) = K.
Proof.
  intros Har Hg Hb Hm. unfold range.
  destruct (Z.lt_trichotomy t 0) as [Hneg | [-> | Hpos]].
  - rewrite (arange_nonpos_step _ _ _ _ Har) by lia. apply filter_elem_of_nil.
  - discriminate.
  - rewrite <- (Z2Nat.id (g + b + m)) by lia. apply filter_schedule.
    + eapply arange_sorted; eassumption.
    + pose proof (arange_bounded _ _ _ _ Har) as Hbd.
      eapply Forall_impl; [apply Hbd; lia |]. simpl. intros. lia.
Qed.

End Schedule.

(** ** The sample containers after a run (lines 184-198 and 334-345) *)

Section Retention.
Context {val : Type} (B : Backend val).

Lemma locals_after_snoc a s done i l :
  locals_after B a s (done ++ [i]) l = next B a s i (locals_after B a s done l).
Proof. unfold locals_after. rewrite foldl_snoc. reflexivity. Qed.

Lemma counter_after a s done : forall l,
  sample_counter (locals_after B a s done l) =
  (sample_counter l
   + Z.of_nat (length (filter (fun i => i ∈ s_keep_idx s) done)))%Z.
Proof.
  induction done as [| i done IH] using rev_ind; intros l.
  - simpl. lia.
  - rewrite locals_after_snoc, next_counter, IH, filter_snoc_kept.
    destruct (keep_sample B s i); lia.
Qed.

Lemma next_snapshot c a s i l :
  (c = ForestPredTest -> is_Some (s_test s)) ->
  container c (l_draws (next B a s i l)) =
  if keep_sample B s i
  then (fun cols => <[Z.to_nat (sample_counter l + 1) :=
                        Some (snapshot B c s (next B a s i l))]> cols)
         <$> container c (l_draws l)
  else container c (l_draws l).
Proof.
  intros Htest. unfold next. destruct (keep_sample B s i); [| reflexivity].
  cbn [l_draws l_smp l_aux]. unfold retain_pure, container, snapshot.
  destruct c; cbn [forest_pred_train forest_pred_test gamma_samples latent_samples
                   store_pure columns l_smp l_aux]; try reflexivity.
  destruct (s_test s).
  - destruct (forest_pred_test (l_draws l)); reflexivity.
  - destruct (Htest eq_refl) as [? [=]].
Qed.

(** What container [c] holds after the first [k] iterations: the snapshots
    of the retained ones, in iteration order, in its first columns. *)
Lemma container_after c a s (k : nat) l0 cols0 :
  (c = ForestPredTest -> is_Some (s_test s)) ->
  sample_counter l0 = (-1)%Z ->
  container c (l_draws l0) = Some cols0 ->
  length cols0 = length (s_keep_idx s) ->
  let kept := filter (fun i => i ∈ s_keep_idx s) (seqZ 0 (Z.of_nat k)) in
  container c (l_draws (locals_after B a s (seqZ 0 (Z.of_nat k)) l0)) =
  Some (((fun i => Some (snapshot B c s
                           (locals_after B a s (seqZ 0 (i + 1)) l0))) <$> kept)
        ++ drop (length kept) cols0).
Proof.
  intros Htest Hc Hcols Hlen. induction k as [| k IH]; cbn zeta in *.
  - simpl. rewrite drop_0. exact Hcols.
  - assert (seqZ 0 (Z.of_nat (S k)) = seqZ 0 (Z.of_nat k) ++ [Z.of_nat k]) as Hsnoc
      by (rewrite seqZ_S; reflexivity).
    rewrite Hsnoc.
    rewrite locals_after_snoc, next_snapshot by exact Htest.
    rewrite filter_app.
    pose proof (kept_bound B s (seqZ 0 (Z.of_nat k) ++ [Z.of_nat k])) as Hbound.
    rewrite filter_snoc_kept in Hbound.
    assert (NoDup (seqZ 0 (Z.of_nat k) ++ [Z.of_nat k])) as Hnd.
    { rewrite <- Hsnoc. apply NoDup_seqZ. }
    specialize (Hbound Hnd).
    rewrite counter_after, Hc.
    set (kept := filter (fun i => i ∈ s_keep_idx s) (seqZ 0 (Z.of_nat k))) in *.
    destruct (keep_sample B s (Z.of_nat k)) eqn:Ek.
    + apply keep_sample_spec in Ek.
      rewrite filter_cons_True by exact Ek. rewrite filter_nil.
      rewrite IH. cbn [fmap option_fmap option_map]. f_equal.
      replace (Z.to_nat (-1 + Z.of_nat (length kept) + 1)) with (length kept) by lia.
      rewrite insert_app_r_alt by (rewrite length_fmap; lia).
      rewrite length_fmap, Nat.sub_diag, length_app. simpl length.
      destruct (lookup_lt_is_Some_2 cols0 (length kept)) as [y Hy]; [lia |].
      rewrite (drop_S _ _ _ Hy). cbn [insert list_insert].
      rewrite fmap_app, <- app_assoc. cbn [fmap list_fmap app].
      rewrite <- locals_after_snoc, <- Hsnoc.
      replace (length kept + 1)%nat with (S (length kept)) by lia.
      replace (Z.of_nat k + 1)%Z with (Z.of_nat (S k)) by lia. reflexivity.
    + apply keep_sample_false in Ek.
      rewrite filter_cons_False by exact Ek. rewrite filter_nil, app_nil_r.
      exact IH.
Qed.

Lemma column_writes_app c (t1 t2 : list (event val)) :
  column_writes c (t1 ++ t2) = column_writes c t1 ++ column_writes c t2.
Proof. apply omap_app. Qed.

Lemma column_writes_set_events c dim f (g : Z -> val) l :
  column_writes c (set_events dim f g l) = [].
Proof. unfold column_writes, set_events. induction l; csimpl; auto. Qed.

Lemma column_writes_init c s : column_writes c (init_events B s) = [].
Proof.
  unfold init_events. rewrite !column_writes_app, !column_writes_set_events.
  reflexivity.
Qed.

Lemma column_writes_iteration c a s i l :
  (c = ForestPredTest -> is_Some (s_test s)) ->
  column_writes c (iteration_events B a s i l) =
  if keep_sample B s i then [(sample_counter l + 1)%Z] else [].
Proof.
  intros Htest. unfold iteration_events, update_events, retain_events.
  rewrite !column_writes_app, column_writes_set_events.
  destruct (keep_sample B s i); [| reflexivity].
  destruct (s_test s).
  - destruct c; reflexivity.
  - destruct c; try reflexivity. destruct (Htest eq_refl) as [? [=]].
Qed.

Lemma column_writes_loop c a s todo : forall l,
  (c = ForestPredTest -> is_Some (s_test s)) ->
  column_writes c (loop_events B a s todo l) =
  seqZ (sample_counter l + 1)
       (Z.of_nat (length (filter (fun i => i ∈ s_keep_idx s) todo))).
Proof.
  induction todo as [| i rest IH]; intros l Htest; [reflexivity |].
  cbn [loop_events].
  rewrite column_writes_app, column_writes_iteration, IH, next_counter by exact Htest.
  rewrite filter_cons. destruct (keep_sample B s i) eqn:Ek.
  - apply keep_sample_spec in Ek. rewrite decide_True by exact Ek.
    cbn [length]. rewrite (seqZ_cons (sample_counter l + 1)) by lia.
    cbn [app]. do 2 f_equal; lia.
  - apply keep_sample_false in Ek. rewrite decide_False by exact Ek.
    cbn [app]. f_equal. lia.
Qed.

Lemma setup_ok_container c a (w w1 : world B) s :
  setup_ok a w w1 s ->
  (c = ForestPredTest -> is_Some (s_test s)) ->
  container c (s_draws s) = Some (replicate (length (s_keep_idx s)) None).
Proof.
  intros Hok Htest. rewrite (setup_ok_draws B a w w1 s Hok).
  destruct c; try reflexivity. unfold container.
  cbn [forest_pred_test].
  destruct (X_test a) eqn:Ex; [reflexivity |].
  apply (setup_ok_test B a w w1 s Hok) in Htest; [| reflexivity].
  rewrite Ex in Htest. destruct Htest as [? [=]].
Qed.

(** C5, as amended.  After a call that returns, made with non-negative
    iteration counts (they are not validated, and the claim fails without
    this condition):
    [keep_idx] is the arithmetic progression that starts at
    [num_gfr + num_burnin], advances by [n_thin] and stays below
    [num_gfr + num_burnin + num_mcmc] (and, for a positive step, is not
    extensible below that bound); the iterations the loop retains are, in
    order, exactly those of [keep_idx]; every sample container that exists
    has exactly [len(keep_idx)] columns, all of them assigned, column [j]
    holding what the state was at the end of iteration [keep_idx[j]]; and the
    columns were assigned in the order 0, 1, ..., [len(keep_idx) - 1]. *)
Theorem retained_columns_follow_keep_idx a (w w' : world B) :
  sample B a w = (w', inr tt) ->
  (0 <= num_gfr a)%Z -> (0 <= num_burnin a)%Z -> (0 <= num_mcmc a)%Z ->
  let start := (num_gfr a + num_burnin a)%Z in
  let stop := (num_gfr a + num_burnin a + num_mcmc a)%Z in
  exists w1 s keep_idx dr t,
    setup B a w = (w1, inr s) /\
    arange start stop (n_thin a) = inr keep_idx /\
    keep_idx = (fun j => start + j * n_thin a)%Z
                 <$> seqZ 0 (Z.of_nat (length keep_idx)) /\
    Forall (fun k => start <= k < stop)%Z keep_idx /\
    ((0 < n_thin a)%Z -> (stop <= start + Z.of_nat (length keep_idx) * n_thin a)%Z) /\
    filter (fun i => i ∈ keep_idx) (range stop) = keep_idx /\
    draws (self w') = Some dr /\
    trace w' = trace w ++ t /\
    forall c,
      (c = ForestPredTest -> is_Some (X_test a)) ->
      container c dr =
        Some ((fun k => Some (snapshot B c s (state_after B a s k))) <$> keep_idx) /\
      column_writes c t = seqZ 0 (Z.of_nat (length keep_idx)).
Proof.
  intros E Hg Hb Hm. cbn zeta.
  destruct (sample_inr B a w w' E) as (w1 & s & Es & Hok & Ht & _ & Hd & _).
  pose proof (setup_ok_arange B a w w1 s Hok) as Har.
  pose proof (kept_iterations _ _ _ _ _ Har Hg Hb Hm) as Hkept.
  cbn zeta in Ht, Hd.
  assert (0 <= num_gfr a + num_burnin a + num_mcmc a)%Z as Hstop by lia.
  set (start := (num_gfr a + num_burnin a)%Z) in *.
  set (stop := (start + num_mcmc a)%Z) in *.
  exists w1, s, (s_keep_idx s),
    (l_draws (locals_after B a s (range stop) (init_locals B a s))),
    (init_events B s ++ loop_events B a s (range stop) (init_locals B a s)).
  split; [exact Es |]. split; [exact Har |].
  split; [apply (arange_progression _ _ _ _ Har) |].
  split; [apply (arange_bounded _ _ _ _ Har); lia |].
  split; [intros Hpos; apply (arange_maximal _ _ _ _ Har Hpos) |].
  split; [exact Hkept |]. split; [exact Hd |]. split; [exact Ht |].
  intros c Htest.
  assert (c = ForestPredTest -> is_Some (s_test s)) as Htest'.
  { intros Hc. apply (setup_ok_test B a w w1 s Hok), Htest, Hc. }
  split.
  - pose proof (container_after c a s (Z.to_nat stop) (init_locals B a s)
                  (replicate (length (s_keep_idx s)) None)) as Hc.
    cbn zeta in Hc. rewrite Z2Nat.id in Hc by exact Hstop.
    fold (range stop) in Hc. rewrite Hc; try assumption.
    + rewrite Hkept, drop_replicate, Nat.sub_diag, app_nil_r. reflexivity.
    + reflexivity.
    + apply (setup_ok_container c a w w1 s Hok Htest').
    + apply length_replicate.
  - rewrite column_writes_app, column_writes_init, column_writes_loop by exact Htest'.
    cbn [app init_locals sample_counter]. rewrite Hkept. reflexivity.
Qed.

End Retention.

(** ** Positive latent variables (lines 312-317 and 344-345) *)

Section Positivity.

(** An exact draw lies above the lower end of its interval. *)
Lemma truncated_exponential_above lo hi u :
  (0 < u < 1)%R ->
  (forall h, hi = Some h -> (lo < h)%R) ->
  (lo < truncated_exponential lo hi u)%R.
Proof.
  intros Hu Hhi. unfold truncated_exponential.
  set (top := exp (- lo)).
  set (bottom := match hi with Some h => exp (- h) | None => 0%R end).
  assert (0 < top)%R as Htop by apply exp_pos.
  assert (0 <= bottom < top)%R as Hbot.
  { unfold bottom. destruct hi as [h |].
    - split; [left; apply exp_pos |]. apply exp_increasing.
      specialize (Hhi h eq_refl). lra.
    - lra. }
  assert (0 < top - u * (top - bottom) < top)%R as Hw by nra.
  assert (ln top = - lo)%R as Hln by (unfold top; apply ln_exp).
  pose proof (ln_increasing _ _ (proj1 Hw) (proj2 Hw)). lra.
Qed.

Lemma sum_list_snoc l x : sum_list (l ++ [x]) = (sum_list l + x)%R.
Proof.
  unfold sum_list. induction l as [| y l IH]; simpl; [lra |]. rewrite IH. lra.
Qed.

Lemma sum_list_exp_nonneg l : (0 <= sum_list (exp <$> l))%R.
Proof.
  unfold sum_list. induction l as [| y l IH]; [simpl; lra |].
  rewrite fmap_cons. cbn [foldr]. pose proof (exp_pos y). lra.
Qed.

(** A refreshed cumulative series increases from a non-negative start,
    provided it has at most one entry more than there are cutpoints. *)
Lemma refreshed_increasing (d : aux R) (n : nat) :
  (n <= S (length (series 2 d)))%nat ->
  increasing_from_zero (cumulative_exp_sum d <$> seq 0 n).
Proof.
  intros Hn. split.
  - apply Forall_fmap, Forall_forall. intros i _. apply sum_list_exp_nonneg.
  - intros k x y Hx Hy. rewrite list_lookup_fmap in Hx, Hy.
    destruct (decide (S k < n)%nat) as [Hlt | Hge].
    + rewrite lookup_seq_lt in Hx, Hy by lia. simpl in Hx, Hy.
      injection Hx as <-. injection Hy as <-. unfold cumulative_exp_sum.
      destruct (lookup_lt_is_Some_2 (series 2 d) k) as [g Hg]; [lia |].
      rewrite (take_S_r _ _ _ Hg), fmap_app.
      change (exp <$> [g]) with [exp g]. rewrite sum_list_snoc.
      pose proof (exp_pos g). lra.
    + rewrite (lookup_seq_ge _ _ (S k)) in Hy by lia. discriminate.
Qed.

Lemma latent_draw_positive (d : aux R) k i u :
  increasing_from_zero (series 3 d) -> (0 < u < 1)%R ->
  (0 < latent_draw d k i u)%R.
Proof.
  intros [Hpos Hinc] Hu. unfold latent_draw.
  set (c := series 3 d) in *. set (lambda := nth i (series 1 d) 0%R).
  pose proof (exp_pos lambda) as He.
  assert (0 <= nth k c 0)%R as Hk.
  { destruct (nth_lookup_or_length c k 0%R) as [Hl | Hl].
    - rewrite Forall_forall in Hpos. apply Hpos.
      apply list_elem_of_lookup. exists k. exact Hl.
    - rewrite nth_overflow by lia. lra. }
  eapply Rle_lt_trans; [| apply truncated_exponential_above; [exact Hu |]].
  - nra.
  - intros h Hh. destruct (c !! S k) as [y |] eqn:Ey; [| discriminate].
    injection Hh as <-.
    destruct (lookup_lt_is_Some_2 c k) as [x Ex].
    { apply lookup_lt_Some in Ey. lia. }
    rewrite (nth_lookup_Some _ _ _ _ Ex). specialize (Hinc k x y Ex Ey). nra.
Qed.

End Positivity.

Section PositiveChain.
Context (B : Backend R) (HB : follows_spec B).

Lemma series_lengths s (d : aux R) :
  length <$> d = length <$> fresh_aux B s ->
  length (series 0 d) = s_n_train s /\
  length (series 2 d) = Z.to_nat (s_n_levels s - 1) /\
  length (series 3 d) = Z.to_nat (s_n_levels s).
Proof.
  intros H. unfold series.
  assert (forall k n, (length <$> fresh_aux B s) !! k = Some n ->
                      length (default [] (d !! k)) = n) as Hk.
  { intros k n Hn. rewrite <- H, list_lookup_fmap in Hn.
    destruct (d !! k); simpl in *; congruence. }
  repeat split; apply Hk; simpl; rewrite length_replicate; reflexivity.
Qed.

Lemma refresh_ready s (d : aux R) :
  (2 <= s_n_levels s)%Z ->
  length <$> d = length <$> fresh_aux B s ->
  chain_ready B s (rewrite_series 3 (cum_exp_sum B d) d).
Proof.
  intros HK Hshape. split; [rewrite rewrite_series_shape; exact Hshape |].
  destruct (series_lengths s d Hshape) as (_ & H2 & H3).
  unfold series in *. destruct (d !! 3%nat) as [c |] eqn:Ec.
  - rewrite (rewrite_series_same _ _ _ _ Ec). simpl.
    replace (cum_exp_sum B d <$> seq 0 (length c))
      with (cumulative_exp_sum d <$> seq 0 (length c)).
    + apply refreshed_increasing. unfold series. simpl in H3. lia.
    + apply list_fmap_ext. intros. symmetry. apply HB.
  - simpl in H3. lia.
Qed.

Lemma init_ready s : (2 <= s_n_levels s)%Z -> chain_ready B s (init_aux B s).
Proof.
  intros HK. unfold init_aux.
  set (d1 := gamma_initialised B s).
  assert (length <$> d1 = length <$> fresh_aux B s) as H1
    by (unfold d1, gamma_initialised; apply write_all_shape).
  destruct (refresh_ready s d1 HK H1) as [Hs Hi].
  split.
  - rewrite !write_all_shape. exact Hs.
  - unfold series in *. rewrite !write_all_other by lia. exact Hi.
Qed.

(** One iteration keeps the chain ready and leaves positive latent
    variables, one per observation. *)
Lemma iteration_positive a s i l :
  (2 <= s_n_levels s)%Z ->
  chain_ready B s (l_aux l) ->
  chain_ready B s (aux_after B a s i l) /\
  length (series 0 (aux_after B a s i l)) = s_n_train s /\
  Forall (fun z => 0 < z)%R (series 0 (aux_after B a s i l)).
Proof.
  intros HK [Hshape Hinc].
  unfold aux_after, augment. cbn [fst].
  set (d0 := aux_before_latent B a s i l).
  set (r1 := latent_step B d0 (smp_after_forest B a s i l)).
  set (d1 := rewrite_series 0 r1.1 d0).
  set (r2 := gamma_step B (alpha_gamma a) (beta_gamma a) (zero B) d1 r1.2).
  set (d2 := rewrite_series 2 r2.1 d1).
  assert (length <$> d0 = length <$> fresh_aux B s) as H0
    by (unfold d0, aux_before_latent, aux_with_pred; rewrite write_all_shape;
        exact Hshape).
  assert (length <$> d2 = length <$> fresh_aux B s) as H2
    by (unfold d2, d1; rewrite !rewrite_series_shape; exact H0).
  split; [apply refresh_ready; assumption |].
  assert (series 0 (rewrite_series 3 (cum_exp_sum B d2) d2) = series 0 d1) as ->.
  { unfold series, d2. rewrite !rewrite_series_other by lia. reflexivity. }
  destruct (series_lengths s d0 H0) as (Hn & _ & _).
  unfold series in Hn |- *. unfold d1.
  destruct (d0 !! 0%nat) as [z0 |] eqn:Ez.
  - rewrite (rewrite_series_same _ _ _ _ Ez). simpl in *.
    rewrite length_fmap, length_seq. split; [exact Hn |].
    apply Forall_fmap, Forall_forall. intros j _. simpl. unfold r1.
    destruct (proj1 HB d0 (smp_after_forest B a s i l) j) as (k & u & Hu & ->).
    apply latent_draw_positive; [| exact Hu].
    unfold series, d0, aux_before_latent, aux_with_pred.
    rewrite write_all_other by lia. exact Hinc.
  - unfold rewrite_series. rewrite Ez, Ez. simpl in *.
    split; [exact Hn | constructor].
Qed.

Lemma chain_stays_ready a s done :
  (2 <= s_n_levels s)%Z ->
  chain_ready B s (l_aux (locals_after B a s done (init_locals B a s))).
Proof.
  intros HK. induction done as [| i done IH] using rev_ind.
  - apply init_ready, HK.
  - rewrite locals_after_snoc, next_aux.
    apply (iteration_positive a s i _ HK IH).
Qed.

Lemma state_after_positive a s k :
  (2 <= s_n_levels s)%Z -> (0 <= k)%Z ->
  length (series 0 (l_aux (state_after B a s k))) = s_n_train s /\
  Forall (fun z => 0 < z)%R (series 0 (l_aux (state_after B a s k))).
Proof.
  intros HK Hk. unfold state_after, range.
  rewrite <- (Z2Nat.id k) by exact Hk.
  replace (Z.of_nat (Z.to_nat k) + 1)%Z with (Z.of_nat (S (Z.to_nat k))) by lia.
  rewrite seqZ_S, locals_after_snoc, next_aux.
  apply (iteration_positive a s _ _ HK), chain_stays_ready, HK.
Qed.

End PositiveChain.

(** ** Worked examples on the executable backend *)


Lemma auxiliary_slots_start_at_zero_witness :
  exists l t,
    (init_samplers toy binary_args binary_setup fresh).2 = inr l /\
    trace (init_samplers toy binary_args binary_setup fresh).1 = trace fresh ++ t /\
    series 0 (l_aux l) = replicate (s_n_train binary_setup) (zero toy) /\
    series 1 (l_aux l) = replicate (s_n_train binary_setup) (zero toy) /\
    series 2 (l_aux l)
    = replicate (Z.to_nat (s_n_levels binary_setup - 1)) (zero toy) /\
    (forall j, (0 <= j <= s_n_levels binary_setup - 2)%Z ->
               series 2 (l_aux l) !! Z.to_nat j = Some (zero toy)) /\
    writes_to 2 t
    = (fun i => (i - 1, zero toy)%Z) <$> range (s_n_levels binary_setup - 1).
Proof.
  apply (auxiliary_slots_start_at_zero toy binary_args binary_setup fresh).
  simpl. lia.
Defined.

(** C2 at two categories: the only cutpoint write goes to index -1, and
    the only cutpoint slot holds the 0 it was added with. *)
Example gamma_initialisation_two_categories :
  writes_to 2 (trace (init_samplers toy binary_args binary_setup fresh).1)
  = [((-1)%Z, 0%Z)] /\
  match (init_samplers toy binary_args binary_setup fresh).2 with
  | inr l => l_aux l
  | inl _ => []
  end = [[0; 0; 0]; [0; 0; 0]; [0]; [0; 1]]%Z.
Proof. split; vm_compute; reflexivity. Qed.

Lemma forest_update_once_per_iteration_witness :
  exists keep_idx,
    arange (num_gfr (demo_args 1 1 3 2) + num_burnin (demo_args 1 1 3 2))
           (num_gfr (demo_args 1 1 3 2) + num_burnin (demo_args 1 1 3 2)
            + num_mcmc (demo_args 1 1 3 2)) (n_thin (demo_args 1 1 3 2))
    = inr keep_idx /\
    forest_updates (trace (sample toy (demo_args 1 1 3 2) fresh).1) =
    forest_updates (trace fresh) ++
    ((fun i => (contains keep_idx i,
                bool_decide (num_gfr (demo_args 1 1 3 2) <= i)%Z,
                num_threads (demo_args 1 1 3 2)))
       <$> range (num_gfr (demo_args 1 1 3 2) + num_burnin (demo_args 1 1 3 2)
                  + num_mcmc (demo_args 1 1 3 2))).
Proof.
  apply (forest_update_once_per_iteration toy (demo_args 1 1 3 2) fresh).
  vm_compute. reflexivity.
Defined.

(** C4 with one warm-start, one burn-in and three retained iterations,
    thinned by two: the warm-start iteration 0 passes [gfr = False] and every
    later iteration passes [gfr = True]. *)
Example forest_update_flags_demo :
  forest_updates (trace (sample toy (demo_args 1 1 3 2) fresh).1)
  = [(false, false, 1%Z); (false, true, 1%Z); (true, true, 1%Z);
     (false, true, 1%Z); (true, true, 1%Z)].
Proof. vm_compute. reflexivity. Qed.


Lemma predict_before_sample_is_not_sampled_error_witness :
  exists msg,
    (predict toy (@XArray unit [4; 2]%nat tt)
             (run_calls failed_history (mkWorld new_model [])).1).2
    = inl (NotSampledError msg) /\
    forall msg', NotSampledError msg <> ValueError msg'.
Proof.
  apply (predict_before_sample_is_not_sampled_error toy failed_history []).
  vm_compute. reflexivity.
Defined.

(** C10: the largest int64 as the only outcome value.  [max + 1] wraps to
    [-2^63], so the fewer-than-two-categories error is raised although the
    outcome value is not 0. *)
Lemma too_few_categories_without_all_zero :
  (sample toy huge_class_args fresh).2 = inl too_few_categories /\
  n_levels (self (sample toy huge_class_args fresh).1) = Some (- 2 ^ 63)%Z /\
  ~ Forall (eq 0%Z) [9223372036854775807%Z].
Proof.
  split; [vm_compute; reflexivity |]. split; [vm_compute; reflexivity |].
  intros H. apply Forall_cons in H as [H _]. discriminate.
Qed.

Lemma n_levels_is_max_plus_one_witness :
  (forall K, (determine_n_levels toy np_int64 [0; 2]%Z fresh).2 = inr K ->
     np_max [0; 2]%Z = inr (K - 1)%Z /\ (2 <= K)%Z /\
     n_levels (self (determine_n_levels toy np_int64 [0; 2]%Z fresh).1) = Some K /\
     Forall (fun v => 0 <= v <= K - 1)%Z [0; 2]%Z) /\
  ([0; 2]%Z <> [] -> Forall (fun v => v < dtype_max np_int64)%Z [0; 2]%Z ->
     ((determine_n_levels toy np_int64 [0; 2]%Z fresh).2 = inl too_few_categories <->
      Forall (eq 0%Z) [0; 2]%Z)).
Proof.
  apply (n_levels_is_max_plus_one toy np_int64 [0; 2]%Z fresh).
  repeat constructor; vm_compute; discriminate.
Defined.

(** C10: outcomes [{0, 2}] give three categories. *)
Example categories_with_a_gap :
  (determine_n_levels toy np_int64 [0; 2]%Z fresh).2 = inr 3%Z.
Proof. reflexivity. Qed.

(** C3 and C5 on the same call: iterations 2 and 4 are retained, into
    columns 0 and 1; the latent update of iteration 2 finds the prediction
    [30; 31; 32; 33] that the forest returned after the third update. *)
Example retained_demo :
  (arange 2 5 2 = inr [2; 4]%Z) /\
  column_writes LatentSamples (trace (sample toy (demo_args 1 1 3 2) fresh).1)
  = [0; 1]%Z /\
  (latent_samples <$> draws (self (sample toy (demo_args 1 1 3 2) fresh).1))
  = Some (Matrix 4 [Some [301; 302; 303; 304]; Some [501; 502; 503; 504]]%Z) /\
  EUpdateLatentVariables (Some [30; 31; 32; 33]%Z)
    ∈ trace (sample toy (demo_args 1 1 3 2) fresh).1.
Proof.
  split; [reflexivity |]. split; [vm_compute; reflexivity |].
  split; [vm_compute; reflexivity |].
  apply list_elem_of_In. vm_compute. tauto.
Qed.

Lemma retained_columns_follow_keep_idx_witness :
  let a := demo_args 1 1 3 2 in
  let start := (num_gfr a + num_burnin a)%Z in
  let stop := (num_gfr a + num_burnin a + num_mcmc a)%Z in
  exists w1 s keep_idx dr t,
    setup toy a fresh = (w1, inr s) /\
    arange start stop (n_thin a) = inr keep_idx /\
    keep_idx = (fun j => start + j * n_thin a)%Z
                 <$> seqZ 0 (Z.of_nat (length keep_idx)) /\
    Forall (fun k => start <= k < stop)%Z keep_idx /\
    ((0 < n_thin a)%Z -> (stop <= start + Z.of_nat (length keep_idx) * n_thin a)%Z) /\
    filter (fun i => i ∈ keep_idx) (range stop) = keep_idx /\
    draws (self (sample toy a fresh).1) = Some dr /\
    trace (sample toy a fresh).1 = trace fresh ++ t /\
    forall c,
      (c = ForestPredTest -> is_Some (X_test a)) ->
      container c dr =
        Some ((fun k => Some (snapshot toy c s (state_after toy a s k))) <$> keep_idx) /\
      column_writes c t = seqZ 0 (Z.of_nat (length keep_idx)).
Proof.
  apply (retained_columns_follow_keep_idx toy (demo_args 1 1 3 2) fresh).
  - vm_compute. reflexivity.
  - vm_compute. discriminate.
  - vm_compute. discriminate.
  - vm_compute. discriminate.
Defined.

Lemma real_toy_follows_spec : follows_spec real_toy.
Proof.
  split.
  - intros d smp i. exists 0%nat, (1 / 2)%R. split; [lra | reflexivity].
  - reflexivity.
Qed.


(** * Further properties of the driver

    Properties of [sample], [predict] and [is_sampled] beyond the ones
    above: how a call ends for each kind of input, what a failed call
    leaves behind, how many draws are retained, what the store and the
    sample containers hold, and how the two methods compose. *)

(** ** Outcomes of the set-up part *)

Section SetupOutcomes.
Context {val : Type} (B : Backend val).

(** Where the set-up leaves the model object when it raises: untouched,
    or, for the three late failures, with the preprocessor and the data
    dimensions of the failing call. *)
Lemma setup_failure a (w : world B) :
  wp (setup B a)
     (fun w' r => forall e, r = inl e ->
        (w' = w /\ ~ late_failure e) \/
        (late_failure e /\
         _covariate_preprocessor (self w') = Some (fit B (X_train a)) /\
         exists ny nt,
           dims (self w') =
             Some (mkDims (test_given B a) ny nt
                     (ncols_of B (transform B (fit B (X_train a)) (X_train a)))))) w.
Proof.
  unfold setup, determine_n_levels.
  repeat wp_step.
  all: intros e' [= <-] || (intros e' [=]).
  all: repeat match goal with
              | H : shape_at _ _ = inl _ |- _ =>
                  unfold shape_at in H;
                  destruct (_ !! _) in H; [discriminate | injection H as <-]
              end.
  all: try (left; split;
            [destruct w; reflexivity
            | unfold late_failure, too_few_categories;
              intros [? | [? | ?]]; discriminate]).
  all: right; unfold late_failure, test_given.
  all: repeat match goal with
              | H : X_test _ = _ |- _ => rewrite !H
              end.
  all: cbn [self _covariate_preprocessor dims set_dims set_preprocessor set_n_levels].
  all: (split; [| split; [reflexivity | do 2 eexists; reflexivity]]).
  all: try (right; left; reflexivity).
  all: try (match goal with
            | H : np_max ?d = inl _ |- _ =>
                destruct d; [injection H as <- | discriminate]
            end; left; reflexivity).
  all: try (match goal with
            | H : arange _ _ _ = inl _ |- _ =>
                unfold arange in H;
                destruct (_ =? _)%Z; [injection H as <- | discriminate]
            end; right; right; reflexivity).
Qed.


(** The main loop and the last statement leave the preprocessor and the
    data dimensions as the set-up assigned them. *)
Lemma sample_keeps_setup_attrs a (w w1 w' : world B) s :
  setup B a w = (w1, inr s) ->
  sample B a w = (w', inr tt) ->
  _covariate_preprocessor (self w') = _covariate_preprocessor (self w1) /\
  dims (self w') = dims (self w1).
Proof.
  intros Es E.
  pose proof (wp_run _ _ _ _ _ (setup_returns B a w) Es) as Hret.
  cbn beta iota in Hret.
  unfold sample, bind in E. rewrite Es, init_samplers_eq in E.
  unfold main_loop in E.
  match type of E with
  | context [for_each ?todo ?body ?l ?w0] =>
      pose proof (loop_spec B a s todo [] l w0) as Hloop
  end.
  unfold wp in Hloop.
  destruct (for_each _ _ _ _) as [w2 [e | l2]] eqn:El; [discriminate |].
  injection E as <-.
  cbn [fst snd self sampled set_sampled _covariate_preprocessor dims] in *.
  destruct Hloop as (Hs & _).
  - simpl. apply NoDup_seqZ.
  - reflexivity.
  - apply (setup_ok_cols B a w w1 s Hret).
  - reflexivity.
  - cbn [self draws set_forest_samples set_rng init_locals l_draws].
    destruct Hret as (? & ? & ? & ? & H). apply H.
  - unfold fixed_attrs in Hs.
    cbn [self _covariate_preprocessor dims set_forest_samples set_rng] in Hs.
    split; congruence.
Qed.

End SetupOutcomes.

(** ** What a failed call leaves behind (lines 88-188) *)

Section FailedCalls.
Context {val : Type} (B : Backend val).


End FailedCalls.

(** ** The [sampled] flag along a history of calls (lines 31, 348, 698) *)

Section Flag.
Context {val : Type} (B : Backend val).

Lemma run_call_flag c (w : world B) :
  sampled (self (run_call c w).1) = sampled (self w) || (run_call c w).2.
Proof.
  destruct c as [a | X]; simpl.
  - pose proof (sample_spec B a w) as H. unfold wp in H.
    destruct (sample B a w) as [w' [e | []]]; simpl in *.
    + destruct (wp_run _ _ _ _ _ (setup_raises B a w) H e eq_refl) as (_ & Hss & _).
      unfold sampling_state in Hss. rewrite orb_false_r. congruence.
    + destruct H as (? & ? & _ & _ & _ & -> & _). rewrite orb_true_r. reflexivity.
  - rewrite predict_world, orb_false_r. reflexivity.
Qed.

(** X2.  Along any history of [sample] and [predict] calls on a model
    object, the [sampled] flag is never reset: after the history it is set
    exactly when it was set before or some [sample] call of the history
    returned normally.  On an object fresh from [__init__], [is_sampled]
    therefore tells whether a [sample] call has returned. *)
Theorem sampled_flag_follows_history (cs : list (@call val B)) :
  forall w : world B,
    sampled (self (run_calls cs w).1) = sampled (self w) || (run_calls cs w).2 /\
    (is_sampled B (run_calls cs w).1).2
      = inr (sampled (self w) || (run_calls cs w).2).
Proof.
  assert (forall w : world B,
            sampled (self (run_calls cs w).1)
            = sampled (self w) || (run_calls cs w).2) as Hflag.
  { induction cs as [| c cs IH]; intros w; simpl.
    - rewrite orb_false_r. reflexivity.
    - pose proof (run_call_flag c w) as Hc.
      destruct (run_call c w) as [w1 d1]. simpl in Hc.
      specialize (IH w1). destruct (run_calls cs w1) as [w2 d2]. simpl in *.
      rewrite IH, Hc, orb_assoc. reflexivity. }
  intros w. split; [apply Hflag |].
  unfold is_sampled, bind, get_self, ret. simpl. rewrite Hflag. reflexivity.
Qed.

End Flag.

(** ** [predict] on a sampled model (lines 350-412) *)

Section PredictAfterSample.
Context {val : Type} (B : Backend val).

Lemma predict_sampled X (w : world B) pp fc :
  sampled (self w) = true ->
  _covariate_preprocessor (self w) = Some pp ->
  forest_samples (self w) = Some fc ->
  predict B X w =
  (w, match X with
      | XOther => inl (ValueError "X must be a pandas dataframe or numpy array")
      | _ => inr (container_predict B fc (transform B pp X))
      end).
Proof.
  intros Hs Hp Hf. unfold predict, is_sampled, bind, get_self, when, ret, raise.
  rewrite Hs. simpl. destruct X; simpl; try reflexivity; rewrite Hp, Hf; reflexivity.
Qed.

(** X4.  A [sample] call that fails after preprocessing (empty outcome
    array, fewer than two categories, zero thinning interval) on a model
    that was sampled before leaves it sampled, with the forests of the
    earlier fit but with the preprocessor of the failed call: [predict]
    then runs the old forests on covariates transformed by the new
    preprocessor. *)
Theorem predict_after_failed_refit a (w w' : world B) e fc X :
  sampled (self w) = true ->
  forest_samples (self w) = Some fc ->
  sample B a w = (w', inl e) ->
  late_failure e ->
  X <> XOther ->
  predict B X w' =
  (w', inr (container_predict B fc (transform B (fit B (X_train a)) X))).
Proof.
  intros Hs Hf E Hlate HX.
  pose proof (wp_run _ _ _ _ _ (sample_spec B a w) E) as Es.
  cbn beta iota in Es.
  destruct (wp_run _ _ _ _ _ (setup_raises B a w) Es e eq_refl) as (_ & Hss & _).
  unfold sampling_state in Hss.
  assert (sampled (self w') = true) as Hs' by congruence.
  assert (forest_samples (self w') = Some fc) as Hf' by congruence.
  assert (_covariate_preprocessor (self w') = Some (fit B (X_train a))) as Hp.
  { destruct (wp_run _ _ _ _ _ (setup_failure B a w) Es e eq_refl)
      as [[_ Hno] | (_ & Hp & _)]; [contradiction | exact Hp]. }
  rewrite (predict_sampled X w' _ fc Hs' Hp Hf').
  destruct X; [reflexivity | reflexivity | contradiction].
Qed.

End PredictAfterSample.
Section InputOutcomes.
Context {val : Type} (B : Backend val).

Lemma exists_neg_Forall (d : list Z) :
  Forall (fun v => 0 <= v)%Z d -> existsb (fun v => v <? 0)%Z d = false.
Proof.
  induction 1 as [| x l Hx _ IH]; [reflexivity |]. simpl. rewrite IH.
  destruct (Z.ltb_spec x 0); [lia | reflexivity].
Qed.

Lemma np_max_positive d m :
  Exists (fun v => 0 < v)%Z d -> np_max d = inr m -> (1 <= m)%Z.
Proof.
  intros Hex Hm. apply Exists_exists in Hex as (v & Hv & Hpos).
  destruct (np_max_spec d m Hm) as [_ Hle].
  rewrite Forall_forall in Hle. specialize (Hle v Hv). lia.
Qed.

End InputOutcomes.

(** After the set-up has been run symbolically under [data_ok]: bring
    the facts about the arguments into the form the path conditions have. *)
Ltac data_norm Hx Ht Hy :=
  cbn [cov_shape] in Hx;
  try match type of Ht with
      | forall xt, Some ?x = Some xt -> _ =>
          let m := fresh "m" in
          let Hm := fresh "Hm" in
          destruct (Ht _ eq_refl) as [m Hm]; cbn [cov_shape] in Hm
      end;
  let sh := fresh "sh" in
  let Hy1 := fresh "Hy1" in
  let Hy2 := fresh "Hy2" in
  destruct Hy as (sh & Hy1 & Hy2);
  first [discriminate Hy1 | injection Hy1 as -> -> ->];
  repeat match goal with
         | H : shape_at _ _ = inr _ |- _ => apply shape_at_inr in H
         | H : shape_at _ _ = inl _ |- _ => apply shape_at_inl in H
         | H : negb _ = true |- _ => apply negb_true_iff in H
         | H : negb _ = false |- _ => apply negb_false_iff in H
         | H : (_ =? _)%nat = false |- _ => apply Nat.eqb_neq in H
         | H : (_ =? _)%nat = true |- _ => apply Nat.eqb_eq in H
         end;
  cbn [cov_shape] in *;
  repeat match goal with
         | H : expand_if_1d ?s = [_; _], H' : context [expand_if_1d ?s !! _] |- _ =>
             rewrite H in H'
         | H : expand_if_1d ?s = [_; _], H' : context [length (expand_if_1d ?s)] |- _ =>
             rewrite H in H'
         end.

(** The leaves of the set-up run symbolically under [data_ok]: those behind
    a failed data check go away, the others get their path conditions in
    terms of [n], [p], [dt] and [d]. *)
Ltac setup_norm Hx Ht Hy Hpos :=
  try discriminate Hx;
  try (destruct (Ht _ eq_refl) as [? Hm]; discriminate Hm);
  try (destruct Hy as (? & Hy1 & _); discriminate Hy1);
  data_norm Hx Ht Hy;
  try (exfalso; congruence);
  try (exfalso; rewrite (exists_neg_Forall _ Hpos) in *; discriminate);
  simplify_eq/=;
  try (exfalso; congruence).

Ltac arange_leaf :=
  match goal with
  | H : arange _ _ ?t = _ |- _ =>
      unfold arange in H; destruct (Z.eqb_spec t 0);
      [try contradiction | try lia]; simplify_eq
  end.

Section InputOutcomes2.
Context {val : Type} (B : Backend val).

Lemma setup_accepts a (w : world B) n p dt d :
  data_ok B a n p dt d -> weights_ok B a p -> several_categories dt d ->
  n_thin a <> 0%Z ->
  wp (setup B a) (fun w' r => exists s, r = inr s) w.
Proof.
  intros (Hx & Ht & Hy & Hint & Hpos) (Hw0 & Hw) (Hex & Hmax) Hthin.
  unfold initial_weights in Hw.
  unfold setup, determine_n_levels.
  repeat wp_step.
  all: try (eexists; reflexivity).
  all: setup_norm Hx Ht Hy Hpos.
  all: exfalso.
  all: try (apply (Hw0 eq_refl); reflexivity).
  all: try (arange_leaf; fail).
  all: try match goal with
           | H : np_max ?d = inl _ |- _ =>
               destruct d; [inversion Hex | discriminate]
           end.
  all: try match goal with
           | H : np_max ?d = inr ?m, H' : (scalar_succ _ ?m <? 2)%Z = true |- _ =>
               pose proof (np_max_positive d m Hex H);
               destruct (np_max_spec d m H) as [Hin _];
               rewrite Forall_forall in Hmax; specialize (Hmax m Hin);
               rewrite scalar_succ_small in H' by lia;
               apply Z.ltb_lt in H'; lia
           end.
Qed.

Lemma setup_negative_weights a (w : world B) n p dt d :
  data_ok B a n p dt d ->
  existsb (is_negative B) (initial_weights B a p) = true ->
  wp (setup B a)
     (fun w' r =>
        w' = w /\
        r = inl (ValueError "variable_weights cannot have any negative weights")) w.
Proof.
  intros (Hx & Ht & Hy & Hint & Hpos) Hneg.
  unfold initial_weights in Hneg.
  unfold setup, determine_n_levels.
  repeat wp_step.
  all: setup_norm Hx Ht Hy Hpos.
  all: try (split; [destruct w; reflexivity | reflexivity]).
  all: exfalso; congruence.
Qed.

Lemma setup_no_columns a (w : world B) n dt d :
  data_ok B a n 0 dt d ->
  variable_weights a = None ->
  wp (setup B a)
     (fun w' r =>
        w' = w /\ r = inl (ZeroDivisionError "float division by zero")) w.
Proof.
  intros (Hx & Ht & Hy & Hint & Hpos) Hnone.
  unfold setup, determine_n_levels.
  repeat wp_step.
  all: setup_norm Hx Ht Hy Hpos.
  all: try (split; [destruct w; reflexivity | reflexivity]).
Qed.


Lemma setup_scalar_outcome a (w : world B) n p dt d :
  cov_shape (X_train a) = [n; p] ->
  (forall xt, X_test a = Some xt -> exists m, cov_shape xt = [m; p]) ->
  y_train a = YArray dt [] d ->
  is_int_dtype dt = true ->
  Forall (fun v => 0 <= v)%Z d ->
  wp (setup B a)
     (fun w' r => w' = w /\ r = inl (IndexError "tuple index out of range")) w.
Proof.
  intros Hx Ht Hy0 Hint Hpos.
  assert (exists sh, y_train a = YArray dt sh d /\ sh = []) as Hy by eauto.
  clear Hy0.
  unfold setup, determine_n_levels.
  repeat wp_step.
  all: try discriminate Hx.
  all: try (destruct (Ht _ eq_refl) as [? Hm]; discriminate Hm).
  all: try (destruct Hy as (? & Hy1 & _); discriminate Hy1).
  all: destruct Hy as (sh & Hy1 & Hsh); subst sh; injection Hy1 as -> -> ->.
  all: repeat match goal with
              | H : shape_at _ _ = inr _ |- _ => apply shape_at_inr in H
              | H : shape_at _ _ = inl _ |- _ =>
                  unfold shape_at in H;
                  destruct (_ !! _) eqn:? in H; [discriminate | injection H as <-]
              end.
  all: try discriminate.
  all: try (split; [destruct w; reflexivity | reflexivity]).
  all: exfalso.
  all: cbn [cov_shape] in Hx.
  all: try (destruct (Ht _ eq_refl) as [? Hm]; cbn [cov_shape] in Hm).
  all: repeat match goal with
              | H : negb _ = true |- _ => apply negb_true_iff in H
              | H : (_ =? _)%nat = false |- _ => apply Nat.eqb_neq in H
              end.
  all: try congruence.
  all: try (rewrite (exists_neg_Forall _ Hpos) in *; discriminate).
  all: cbn [cov_shape] in *.
  all: repeat match goal with
         | H : expand_if_1d ?s = [_; _], H' : context [expand_if_1d ?s !! _] |- _ =>
             rewrite H in H'
         end.
  all: simplify_eq/=; try congruence.
Qed.

End InputOutcomes2.
(** ** How a call ends, by kind of input (lines 88-188) *)

Section InputKinds.
Context {val : Type} (B : Backend val).


(** X6.  A negative variable weight, given by the caller, makes [sample]
    raise the [ValueError] of line 133 once the data have passed their
    checks, with the model object untouched. *)
Theorem negative_weights_are_rejected a (w : world B) n p dt d :
  data_ok B a n p dt d ->
  existsb (is_negative B) (initial_weights B a p) = true ->
  sample B a w =
  (w, inl (ValueError "variable_weights cannot have any negative weights")).
Proof.
  intros Hd Hneg.
  pose proof (setup_negative_weights B a w n p dt d Hd Hneg) as Hs. unfold wp in Hs.
  destruct (setup B a w) as [w1 r] eqn:Es. cbn [fst snd] in Hs.
  destruct Hs as [-> ->]. apply sample_setup_raises, Es.
Qed.


(** X8.  A covariate table without columns, with the default weights,
    makes [sample] raise [ZeroDivisionError] (the division [1.0 / p] of
    line 129), not a validation error; the model object is untouched. *)
Theorem no_covariate_columns_divides_by_zero a (w : world B) n dt d :
  data_ok B a n 0 dt d ->
  variable_weights a = None ->
  sample B a w = (w, inl (ZeroDivisionError "float division by zero")).
Proof.
  intros Hd Hnone.
  pose proof (setup_no_columns B a w n dt d Hd Hnone) as Hs. unfold wp in Hs.
  destruct (setup B a w) as [w1 r] eqn:Es. cbn [fst snd] in Hs.
  destruct Hs as [-> ->]. apply sample_setup_raises, Es.
Qed.

(** X9.  A zero-dimensional integer outcome array passes the type checks
    and then fails in [y_train.shape[0]] (line 122) with [IndexError], not
    with a [ValueError]; the model object is untouched. *)
Theorem scalar_outcome_raises_index_error a (w : world B) n p dt d :
  cov_shape (X_train a) = [n; p] ->
  (forall xt, X_test a = Some xt -> exists m, cov_shape xt = [m; p]) ->
  y_train a = YArray dt [] d ->
  is_int_dtype dt = true ->
  Forall (fun v => 0 <= v)%Z d ->
  sample B a w = (w, inl (IndexError "tuple index out of range")).
Proof.
  intros Hx Ht Hy Hint Hpos.
  pose proof (setup_scalar_outcome B a w n p dt d Hx Ht Hy Hint Hpos) as Hs.
  unfold wp in Hs.
  destruct (setup B a w) as [w1 r] eqn:Es. cbn [fst snd] in Hs.
  destruct Hs as [-> ->]. apply sample_setup_raises, Es.
Qed.

End InputKinds.
(** ** The retention schedule for any arguments (lines 184-198, 270-345) *)

Section ScheduleFacts.

Lemma ceil_div_formula d t :
  (0 < t)%Z -> ceil_div d t = ((d + t - 1) / t)%Z.
Proof.
  intros Ht. unfold ceil_div.
  apply (Z.div_unique_pos _ _ _ (t - 1 - (- d) mod t)).
  - pose proof (Z.mod_pos_bound (- d) t Ht). lia.
  - pose proof (Z.div_mod (- d) t). lia.
Qed.

Lemma arange_length x y t l :
  arange x y t = inr l -> (0 < t)%Z -> (x <= y)%Z ->
  Z.of_nat (length l) = ((y - x + t - 1) / t)%Z.
Proof.
  unfold arange. destruct (t =? 0)%Z; [discriminate |]. intros [= <-] Ht Hxy.
  rewrite length_fmap, length_seqZ, ceil_div_formula by exact Ht.
  assert (0 <= (y - x + t - 1) / t)%Z by (apply Z.div_pos; lia).
  lia.
Qed.

(** With a negative step the elements lie above the stop value. *)
Lemma arange_negative_step x y t l :
  arange x y t = inr l -> (t < 0)%Z -> Forall (fun k => y < k)%Z l.
Proof.
  unfold arange. destruct (t =? 0)%Z; [discriminate |]. intros [= <-] Ht.
  apply Forall_fmap, Forall_seqZ. intros j Hj. simpl.
  assert (j < ceil_div (y - x) t)%Z as Hjc by lia.
  unfold ceil_div in Hjc.
  assert (- (y - x) = (x - y))%Z as Heq by lia. rewrite Heq in Hjc.
  assert ((x - y) / t = (y - x) / (- t))%Z as Hdiv.
  { rewrite <- (Z.div_opp_opp (x - y) t) by lia. f_equal. lia. }
  rewrite Hdiv in Hjc.
  assert (0 < - t)%Z as Hpos by lia.
  pose proof (Z.mul_div_le (y - x) (- t) Hpos).
  pose proof (Z.mul_succ_div_gt (y - x) (- t) Hpos).
  nia.
Qed.

Lemma filter_none (K l : list Z) :
  Forall (fun i => i ∉ K) l -> filter (fun i => i ∈ K) l = [].
Proof.
  induction 1 as [| x l Hx _ IH]; [reflexivity |].
  rewrite filter_cons_False by exact Hx. exact IH.
Qed.

Lemma seqZ_to_nat lo n : seqZ lo (Z.of_nat (Z.to_nat n)) = seqZ lo n.
Proof. unfold seqZ. rewrite Nat2Z.id. reflexivity. Qed.

End ScheduleFacts.

Section RetentionFacts.
Context {val : Type} (B : Backend val).

Lemma locals_after_cols_ok a s done : forall l,
  cols_ok B s (l_draws l) -> cols_ok B s (l_draws (locals_after B a s done l)).
Proof.
  induction done as [| i done IH] using rev_ind; intros l H; [exact H |].
  rewrite locals_after_snoc. apply next_cols_ok, IH, H.
Qed.

Lemma locals_after_shape a s done : forall l,
  length <$> l_aux (locals_after B a s done l) = length <$> l_aux l.
Proof.
  induction done as [| i done IH] using rev_ind; intros l; [reflexivity |].
  rewrite locals_after_snoc, next_aux, aux_after_shape. apply IH.
Qed.

Lemma store_lengths s (d : aux val) :
  length <$> d = length <$> fresh_aux B s ->
  length (series 0 d) = s_n_train s /\
  length (series 1 d) = s_n_train s /\
  length (series 2 d) = Z.to_nat (s_n_levels s - 1) /\
  length (series 3 d) = Z.to_nat (s_n_levels s).
Proof.
  intros H. unfold series.
  assert (forall k n, (length <$> fresh_aux B s) !! k = Some n ->
                      length (default [] (d !! k)) = n) as Hk.
  { intros k n Hn. rewrite <- H, list_lookup_fmap in Hn.
    destruct (d !! k); simpl in *; congruence. }
  repeat split; apply Hk; simpl; rewrite length_replicate; reflexivity.
Qed.

Lemma cols_ok_container c s dr cols :
  cols_ok B s dr ->
  (c = ForestPredTest -> is_Some (s_test s)) ->
  container c dr = Some cols -> length cols = length (s_keep_idx s).
Proof.
  intros (H1 & H2 & H3 & H4) Htest Hc. destruct c; simpl in Hc.
  - congruence.
  - destruct (Htest eq_refl) as [t Ht]. rewrite Ht in H4.
    destruct H4 as (m & Hm & Hlen). rewrite Hm in Hc. simpl in Hc. congruence.
  - congruence.
  - congruence.
Qed.

(** The containers after a run, for any iteration counts. *)
Lemma containers_after_run c a (w w1 : world B) s :
  setup_ok a w w1 s ->
  (c = ForestPredTest -> is_Some (s_test s)) ->
  let T := (num_gfr a + num_burnin a + num_mcmc a)%Z in
  let kept := retained_iterations B a (s_keep_idx s) in
  container c (l_draws (locals_after B a s (range T) (init_locals B a s))) =
  Some (((fun k => Some (snapshot B c s (state_after B a s k))) <$> kept)
        ++ replicate (length (s_keep_idx s) - length kept) None).
Proof.
  intros Hok Htest. cbn zeta. unfold retained_iterations, range.
  set (T := (num_gfr a + num_burnin a + num_mcmc a)%Z).
  pose proof (container_after B c a s (Z.to_nat T) (init_locals B a s)
                (replicate (length (s_keep_idx s)) None) Htest eq_refl
                (setup_ok_container B c a w w1 s Hok Htest)
                (length_replicate _ _)) as Hc.
  cbn zeta in Hc. rewrite seqZ_to_nat in Hc. rewrite Hc.
  rewrite drop_replicate. reflexivity.
Qed.

Lemma retained_bound (a : sample_args B) (s : Setup B) :
  (length (retained_iterations B a (s_keep_idx s)) <= length (s_keep_idx s))%nat.
Proof. apply kept_bound, NoDup_seqZ. Qed.

End RetentionFacts.
Section RetainedDraws.
Context {val : Type} (B : Backend val).

(** X10.  The number of retained draws is [ceil(num_mcmc / n_thin)], not
    [num_mcmc]: after a call that returns, made with a positive thinning
    interval and a non-negative [num_mcmc], every sample container has
    [(num_mcmc + n_thin - 1) // n_thin] columns. *)
Theorem retained_draw_count a (w w' : world B) :
  sample B a w = (w', inr tt) ->
  (0 < n_thin a)%Z -> (0 <= num_mcmc a)%Z ->
  exists dr,
    draws (self w') = Some dr /\
    forall c cols,
      (c = ForestPredTest -> is_Some (X_test a)) ->
      container c dr = Some cols ->
      Z.of_nat (length cols) = ((num_mcmc a + n_thin a - 1) / n_thin a)%Z.
Proof.
  intros E Ht Hm.
  destruct (sample_inr B a w w' E) as (w1 & s & Es & Hok & _ & _ & Hd & _).
  cbn zeta in Hd. eexists. split; [exact Hd |].
  intros c cols Htest Hc.
  assert (c = ForestPredTest -> is_Some (s_test s)) as Htest'.
  { intros ->. apply (setup_ok_test B a w w1 s Hok), Htest. reflexivity. }
  rewrite (cols_ok_container B c s _ cols
             (locals_after_cols_ok B a s _ (init_locals B a s)
                (setup_ok_cols B a w w1 s Hok))
             Htest' Hc).
  rewrite (arange_length _ _ _ _ (setup_ok_arange B a w w1 s Hok)) by lia.
  f_equal. lia.
Qed.

(** X11.  A negative thinning interval is not rejected and retains
    nothing: in a call that returns, no forest update is asked to keep its
    forest, no column of any sample container is assigned, and for a
    non-negative [num_mcmc] the containers have no column at all. *)
Theorem negative_thinning_retains_nothing a (w w' : world B) :
  sample B a w = (w', inr tt) ->
  (n_thin a < 0)%Z ->
  exists keep_idx dr t,
    arange (num_gfr a + num_burnin a)
           (num_gfr a + num_burnin a + num_mcmc a) (n_thin a) = inr keep_idx /\
    ((0 <= num_mcmc a)%Z -> keep_idx = []) /\
    draws (self w') = Some dr /\
    trace w' = trace w ++ t /\
    Forall (fun u => u.1.1 = false) (forest_updates t) /\
    forall c,
      (c = ForestPredTest -> is_Some (X_test a)) ->
      container c dr = Some (replicate (length keep_idx) None) /\
      column_writes c t = [].
Proof.
  intros E Hneg.
  destruct (sample_inr B a w w' E) as (w1 & s & Es & Hok & Ht & _ & Hd & _).
  cbn zeta in Ht, Hd.
  pose proof (setup_ok_arange B a w w1 s Hok) as Har.
  set (T := (num_gfr a + num_burnin a + num_mcmc a)%Z) in *.
  assert (Forall (fun i => i ∉ s_keep_idx s) (range T)) as Hnone.
  { apply Forall_forall. intros i Hi Hin.
    apply elem_of_seqZ in Hi.
    pose proof (arange_negative_step _ _ _ _ Har Hneg) as Habove.
    rewrite Forall_forall in Habove. specialize (Habove i Hin). lia. }
  assert (retained_iterations B a (s_keep_idx s) = []) as Hkept.
  { apply filter_none, Hnone. }
  exists (s_keep_idx s), (l_draws (locals_after B a s (range T) (init_locals B a s))),
    (init_events B s ++ loop_events B a s (range T) (init_locals B a s)).
  split; [exact Har |].
  split; [intros Hm; apply (arange_nonpos_step _ _ _ _ Har); lia |].
  split; [exact Hd |]. split; [exact Ht |].
  split.
  - rewrite forest_updates_app, forest_updates_init, forest_updates_loop.
    cbn [app]. apply Forall_fmap, Forall_forall. intros i Hi. simpl.
    apply keep_sample_false. rewrite Forall_forall in Hnone. apply Hnone, Hi.
  - intros c Htest.
    assert (c = ForestPredTest -> is_Some (s_test s)) as Htest'.
    { intros ->. apply (setup_ok_test B a w w1 s Hok), Htest. reflexivity. }
    split.
    + pose proof (containers_after_run B c a w w1 s Hok Htest') as Hc.
      cbn zeta in Hc. fold T in Hc. rewrite Hc, Hkept. simpl.
      rewrite Nat.sub_0_r. reflexivity.
    + rewrite column_writes_app, column_writes_init, column_writes_loop by exact Htest'.
      unfold retained_iterations in Hkept. fold T in Hkept. rewrite Hkept.
      reflexivity.
Qed.

(** X12.  For any iteration counts, negative ones included, the retained
    iterations (those of the loop that are in [keep_idx]) are copied into
    the first columns of each container, in iteration order and starting at
    column 0; no assignment is out of range or wraps around to the last
    column; there are never more retained iterations than columns, and the
    columns beyond them are left as [np.empty] created them. *)
Theorem retained_draws_fill_a_prefix a (w w' : world B) :
  sample B a w = (w', inr tt) ->
  exists w1 s dr t,
    setup B a w = (w1, inr s) /\
    draws (self w') = Some dr /\
    trace w' = trace w ++ t /\
    let kept := retained_iterations B a (s_keep_idx s) in
    (length kept <= length (s_keep_idx s))%nat /\
    forall c,
      (c = ForestPredTest -> is_Some (X_test a)) ->
      container c dr =
        Some (((fun k => Some (snapshot B c s (state_after B a s k))) <$> kept)
              ++ replicate (length (s_keep_idx s) - length kept) None) /\
      column_writes c t = seqZ 0 (Z.of_nat (length kept)).
Proof.
  intros E.
  destruct (sample_inr B a w w' E) as (w1 & s & Es & Hok & Ht & _ & Hd & _).
  cbn zeta in Ht, Hd.
  set (T := (num_gfr a + num_burnin a + num_mcmc a)%Z) in *.
  exists w1, s, (l_draws (locals_after B a s (range T) (init_locals B a s))),
    (init_events B s ++ loop_events B a s (range T) (init_locals B a s)).
  split; [exact Es |]. split; [exact Hd |]. split; [exact Ht |].
  cbn zeta. split; [apply retained_bound |].
  intros c Htest.
  assert (c = ForestPredTest -> is_Some (s_test s)) as Htest'.
  { intros ->. apply (setup_ok_test B a w w1 s Hok), Htest. reflexivity. }
  split.
  - apply (containers_after_run B c a w w1 s Hok Htest').
  - rewrite column_writes_app, column_writes_init, column_writes_loop by exact Htest'.
    reflexivity.
Qed.

End RetainedDraws.
(** ** Shapes of what is stored (lines 194-198 and 334-345) *)

Section StoredShapes.
Context {val : Type} (B : Backend val).

Lemma container_columns c (dr : Draws val) :
  container c dr = columns <$> container_matrix c dr.
Proof. destruct c; reflexivity. Qed.

Lemma retain_pure_rows c s col d smp dr :
  nrows <$> container_matrix c (retain_pure B s col d smp dr)
  = nrows <$> container_matrix c dr.
Proof.
  unfold retain_pure. destruct c; cbn [container_matrix forest_pred_train
    forest_pred_test gamma_samples latent_samples]; try reflexivity.
  destruct (s_test s); [| reflexivity].
  destruct (forest_pred_test dr); reflexivity.
Qed.

Lemma next_rows c a s i l :
  nrows <$> container_matrix c (l_draws (next B a s i l))
  = nrows <$> container_matrix c (l_draws l).
Proof.
  unfold next. destruct (keep_sample B s i); [| reflexivity].
  cbn [l_draws]. apply retain_pure_rows.
Qed.

Lemma locals_after_rows c a s done : forall l,
  nrows <$> container_matrix c (l_draws (locals_after B a s done l))
  = nrows <$> container_matrix c (l_draws l).
Proof.
  induction done as [| i done IH] using rev_ind; intros l; [reflexivity |].
  rewrite locals_after_snoc, next_rows. apply IH.
Qed.

Lemma setup_ok_rows c a (w w1 : world B) s :
  setup_ok a w w1 s ->
  (c = ForestPredTest -> is_Some (X_test a)) ->
  nrows <$> container_matrix c (s_draws s) = Some (container_rows B c s).
Proof.
  intros Hok Htest. rewrite (setup_ok_draws B a w w1 s Hok).
  destruct c; try reflexivity. cbn [container_matrix forest_pred_test].
  destruct (Htest eq_refl) as [xt ->]. reflexivity.
Qed.

Lemma snapshot_length c a s k :
  (2 <= s_n_levels s)%Z ->
  Z.of_nat (length (snapshot B c s (state_after B a s k))) = container_rows B c s.
Proof.
  intros HK. unfold state_after.
  pose proof (locals_after_shape B a s (range (k + 1)) (init_locals B a s)) as Hsh.
  cbn [init_locals l_aux] in Hsh. rewrite init_aux_shape in Hsh.
  destruct (store_lengths B s _ Hsh) as (H0 & _ & H2 & _).
  destruct c; cbn [snapshot container_rows].
  - unfold predict_rows. rewrite length_fmap, length_seq. reflexivity.
  - unfold predict_rows. rewrite length_fmap, length_seq. reflexivity.
  - rewrite H2. lia.
  - rewrite H0. reflexivity.
Qed.

(** X13.  What is copied into a sample container always fits it: after a
    call that returns, each container has the row count it was created
    with ([n_train], [n_test], or [n_levels - 1] for the cutpoints) and
    every assigned column has exactly that many entries, so that no column
    assignment of the run had to broadcast or could fail on a shape
    mismatch. *)
Theorem stored_columns_fit_their_container a (w w' : world B) :
  sample B a w = (w', inr tt) ->
  exists w1 s dr,
    setup B a w = (w1, inr s) /\
    draws (self w') = Some dr /\
    forall c m,
      (c = ForestPredTest -> is_Some (X_test a)) ->
      container_matrix c dr = Some m ->
      nrows m = container_rows B c s /\
      Forall (fun col => forall v, col = Some v -> Z.of_nat (length v) = nrows m)
             (columns m).
Proof.
  intros E.
  destruct (sample_inr B a w w' E) as (w1 & s & Es & Hok & _ & _ & Hd & _).
  cbn zeta in Hd.
  set (T := (num_gfr a + num_burnin a + num_mcmc a)%Z) in *.
  exists w1, s, (l_draws (locals_after B a s (range T) (init_locals B a s))).
  split; [exact Es |]. split; [exact Hd |].
  intros c m Htest Hm.
  assert (c = ForestPredTest -> is_Some (s_test s)) as Htest'.
  { intros ->. apply (setup_ok_test B a w w1 s Hok), Htest. reflexivity. }
  assert (nrows m = container_rows B c s) as Hrows.
  { pose proof (locals_after_rows c a s (range T) (init_locals B a s)) as Hr.
    cbn [init_locals l_draws] in Hr.
    rewrite (setup_ok_rows c a w w1 s Hok Htest), Hm in Hr.
    simpl in Hr. congruence. }
  split; [exact Hrows |].
  pose proof (containers_after_run B c a w w1 s Hok Htest') as Hc.
  cbn zeta in Hc. fold T in Hc.
  rewrite container_columns, Hm in Hc. simpl in Hc. injection Hc as ->.
  rewrite Hrows. apply Forall_app. split.
  - apply Forall_fmap, Forall_forall. intros k _ v [= <-].
    apply snapshot_length, (setup_ok_levels B a w w1 s Hok).
  - apply Forall_replicate. intros v [=].
Qed.

End StoredShapes.
(** ** The driver's own store writes and forest predictions
    (lines 252-267, 304-310 and 334-341) *)

Section DriverCalls.
Context {val : Type} (B : Backend val).

Lemma writes_to_iteration dim a s i l :
  dim <> 1%nat -> writes_to dim (iteration_events B a s i l) = [].
Proof.
  intros Hne. unfold iteration_events, update_events, retain_events.
  rewrite !writes_to_app, writes_to_set_events.
  rewrite decide_False by (intros H; apply Hne; symmetry; exact H).
  destruct (keep_sample B s i), (s_test s); reflexivity.
Qed.

Lemma writes_to_loop dim a s todo : forall l,
  dim <> 1%nat -> writes_to dim (loop_events B a s todo l) = [].
Proof.
  induction todo as [| i rest IH]; intros l Hne; [reflexivity |].
  cbn [loop_events]. rewrite writes_to_app, writes_to_iteration, IH by exact Hne.
  reflexivity.
Qed.

Lemma set_events_in_range s dim f (g : Z -> val) l :
  Forall (fun i => (0 <= f i < slot_count B s dim)%Z
                   \/ (dim = 2%nat /\ f i = (-1)%Z)) l ->
  Forall (write_in_range_or_minus_one B s) (set_events dim f g l).
Proof.
  intros H. unfold set_events. apply Forall_fmap.
  eapply Forall_impl; [exact H |]. intros i Hi. exact Hi.
Qed.

Lemma init_events_in_range s :
  Forall (write_in_range_or_minus_one B s) (init_events B s).
Proof.
  unfold init_events. rewrite !Forall_app. repeat split.
  - repeat constructor.
  - apply set_events_in_range, Forall_forall. intros i Hi.
    apply elem_of_seqZ in Hi. cbn [slot_count].
    destruct (decide (i = 0%Z)) as [-> | Hne]; [right; split; reflexivity | left; lia].
  - repeat constructor.
  - apply set_events_in_range, Forall_forall. intros i Hi.
    apply elem_of_seqZ in Hi. cbn [slot_count]. left. lia.
  - apply set_events_in_range, Forall_forall. intros i Hi.
    apply elem_of_seqZ in Hi. cbn [slot_count]. left. lia.
Qed.

Lemma iteration_events_in_range a s i l :
  Forall (write_in_range_or_minus_one B s) (iteration_events B a s i l).
Proof.
  unfold iteration_events, update_events, retain_events.
  rewrite !Forall_app. repeat split.
  - repeat constructor.
  - apply set_events_in_range, Forall_forall. intros j Hj.
    apply elem_of_seqZ in Hj. cbn [slot_count]. left. lia.
  - repeat constructor.
  - destruct (keep_sample B s i); [| constructor].
    rewrite !Forall_app. repeat split; try (repeat constructor; fail).
    destruct (s_test s); repeat constructor.
Qed.

Lemma loop_events_in_range a s todo : forall l,
  Forall (write_in_range_or_minus_one B s) (loop_events B a s todo l).
Proof.
  induction todo as [| i rest IH]; intros l; [constructor |].
  cbn [loop_events]. apply Forall_app. split; [apply iteration_events_in_range | apply IH].
Qed.

(** X14.  The store writes the driver makes itself, in a call that
    returns: the latent series and the cutpoint series are written only by
    the initialisation (slots [0 .. n_train - 1] and [-1 .. n_levels - 3],
    with 0); during the iterations the driver writes the forest-prediction
    series only; no series beyond the four is written; and every write is
    inside its series except the write to slot -1 of the cutpoint
    series. *)
Theorem driver_store_writes a (w w' : world B) :
  sample B a w = (w', inr tt) ->
  exists w1 s t,
    setup B a w = (w1, inr s) /\
    trace w' = trace w ++ t /\
    Forall (write_in_range_or_minus_one B s) t /\
    writes_to 0 t = (fun i => (i, zero B)) <$> range (Z.of_nat (s_n_train s)) /\
    writes_to 2 t = (fun i => (i - 1, zero B)%Z) <$> range (s_n_levels s - 1) /\
    (((-1)%Z, zero B) ∈ writes_to 2 t) /\
    forall dim, (3 <= dim)%nat -> writes_to dim t = [].
Proof.
  intros E.
  destruct (sample_inr B a w w' E) as (w1 & s & Es & Hok & Ht & _).
  cbn zeta in Ht.
  set (T := (num_gfr a + num_burnin a + num_mcmc a)%Z) in *.
  exists w1, s, (init_events B s ++ loop_events B a s (range T) (init_locals B a s)).
  split; [exact Es |]. split; [exact Ht |].
  split; [apply Forall_app; split;
          [apply init_events_in_range | apply loop_events_in_range] |].
  assert (writes_to 2 (init_events B s)
          = (fun i => (i - 1, zero B)%Z) <$> range (s_n_levels s - 1)) as H2.
  { unfold init_events. rewrite !writes_to_app, !writes_to_set_events. simpl.
    rewrite app_nil_r. reflexivity. }
  split; [| split; [| split]].
  - rewrite writes_to_app, writes_to_loop by lia. rewrite app_nil_r.
    unfold init_events. rewrite !writes_to_app, !writes_to_set_events. reflexivity.
  - rewrite writes_to_app, writes_to_loop by lia. rewrite app_nil_r. exact H2.
  - rewrite writes_to_app, H2. apply elem_of_app. left.
    apply list_elem_of_fmap. exists 0%Z. split; [reflexivity |].
    apply elem_of_seqZ. pose proof (setup_ok_levels B a w w1 s Hok). lia.
  - intros dim Hdim. rewrite writes_to_app, writes_to_loop by lia.
    unfold init_events. rewrite !writes_to_app, !writes_to_set_events.
    rewrite !decide_False by lia. reflexivity.
Qed.

Lemma predictions_app d (t1 t2 : list (event val)) :
  predictions d (t1 ++ t2) = predictions d t1 ++ predictions d t2.
Proof. apply omap_app. Qed.

Lemma predictions_set_events d dim f (g : Z -> val) l :
  predictions d (set_events dim f g l) = [].
Proof. unfold predictions, set_events. induction l; csimpl; auto. Qed.

Lemma predictions_init d s : predictions d (init_events B s) = [].
Proof.
  unfold init_events. rewrite !predictions_app, !predictions_set_events.
  reflexivity.
Qed.

Lemma predictions_iteration d a s i l :
  length (predictions d (iteration_events B a s i l)) =
  match d with
  | TrainSet => if keep_sample B s i then 2%nat else 1%nat
  | TestSet =>
      if keep_sample B s i
      then match s_test s with Some _ => 1%nat | None => 0%nat end
      else 0%nat
  end.
Proof.
  unfold iteration_events, update_events, retain_events.
  rewrite !predictions_app, predictions_set_events.
  destruct d, (keep_sample B s i), (s_test s); reflexivity.
Qed.

Lemma predictions_loop d a s todo : forall l,
  length (predictions d (loop_events B a s todo l)) =
  match d with
  | TrainSet =>
      (length todo + length (filter (fun i => i ∈ s_keep_idx s) todo))%nat
  | TestSet =>
      match s_test s with
      | Some _ => length (filter (fun i => i ∈ s_keep_idx s) todo)
      | None => 0%nat
      end
  end.
Proof.
  induction todo as [| i rest IH]; intros l.
  - destruct d, (s_test s); reflexivity.
  - cbn [loop_events]. rewrite predictions_app, length_app, predictions_iteration, IH.
    rewrite filter_cons. destruct (keep_sample B s i) eqn:Ek.
    + apply keep_sample_spec in Ek. rewrite decide_True by exact Ek.
      destruct d, (s_test s); simpl; lia.
    + apply keep_sample_false in Ek. rewrite decide_False by exact Ek.
      destruct d, (s_test s); simpl; lia.
Qed.

(** X15.  How often the active forest is asked for predictions in a call
    that returns: on the training set once in every iteration and once
    more in every retained iteration; on the test set once in every
    retained iteration when a test set was given, and never otherwise. *)
Theorem forest_prediction_calls a (w w' : world B) :
  sample B a w = (w', inr tt) ->
  exists keep_idx t,
    arange (num_gfr a + num_burnin a)
           (num_gfr a + num_burnin a + num_mcmc a) (n_thin a) = inr keep_idx /\
    trace w' = trace w ++ t /\
    let retained := length (retained_iterations B a keep_idx) in
    length (predictions TrainSet t) =
      (Z.to_nat (num_gfr a + num_burnin a + num_mcmc a) + retained)%nat /\
    length (predictions TestSet t) =
      (if test_given B a then retained else 0%nat).
Proof.
  intros E.
  destruct (sample_inr B a w w' E) as (w1 & s & Es & Hok & Ht & _).
  cbn zeta in Ht.
  set (T := (num_gfr a + num_burnin a + num_mcmc a)%Z) in *.
  exists (s_keep_idx s),
    (init_events B s ++ loop_events B a s (range T) (init_locals B a s)).
  split; [apply (setup_ok_arange B a w w1 s Hok) |]. split; [exact Ht |].
  cbn zeta. unfold retained_iterations. fold T.
  rewrite !predictions_app, !predictions_init. cbn [app].
  rewrite !predictions_loop. split.
  - unfold range. rewrite length_seqZ. reflexivity.
  - pose proof (setup_ok_test B a w w1 s Hok) as Htest. unfold test_given.
    destruct (s_test s), (X_test a); try reflexivity.
    + destruct Htest as [Htest _]. destruct Htest as [? [=]]. eauto.
    + destruct Htest as [_ Htest]. destruct Htest as [? [=]]. eauto.
Qed.

End DriverCalls.
(** ** A call does not depend on earlier calls (lines 88-348) *)

Section SameOutcome.
Context {val : Type} {B : Backend val}.

Lemma same_outcome_ret {A} (x : A) : same_outcome (ret (B := B) x).
Proof. intros w1 w2. reflexivity. Qed.

Lemma same_outcome_raise {A} e : same_outcome (raise (B := B) (A := A) e).
Proof. intros w1 w2. reflexivity. Qed.

Lemma same_outcome_lift {A} (r : exn + A) : same_outcome (lift (B := B) r).
Proof. intros w1 w2. reflexivity. Qed.

Lemma same_outcome_when b e : same_outcome (when (B := B) b e).
Proof. intros w1 w2. destruct b; reflexivity. Qed.

Lemma same_outcome_update_self f : same_outcome (update_self (B := B) f).
Proof. intros w1 w2. reflexivity. Qed.

Lemma same_outcome_bind {A C} (m : M B A) (k : A -> M B C) :
  same_outcome m -> (forall x, same_outcome (k x)) -> same_outcome (bind m k).
Proof.
  intros Hm Hk w1 w2. unfold bind. specialize (Hm w1 w2).
  destruct (m w1) as [w1' [e1 | x1]], (m w2) as [w2' [e2 | x2]];
    cbn [snd] in *; try discriminate.
  - congruence.
  - injection Hm as ->. apply Hk.
Qed.

End SameOutcome.

Ltac same_outcome_step :=
  lazymatch goal with
  | |- same_outcome (bind _ _) => apply same_outcome_bind; [| intros ?]
  | |- same_outcome (ret _) => apply same_outcome_ret
  | |- same_outcome (raise _) => apply same_outcome_raise
  | |- same_outcome (lift _) => apply same_outcome_lift
  | |- same_outcome (when _ _) => apply same_outcome_when
  | |- same_outcome (update_self _) => apply same_outcome_update_self
  | |- same_outcome (let _ := _ in _) => cbv zeta
  | |- same_outcome (match ?x with _ => _ end) => destruct x
  end.

Section Refit.
Context {val : Type} (B : Backend val).

Lemma setup_same_outcome a : same_outcome (setup B a).
Proof. unfold setup, determine_n_levels. repeat same_outcome_step. Qed.

(** X16.  Whether [sample] raises, and which exception, is settled by its
    arguments alone: it does not depend on the state of the model object,
    be it fresh, sampled before, or left behind by a failed call. *)
Theorem sample_outcome_ignores_model_state a (w1 w2 : world B) :
  (sample B a w1).2 = (sample B a w2).2.
Proof.
  pose proof (setup_same_outcome a w1 w2) as Hsame.
  destruct (setup B a w1) as [u1 [e | s]] eqn:Es1;
    destruct (setup B a w2) as [u2 r2] eqn:Es2; cbn [snd] in Hsame; subst r2.
  - rewrite (sample_setup_raises B a w1 u1 e Es1).
    rewrite (sample_setup_raises B a w2 u2 e Es2). reflexivity.
  - destruct (sample_returns B a w1 u1 s Es1) as [w1' ->].
    destruct (sample_returns B a w2 u2 s Es2) as [w2' ->]. reflexivity.
Qed.

End Refit.
(** ** Worked examples for the further properties *)





(** A failed call on a fresh object: the preprocessor and the data
    dimensions are there, the sampling results are not. *)
Example single_class_leaves_preprocessor :
  let w' := (sample toy single_class_args fresh).1 in
  _covariate_preprocessor (self w') = Some tt /\
  dims (self w') = Some (mkDims false 4 0 2) /\
  n_levels (self w') = Some 1%Z /\
  draws (self w') = None /\ sampled (self w') = false.
Proof. vm_compute. repeat split; reflexivity. Qed.

Lemma predict_after_failed_refit_witness :
  predict toy (@XArray unit [5; 2]%nat tt) (sample toy single_class_args fitted).1 =
  ((sample toy single_class_args fitted).1,
   inr (container_predict toy [3; 5]%Z
          (transform toy (fit toy (X_train single_class_args))
                     (@XArray unit [5; 2]%nat tt)))).
Proof.
  apply (predict_after_failed_refit toy single_class_args fitted
           (sample toy single_class_args fitted).1 too_few_categories [3; 5]%Z
           (@XArray unit [5; 2]%nat tt)).
  - vm_compute. reflexivity.
  - vm_compute. reflexivity.
  - vm_compute. reflexivity.
  - right. left. reflexivity.
  - discriminate.
Defined.


Lemma negative_weights_are_rejected_witness :
  sample toy negative_weight_args fresh =
  (fresh, inl (ValueError "variable_weights cannot have any negative weights")).
Proof.
  apply (negative_weights_are_rejected toy negative_weight_args fresh 4 2
           np_int64 [0; 2; 1; 2]%Z).
  - unfold data_ok. split; [reflexivity |]. split; [intros xt [=] |].
    split; [exists [4%nat]; split; reflexivity |].
    split; [reflexivity |]. repeat constructor; lia.
  - reflexivity.
Defined.


Lemma no_covariate_columns_divides_by_zero_witness :
  sample toy no_column_args fresh =
  (fresh, inl (ZeroDivisionError "float division by zero")).
Proof.
  apply (no_covariate_columns_divides_by_zero toy no_column_args fresh 3
           np_int64 [0; 1; 1]%Z).
  - unfold data_ok. split; [reflexivity |]. split; [intros xt [=] |].
    split; [exists [3%nat]; split; reflexivity |].
    split; [reflexivity |]. repeat constructor; lia.
  - reflexivity.
Defined.

Lemma scalar_outcome_raises_index_error_witness :
  sample toy scalar_outcome_args fresh =
  (fresh, inl (IndexError "tuple index out of range")).
Proof.
  apply (scalar_outcome_raises_index_error toy scalar_outcome_args fresh 4 2
           np_int64 [1]%Z).
  - reflexivity.
  - intros xt [=].
  - reflexivity.
  - reflexivity.
  - repeat constructor; lia.
Defined.

Lemma retained_draw_count_witness :
  exists dr,
    draws (self fitted) = Some dr /\
    forall c cols,
      (c = ForestPredTest -> is_Some (X_test (demo_args 1 1 3 2))) ->
      container c dr = Some cols ->
      Z.of_nat (length cols)
      = ((num_mcmc (demo_args 1 1 3 2) + n_thin (demo_args 1 1 3 2) - 1)
         / n_thin (demo_args 1 1 3 2))%Z.
Proof.
  apply (retained_draw_count toy (demo_args 1 1 3 2) fresh fitted).
  - vm_compute. reflexivity.
  - vm_compute. reflexivity.
  - vm_compute. discriminate.
Defined.

(** Three MCMC iterations thinned by two give two draws, not three. *)
Example two_draws_from_three_iterations :
  (length ∘ columns ∘ gamma_samples) <$> draws (self fitted) = Some 2%nat.
Proof. vm_compute. reflexivity. Qed.

Lemma negative_thinning_retains_nothing_witness :
  let a := demo_args 1 1 3 (-1) in
  exists keep_idx dr t,
    arange (num_gfr a + num_burnin a)
           (num_gfr a + num_burnin a + num_mcmc a) (n_thin a) = inr keep_idx /\
    ((0 <= num_mcmc a)%Z -> keep_idx = []) /\
    draws (self (sample toy a fresh).1) = Some dr /\
    trace (sample toy a fresh).1 = trace fresh ++ t /\
    Forall (fun u => u.1.1 = false) (forest_updates t) /\
    forall c,
      (c = ForestPredTest -> is_Some (X_test a)) ->
      container c dr = Some (replicate (length keep_idx) None) /\
      column_writes c t = [].
Proof.
  apply (negative_thinning_retains_nothing toy (demo_args 1 1 3 (-1)) fresh).
  - vm_compute. reflexivity.
  - vm_compute. reflexivity.
Defined.

Lemma retained_draws_fill_a_prefix_witness :
  let a := demo_args 0 (-2) 4 1 in
  exists w1 s dr t,
    setup toy a fresh = (w1, inr s) /\
    draws (self (sample toy a fresh).1) = Some dr /\
    trace (sample toy a fresh).1 = trace fresh ++ t /\
    let kept := retained_iterations toy a (s_keep_idx s) in
    (length kept <= length (s_keep_idx s))%nat /\
    forall c,
      (c = ForestPredTest -> is_Some (X_test a)) ->
      container c dr =
        Some (((fun k => Some (snapshot toy c s (state_after toy a s k))) <$> kept)
              ++ replicate (length (s_keep_idx s) - length kept) None) /\
      column_writes c t = seqZ 0 (Z.of_nat (length kept)).
Proof.
  apply (retained_draws_fill_a_prefix toy (demo_args 0 (-2) 4 1) fresh).
  vm_compute. reflexivity.
Defined.

Lemma stored_columns_fit_their_container_witness :
  exists w1 s dr,
    setup toy (demo_args 1 1 3 2) fresh = (w1, inr s) /\
    draws (self fitted) = Some dr /\
    forall c m,
      (c = ForestPredTest -> is_Some (X_test (demo_args 1 1 3 2))) ->
      container_matrix c dr = Some m ->
      nrows m = container_rows toy c s /\
      Forall (fun col => forall v, col = Some v -> Z.of_nat (length v) = nrows m)
             (columns m).
Proof.
  apply (stored_columns_fit_their_container toy (demo_args 1 1 3 2) fresh fitted).
  vm_compute. reflexivity.
Defined.

Lemma driver_store_writes_witness :
  exists w1 s t,
    setup toy (demo_args 1 1 3 2) fresh = (w1, inr s) /\
    trace fitted = trace fresh ++ t /\
    Forall (write_in_range_or_minus_one toy s) t /\
    writes_to 0 t = (fun i => (i, zero toy)) <$> range (Z.of_nat (s_n_train s)) /\
    writes_to 2 t = (fun i => (i - 1, zero toy)%Z) <$> range (s_n_levels s - 1) /\
    (((-1)%Z, zero toy) ∈ writes_to 2 t) /\
    forall dim, (3 <= dim)%nat -> writes_to dim t = [].
Proof.
  apply (driver_store_writes toy (demo_args 1 1 3 2) fresh fitted).
  vm_compute. reflexivity.
Defined.

Lemma forest_prediction_calls_witness :
  let a := demo_args 1 1 3 2 in
  exists keep_idx t,
    arange (num_gfr a + num_burnin a)
           (num_gfr a + num_burnin a + num_mcmc a) (n_thin a) = inr keep_idx /\
    trace fitted = trace fresh ++ t /\
    let retained := length (retained_iterations toy a keep_idx) in
    length (predictions TrainSet t) =
      (Z.to_nat (num_gfr a + num_burnin a + num_mcmc a) + retained)%nat /\
    length (predictions TestSet t) =
      (if test_given toy a then retained else 0%nat).
Proof.
  apply (forest_prediction_calls toy (demo_args 1 1 3 2) fresh fitted).
  vm_compute. reflexivity.
Defined.

(** Five iterations of which two are retained: seven predictions on the
    training set and two on the test set. *)
Example prediction_calls_demo :
  length (predictions TrainSet (trace fitted)) = 7%nat /\
  length (predictions TestSet (trace fitted)) = 2%nat.
Proof. vm_compute. split; reflexivity. Qed.

(** * The order and the data flow of an iteration (lines 270-345) *)

Section ClaimedOrderFacts.
Context {val : Type} (B : Backend val).

Lemma shaped_lookup s (d : aux val) k n :
  length <$> d = length <$> fresh_aux B s ->
  (length <$> fresh_aux B s) !! k = Some n ->
  exists sk, d !! k = Some sk /\ length sk = n.
Proof.
  intros H Hn. rewrite <- H, list_lookup_fmap in Hn.
  destruct (d !! k) as [sk |]; [| discriminate].
  exists sk. split; [reflexivity |]. simpl in Hn. congruence.
Qed.

Lemma rewrite_series_insert dim (f : nat -> val) (d : aux val) sk :
  d !! dim = Some sk ->
  rewrite_series dim f d = <[dim := f <$> seq 0 (length sk)]> d.
Proof. intros H. unfold rewrite_series. rewrite H. reflexivity. Qed.

(** What the driver does in one iteration is what the specification
    orders, step by step. *)
Lemma iteration_as_claimed a s i l :
  length <$> l_aux l = length <$> fresh_aux B s ->
  claimed_iteration B a s i l (iteration_events B a s i l) (next B a s i l).
Proof.
  intros Hshape. unfold claimed_iteration.
  exists (gfr_flag B a i),
    (if keep_sample B s i
     then retain_events B s (sample_counter l + 1) (smp_after B a s i l)
     else []).
  cbn zeta. fold (keep_sample B s i).
  change (sample_one_iteration B (l_fc l) (l_smp l) (l_aux l) (keep_sample B s i)
            (gfr_flag B a i) (num_threads a)) with (forest_update B a s i l).
  change ((forest_update B a s i l).2) with (smp_after_forest B a s i l).
  change ((fun j => forest_predict B (smp_after_forest B a s i l) TrainSet j)
            <$> seq 0 (s_n_train s))
    with (predict_rows B (smp_after_forest B a s i l) TrainSet (s_n_train s)).
  set (pred := predict_rows B (smp_after_forest B a s i l) TrainSet (s_n_train s)).
  destruct (shaped_lookup s (l_aux l) 1 (s_n_train s) Hshape) as (s1 & Hs1 & Hl1).
  { simpl. rewrite length_replicate. reflexivity. }
  assert (aux_before_latent B a s i l = <[1%nat := pred]> (l_aux l)) as Hd1.
  { unfold aux_before_latent, aux_with_pred.
    rewrite (write_all_whole 1 _ _ _ s1 Hs1 Hl1), predict_rows_nat. reflexivity. }
  assert (length <$> aux_before_latent B a s i l = length <$> fresh_aux B s) as Hsh1.
  { unfold aux_before_latent, aux_with_pred. rewrite write_all_shape. exact Hshape. }
  rewrite <- Hd1.
  set (d1 := aux_before_latent B a s i l) in *.
  set (lat := latent_step B d1 (smp_after_forest B a s i l)).
  destruct (shaped_lookup s d1 0 (s_n_train s) Hsh1) as (s0 & Hs0 & Hl0).
  { simpl. rewrite length_replicate. reflexivity. }
  assert (rewrite_series 0 lat.1 d1 = <[0%nat := lat.1 <$> seq 0 (s_n_train s)]> d1)
    as Hd2 by (rewrite (rewrite_series_insert 0 _ d1 s0 Hs0), Hl0; reflexivity).
  rewrite <- Hd2.
  set (d2 := rewrite_series 0 lat.1 d1) in *.
  assert (length <$> d2 = length <$> fresh_aux B s) as Hsh2
    by (unfold d2; rewrite rewrite_series_shape; exact Hsh1).
  set (gam := gamma_step B (alpha_gamma a) (beta_gamma a) (zero B) d2 lat.2).
  destruct (shaped_lookup s d2 2 (Z.to_nat (s_n_levels s - 1)) Hsh2)
    as (s2 & Hs2 & Hl2).
  { simpl. rewrite length_replicate. reflexivity. }
  assert (rewrite_series 2 gam.1 d2
          = <[2%nat := gam.1 <$> seq 0 (Z.to_nat (s_n_levels s - 1))]> d2) as Hd3
    by (rewrite (rewrite_series_insert 2 _ d2 s2 Hs2), Hl2; reflexivity).
  rewrite <- Hd3.
  set (d3 := rewrite_series 2 gam.1 d2) in *.
  assert (length <$> d3 = length <$> fresh_aux B s) as Hsh3
    by (unfold d3; rewrite rewrite_series_shape; exact Hsh2).
  destruct (shaped_lookup s d3 3 (Z.to_nat (s_n_levels s)) Hsh3) as (s3 & Hs3 & Hl3).
  { simpl. rewrite length_replicate. reflexivity. }
  assert (rewrite_series 3 (cum_exp_sum B d3) d3
          = <[3%nat := cum_exp_sum B d3 <$> seq 0 (Z.to_nat (s_n_levels s))]> d3)
    as Hd4 by (rewrite (rewrite_series_insert 3 _ d3 s3 Hs3), Hl3; reflexivity).
  rewrite <- Hd4.
  assert (aux_after B a s i l = rewrite_series 3 (cum_exp_sum B d3) d3) as Haux
    by reflexivity.
  assert (smp_after B a s i l = gam.2) as Hsmp by reflexivity.
  split; [| split; [| split; [| split]]].
  - unfold iteration_events, update_events.
    rewrite (aux_before_latent_pred B a s i l Hshape), set_events_imap.
    rewrite predict_rows_nat, <- !app_assoc. reflexivity.
  - destruct (keep_sample B s i); [| reflexivity].
    unfold copy_block, retain_events.
    exists (sample_counter l + 1)%Z,
      (predict_rows B (smp_after B a s i l) TrainSet (s_n_train s)),
      (predict_rows B (smp_after B a s i l) TestSet (s_n_test s)).
    destruct (s_test s); reflexivity.
  - unfold next. destruct (keep_sample B s i); reflexivity.
  - unfold next. rewrite <- Hsmp. destruct (keep_sample B s i); reflexivity.
  - rewrite next_aux. exact Haux.
Qed.

Lemma loop_events_snoc a s done i : forall l,
  loop_events B a s (done ++ [i]) l =
  loop_events B a s done l ++ iteration_events B a s i (locals_after B a s done l).
Proof.
  induction done as [| j done IH]; intros l.
  - simpl. rewrite app_nil_r. reflexivity.
  - cbn [app loop_events]. rewrite IH, <- app_assoc. reflexivity.
Qed.

(** The events of the first [k] iterations, block by block. *)
Lemma loop_events_concat a s l (k : nat) :
  loop_events B a s (seqZ 0 (Z.of_nat k)) l =
  concat ((fun j => iteration_events B a s (Z.of_nat j)
                      (locals_after B a s (seqZ 0 (Z.of_nat j)) l)) <$> seq 0 k).
Proof.
  induction k as [| k IH]; [reflexivity |].
  assert (seqZ 0 (Z.of_nat (S k)) = seqZ 0 (Z.of_nat k) ++ [Z.of_nat k]) as Hsnoc
    by (rewrite seqZ_S; reflexivity).
  rewrite Hsnoc, loop_events_snoc, IH, seq_S, fmap_app, concat_app.
  simpl. rewrite app_nil_r. reflexivity.
Qed.

End ClaimedOrderFacts.

Section StepOrderRevised.
Context {val : Type} (B : Backend val).

(** C3.  In a call that returns, the trace is the set-up of the store
    followed by one block of events per iteration, in iteration order, and
    each iteration takes the state left by the one before through the
    steps in the order of the specification: the ensemble update; the
    prediction of the forest that this update returned, for the [n_train]
    observations, written slot by slot into auxiliary series 1; the
    latent update, on the store that holds exactly this prediction; the
    cutpoint update; the cumulative refresh; and, in a retained iteration
    only, the copy into the sample containers.  The prediction that the
    augmentation steps read is thus the one of the same iteration's
    ensemble update, never an earlier one. *)
Theorem iteration_steps_in_order a (w w' : world B) :
  sample B a w = (w', inr tt) ->
  exists w1 s w2 l0 init blocks states,
    setup B a w = (w1, inr s) /\
    init_samplers B a s w1 = (w2, inr l0) /\
    trace w' = trace w ++ init ++ concat blocks /\
    Forall setup_event init /\
    length blocks = Z.to_nat (num_gfr a + num_burnin a + num_mcmc a) /\
    length states = S (Z.to_nat (num_gfr a + num_burnin a + num_mcmc a)) /\
    states !! 0%nat = Some l0 /\
    forall k : nat,
      (k < Z.to_nat (num_gfr a + num_burnin a + num_mcmc a))%nat ->
      exists b l l',
        blocks !! k = Some b /\ states !! k = Some l /\ states !! S k = Some l' /\
        claimed_iteration B a s (Z.of_nat k) l b l'.
Proof.
  intros E. destruct (sample_inr B a w w' E) as (w1 & s & Es & Hok & Ht & _).
  cbn zeta in Ht.
  set (T := Z.to_nat (num_gfr a + num_burnin a + num_mcmc a)).
  set (st := fun j : nat =>
               locals_after B a s (seqZ 0 (Z.of_nat j)) (init_locals B a s)).
  exists w1, s, (init_samplers B a s w1).1, (init_locals B a s), (init_events B s),
    ((fun j => iteration_events B a s (Z.of_nat j) (st j)) <$> seq 0 T),
    (st <$> seq 0 (S T)).
  split; [exact Es |].
  split; [rewrite init_samplers_eq; reflexivity |].
  split.
  { rewrite Ht. unfold range. rewrite <- (seqZ_to_nat 0), loop_events_concat.
    reflexivity. }
  split; [apply init_events_setup |].
  split; [rewrite length_fmap, length_seq; reflexivity |].
  split; [rewrite length_fmap, length_seq; reflexivity |].
  split; [reflexivity |].
  intros k Hk.
  exists (iteration_events B a s (Z.of_nat k) (st k)), (st k), (st (S k)).
  split; [rewrite list_lookup_fmap, lookup_seq_lt by exact Hk; reflexivity |].
  split; [rewrite list_lookup_fmap, lookup_seq_lt by lia; reflexivity |].
  split; [rewrite list_lookup_fmap, lookup_seq_lt by lia; reflexivity |].
  assert (st (S k) = next B a s (Z.of_nat k) (st k)) as ->.
  { unfold st. rewrite seqZ_S, locals_after_snoc. reflexivity. }
  apply iteration_as_claimed. unfold st.
  rewrite locals_after_shape. apply init_aux_shape.
Qed.

End StepOrderRevised.

(** * A call without retained iterations (lines 184-198, 270-302) *)

Section NoRetainedIteration.
Context {val : Type} (B : Backend val).


End NoRetainedIteration.

(** * Positive latent variables (lines 265-267, 312-317 and 344-345) *)

Section PositiveLatents.
Context (B : Backend R) (HB : follows_spec B).

(** The main loop run from the initial state through iteration [k]. *)
Lemma loop_prefix a (w w1 : world B) s (k : Z) :
  setup B a w = (w1, inr s) ->
  exists wk,
    for_each (range (k + 1)) (iteration B a s) (init_locals B a s)
             (init_samplers B a s w1).1
    = (wk, inr (state_after B a s k)).
Proof.
  intros Es.
  pose proof (wp_run _ _ _ _ _ (setup_returns B a w) Es) as Hok.
  cbn beta iota in Hok.
  pose proof (loop_spec B a s (range (k + 1)) [] (init_locals B a s)
                (init_samplers B a s w1).1) as Hloop.
  unfold wp in Hloop.
  destruct (for_each (range (k + 1)) (iteration B a s) (init_locals B a s)
                     (init_samplers B a s w1).1) as [wk r].
  cbn [fst snd] in Hloop. exists wk.
  destruct Hloop as (_ & -> & _).
  - simpl. apply NoDup_seqZ.
  - reflexivity.
  - apply (setup_ok_cols B a w w1 s Hok).
  - rewrite init_samplers_eq. reflexivity.
  - rewrite init_samplers_eq.
    cbn [fst self draws set_forest_samples set_rng init_locals l_draws].
    destruct Hok as (? & ? & ? & ? & H). apply H.
  - reflexivity.
Qed.

(** C7, as amended.  Take a backend whose latent update and cumulative
    refresh are the ones of the specification, over the reals, and a call
    that returns.  The columns of [latent_samples] that are assigned, one
    per retained iteration and the first ones of the container, hold one
    strictly positive value per observation.  And the main loop, run from
    the state that the initialisation leaves through any iteration [k],
    ends with every latent slot strictly positive: from the latent update
    of an iteration to the latent update of the next, the latent variables
    are positive.  (Before the first latent update they are 0.) *)
Theorem latent_samples_positive a (w w' : world B) :
  sample B a w = (w', inr tt) ->
  exists w1 s w2 l0 dr cols,
    setup B a w = (w1, inr s) /\
    init_samplers B a s w1 = (w2, inr l0) /\
    draws (self w') = Some dr /\
    columns (latent_samples dr) =
      (Some <$> cols) ++ replicate (length (s_keep_idx s) - length cols) None /\
    length cols = length (retained_iterations B a (s_keep_idx s)) /\
    Forall (fun zs => length zs = s_n_train s /\ Forall (fun z => 0 < z)%R zs) cols /\
    forall k, (0 <= k < num_gfr a + num_burnin a + num_mcmc a)%Z ->
      exists wk lk,
        for_each (range (k + 1)) (iteration B a s) l0 w2 = (wk, inr lk) /\
        length (series 0 (l_aux lk)) = s_n_train s /\
        Forall (fun z => 0 < z)%R (series 0 (l_aux lk)).
Proof.
  intros E.
  destruct (sample_inr B a w w' E) as (w1 & s & Es & Hok & _ & _ & Hd & _).
  pose proof (setup_ok_levels B a w w1 s Hok) as HK.
  cbn zeta in Hd.
  set (T := (num_gfr a + num_burnin a + num_mcmc a)%Z) in *.
  exists w1, s, (init_samplers B a s w1).1, (init_locals B a s),
    (l_draws (locals_after B a s (range T) (init_locals B a s))),
    ((fun k => series 0 (l_aux (state_after B a s k)))
       <$> retained_iterations B a (s_keep_idx s)).
  split; [exact Es |].
  split; [rewrite init_samplers_eq; reflexivity |].
  split; [exact Hd |].
  split.
  { pose proof (containers_after_run B LatentSamples a w w1 s Hok
                  ltac:(discriminate)) as Hc.
    cbn zeta in Hc. fold T in Hc. unfold container in Hc. injection Hc as ->.
    rewrite length_fmap, <- list_fmap_compose. reflexivity. }
  split; [apply length_fmap |].
  split.
  - apply Forall_fmap, Forall_forall. intros k Hk. simpl.
    apply (state_after_positive B HB); [exact HK |].
    unfold retained_iterations in Hk. apply list_elem_of_filter in Hk as [_ Hk].
    apply elem_of_seqZ in Hk. lia.
  - intros k Hk. destruct (loop_prefix a w w1 s k Es) as [wk Hrun].
    exists wk, (state_after B a s k). split; [exact Hrun |].
    apply (state_after_positive B HB); [exact HK | lia].
Qed.

End PositiveLatents.

(** * Worked examples for the amended statements *)

Lemma real_data_ok : data_ok real_toy real_args 12 2 np_int64 real_data.
Proof.
  unfold data_ok. split; [reflexivity |]. split; [intros xt [=] |].
  split; [exists [12%nat]; split; reflexivity |].
  split; [reflexivity |]. unfold real_data. repeat constructor; lia.
Qed.

Lemma real_weights_ok : weights_ok real_toy real_args 2.
Proof.
  split; [intros _; discriminate |].
  unfold initial_weights. cbn [variable_weights real_args replicate existsb].
  cbn [is_negative recip real_toy].
  destruct (Rlt_dec (/ INR 2) 0) as [Hneg | _]; [| reflexivity].
  exfalso. assert (0 < / INR 2)%R by (apply Rinv_0_lt_compat; simpl; lra). lra.
Qed.

Lemma real_several_categories : several_categories np_int64 real_data.
Proof.
  split.
  - unfold real_data. apply Exists_cons_tl, Exists_cons_hd. lia.
  - unfold real_data. repeat constructor; vm_compute; reflexivity.
Qed.

Lemma real_toy_setup_returns :
  exists w1 s, setup real_toy real_args (mkWorld new_model []) = (w1, inr s).
Proof.
  pose proof (setup_accepts real_toy real_args (mkWorld new_model []) 12 2
                np_int64 real_data real_data_ok real_weights_ok
                real_several_categories ltac:(discriminate)) as Hs.
  unfold wp in Hs.
  destruct (setup real_toy real_args (mkWorld new_model [])) as [w1 r].
  cbn [fst snd] in Hs. destruct Hs as [s ->]. eauto.
Qed.

Lemma real_toy_run_returns :
  sample real_toy real_args (mkWorld new_model [])
  = ((sample real_toy real_args (mkWorld new_model [])).1, inr tt).
Proof.
  destruct real_toy_setup_returns as (w1 & s & Es).
  destruct (sample_returns real_toy real_args _ w1 s Es) as [w' E].
  rewrite E. reflexivity.
Qed.

(** C7: the claim as it was made fails before the first latent update.
    The store in which the initialisation leaves the latent slots, and
    which the forest update of iteration 0 is called with, holds 0 in
    every latent slot. *)
Lemma latent_slots_are_zero_at_the_first_forest_update :
  exists w1 s w2 l0,
    setup real_toy real_args (mkWorld new_model []) = (w1, inr s) /\
    init_samplers real_toy real_args s w1 = (w2, inr l0) /\
    series 0 (l_aux l0) = replicate 12 0%R /\
    ~ Forall (fun z => 0 < z)%R (series 0 (l_aux l0)).
Proof.
  destruct real_toy_setup_returns as (w1 & s & Es).
  pose proof (wp_run _ _ _ _ _ (setup_returns real_toy real_args _) Es) as Hok.
  cbn beta iota in Hok.
  pose proof (setup_ok_levels real_toy real_args _ w1 s Hok) as HK.
  assert (s_n_train s = 12%nat) as Hn.
  { destruct Hok as (dt & sh & d & m & Hy & _ & _ & _ & _ & _ & _ & Hny & _).
    injection Hy as <- <- <-. simpl in Hny. congruence. }
  exists w1, s, (init_samplers real_toy real_args s w1).1,
    (init_locals real_toy real_args s).
  split; [exact Es |].
  split; [rewrite init_samplers_eq; reflexivity |].
  cbn [init_locals l_aux].
  destruct (init_aux_series real_toy s HK) as (H0 & _).
  rewrite H0, Hn. split; [reflexivity |].
  intros H. apply Forall_cons in H as [H _]. simpl in H. lra.
Qed.

Lemma latent_samples_positive_witness :
  let a := real_args in
  let w := mkWorld (@new_model R real_toy) [] in
  exists w1 s w2 l0 dr cols,
    setup real_toy a w = (w1, inr s) /\
    init_samplers real_toy a s w1 = (w2, inr l0) /\
    draws (self (sample real_toy a w).1) = Some dr /\
    columns (latent_samples dr) =
      (Some <$> cols) ++ replicate (length (s_keep_idx s) - length cols) None /\
    length cols = length (retained_iterations real_toy a (s_keep_idx s)) /\
    Forall (fun zs => length zs = s_n_train s /\ Forall (fun z => 0 < z)%R zs) cols /\
    forall k, (0 <= k < num_gfr a + num_burnin a + num_mcmc a)%Z ->
      exists wk lk,
        for_each (range (k + 1)) (iteration real_toy a s) l0 w2 = (wk, inr lk) /\
        length (series 0 (l_aux lk)) = s_n_train s /\
        Forall (fun z => 0 < z)%R (series 0 (l_aux lk)).
Proof.
  apply (latent_samples_positive real_toy real_toy_follows_spec real_args
           (mkWorld new_model [])).
  exact real_toy_run_returns.
Defined.

(** C5: the claim as it was made fails for a negative burn-in count, which
    no check turns away.  With [num_burnin = -2] and [num_mcmc = 4] the
    call returns; [keep_idx] is [[-2; -1; 0; 1]] and the containers have
    four columns, but the loop runs iterations 0 and 1 only: two draws are
    retained, and columns 2 and 3 are never assigned. *)
Lemma negative_burn_in_leaves_columns_unfilled :
  let a := demo_args 0 (-2) 4 1 in
  (sample toy a fresh).2 = inr tt /\
  arange (num_gfr a + num_burnin a) (num_gfr a + num_burnin a + num_mcmc a)
         (n_thin a) = inr [-2; -1; 0; 1]%Z /\
  column_writes LatentSamples (trace (sample toy a fresh).1) = [0; 1]%Z /\
  (columns ∘ latent_samples) <$> draws (self (sample toy a fresh).1)
  = Some [Some [101; 102; 103; 104]; Some [201; 202; 203; 204]; None; None]%Z.
Proof. vm_compute. repeat split; reflexivity. Qed.


Lemma iteration_steps_in_order_witness :
  let a := demo_args 1 1 3 2 in
  exists w1 s w2 l0 init blocks states,
    setup toy a fresh = (w1, inr s) /\
    init_samplers toy a s w1 = (w2, inr l0) /\
    trace (sample toy a fresh).1 = trace fresh ++ init ++ concat blocks /\
    Forall setup_event init /\
    length blocks = Z.to_nat (num_gfr a + num_burnin a + num_mcmc a) /\
    length states = S (Z.to_nat (num_gfr a + num_burnin a + num_mcmc a)) /\
    states !! 0%nat = Some l0 /\
    forall k : nat,
      (k < Z.to_nat (num_gfr a + num_burnin a + num_mcmc a))%nat ->
      exists b l l',
        blocks !! k = Some b /\ states !! k = Some l /\ states !! S k = Some l' /\
        claimed_iteration toy a s (Z.of_nat k) l b l'.
Proof.
  apply (iteration_steps_in_order toy (demo_args 1 1 3 2) fresh).
  vm_compute. reflexivity.
Defined.
